(** * Survival-cohort stratification scripts: a shallow embedding

    The repository is a set of independent pandas scripts.  Each section below
    embeds the functions of one script, keeping the names of the source.

    Data model.  A [DataFrame] is a list of rows; every row maps a column
    name to a cell, and [columns] is the list of column labels.  A cell is a
    float (modelled as an exact rational, or [NaN] for a missing value), a
    string or a boolean.  A pandas [Series] is the list of the cells of one
    column, in row order.  Exceptions are values of [exn], carried by the
    error monad [result]; what a function prints is returned next to its
    value as a list of lines. *)

From Stdlib Require Import QArith Ascii Rbase R_sqrt Lra Floats Uint63.
From Stdlib Require Lqa.
From stdpp Require Import gmap strings list fin_maps pretty sorting.

Local Open Scope string_scope.
Local Open Scope list_scope.

(** ** Cells, exceptions and the error monad *)

Inductive cell : Type :=
  | Num (q : Q)
  | NaN
  | Str (s : string)
  | Bool (b : bool).

#[global] Instance cell_inhabited : Inhabited cell := populate NaN.

Inductive exn : Type :=
  | KeyError (key : string)
  | TypeError (op : string)
  | ValueError (msg : string).

Inductive result (A : Type) : Type :=
  | Ok (a : A)
  | Raise (e : exn).
Arguments Ok {A} a.
Arguments Raise {A} e.

Definition bind {A B : Type} (m : result A) (f : A → result B) : result B :=
  match m with
  | Ok a => f a
  | Raise e => Raise e
  end.

Notation "'do' x <- m ;; k" := (bind m (λ x, k))
  (at level 10, x name, m at level 99, k at level 200,
   format "'[v' 'do'  x  <-  m  ;; '/' k ']'").

(** [traverse f l] runs [f] on every element, left to right, and stops at
    the first exception: an elementwise Series operation. *)
Fixpoint traverse {A B : Type} (f : A → result B) (l : list A) : result (list B) :=
  match l with
  | [] => Ok []
  | x :: l' => do y <- f x;; do ys <- traverse f l';; Ok (y :: ys)
  end.

(** ** Float comparisons (IEEE: every comparison with NaN is false) *)

Definition Qlt_bool (x y : Q) : bool := negb (Qle_bool y x).

(** The numeric value of a cell in an arithmetic or comparison context;
    [None] is NaN.  A string has no numeric value: the operation raises. *)
Definition to_float (op : string) (c : cell) : result (option Q) :=
  match c with
  | Num q => Ok (Some q)
  | NaN => Ok None
  | Bool b => Ok (Some (if b then 1%Q else 0%Q))
  | Str _ => Raise (TypeError op)
  end.

Definition float_gt (x y : option Q) : bool :=
  match x, y with
  | Some a, Some b => Qlt_bool b a
  | _, _ => false
  end.

Definition float_lt (x y : option Q) : bool := float_gt y x.

Definition float_ge (x y : option Q) : bool :=
  match x, y with
  | Some a, Some b => Qle_bool b a
  | _, _ => false
  end.

Definition float_eq (x y : option Q) : bool :=
  match x, y with
  | Some a, Some b => Qeq_bool a b
  | _, _ => false
  end.

(** [series > y], [series < y] *)
Definition series_gt (s : list cell) (y : option Q) : result (list bool) :=
  traverse (λ c, do x <- to_float ">" c;; Ok (float_gt x y)) s.

Definition series_lt (s : list cell) (y : option Q) : result (list bool) :=
  traverse (λ c, do x <- to_float "<" c;; Ok (float_lt x y)) s.

(** [a & b] on two boolean Series *)
Definition cell_and (a b : cell) : result cell :=
  match a, b with
  | Bool x, Bool y => Ok (Bool (x && y))
  | _, _ => Raise (TypeError "&")
  end.

Fixpoint series_and (s t : list cell) : result (list cell) :=
  match s, t with
  | a :: s', b :: t' => do c <- cell_and a b;; do r <- series_and s' t';; Ok (c :: r)
  | _, _ => Ok []
  end.

(** Truth value of a cell, as [np.where] and [if] read it. *)
Definition truthy (c : cell) : bool :=
  match c with
  | Bool b => b
  | Num q => negb (Qeq_bool q 0)
  | NaN => true
  | Str s => negb (String.eqb s "")
  end.

Definition np_where (cond : list cell) (x y : cell) : list cell :=
  (λ c, if truthy c then x else y) <$> cond.

(** Equality of a cell with a string label: [series == 'label']. *)
Definition cell_is (label : string) (c : cell) : bool :=
  match c with
  | Str s => String.eqb s label
  | _ => false
  end.

Definition isna (c : cell) : bool :=
  match c with
  | NaN => true
  | _ => false
  end.

(** ** Data frames *)

Record DataFrame : Type := mkDF {
  columns : list string;
  rows : list (gmap string cell)
}.

Definition has_column (df : DataFrame) (c : string) : bool :=
  bool_decide (c ∈ columns df).

(** [len(df)] *)
Definition len (df : DataFrame) : nat := length (rows df).

(** [df[c]]: the Series of column [c]; KeyError when there is none. *)
Definition getitem (df : DataFrame) (c : string) : result (list cell) :=
  if has_column df c then Ok ((λ r : gmap string cell, r !!! c) <$> rows df)
  else Raise (KeyError c).

(** [df[c] = s]: replaces column [c] or appends it; ValueError when [s]
    has not one value per row. *)
Definition setitem (df : DataFrame) (c : string) (s : list cell) : result DataFrame :=
  if bool_decide (length s = len df) then
    Ok {| columns := if has_column df c then columns df else columns df ++ [c];
          rows := zip_with (λ (r : gmap string cell) v, <[c:=v]> r) (rows df) s |}
  else Raise (ValueError "Length of values does not match length of index").

(** [df[c] = v] for a scalar [v] *)
Definition setitem_scalar (df : DataFrame) (c : string) (v : cell) : DataFrame :=
  {| columns := if has_column df c then columns df else columns df ++ [c];
     rows := (λ r : gmap string cell, <[c:=v]> r) <$> rows df |}.

(** [df[mask]]: the rows whose mask entry is true *)
Fixpoint compress {A : Type} (mask : list bool) (l : list A) : list A :=
  match mask, l with
  | b :: mask', x :: l' => if b then x :: compress mask' l' else compress mask' l'
  | _, _ => []
  end.

Definition select_rows (df : DataFrame) (mask : list bool) : DataFrame :=
  {| columns := columns df; rows := compress mask (rows df) |}.

(** [df.drop(columns=[c])]: KeyError when the column is absent *)
Definition drop_column (df : DataFrame) (c : string) : result DataFrame :=
  if has_column df c then
    Ok {| columns := List.filter (λ k, negb (String.eqb k c)) (columns df);
          rows := (λ r : gmap string cell, delete c r) <$> rows df |}
  else Raise (KeyError c).

(** [df.dropna(subset=cs)]: KeyError on an absent column, otherwise the rows
    with no missing value in the columns [cs]. *)
Definition dropna (df : DataFrame) (cs : list string) : result DataFrame :=
  match List.find (λ c, negb (has_column df c)) cs with
  | Some c => Raise (KeyError c)
  | None =>
      Ok {| columns := columns df;
            rows := List.filter
                      (λ r : gmap string cell, forallb (λ c, negb (isna (r !!! c))) cs)
                      (rows df) |}
  end.

Definition empty (df : DataFrame) : bool :=
  Nat.eqb (len df) 0 || Nat.eqb (length (columns df)) 0.

(** ** Series helpers: equality, [unique], [nunique], [np.sort], counts *)

(** [a == b] on two cells; NaN is equal to nothing. *)
Definition cell_eqb (a b : cell) : bool :=
  match a, b with
  | Str s, Str t => String.eqb s t
  | Str _, _ | _, Str _ => false
  | x, y =>
      match to_float "==" x, to_float "==" y with
      | Ok u, Ok v => float_eq u v
      | _, _ => false
      end
  end.

(** The distinct values of a Series in order of first appearance; the
    missing value is kept once, as pandas does. *)
Definition same_value (a b : cell) : bool :=
  (isna a && isna b) || cell_eqb a b.

Fixpoint unique (s : list cell) : list cell :=
  match s with
  | [] => []
  | c :: s' => c :: List.filter (λ d, negb (same_value c d)) (unique s')
  end.

(** [series.nunique()] counts the distinct values that are not missing. *)
Definition nunique (s : list cell) : nat :=
  length (unique (List.filter (λ c, negb (isna c)) s)).

(** [a < b] as the sort reads it: strings by code point, numbers by value;
    a string against a number raises. *)
Definition cell_lt (a b : cell) : result bool :=
  match a, b with
  | Str s, Str t => Ok (String.ltb s t)
  | Str _, _ | _, Str _ => Raise (TypeError "<")
  | x, y => do u <- to_float "<" x;; do v <- to_float "<" y;; Ok (float_lt u v)
  end.

Fixpoint insert_sorted (c : cell) (l : list cell) : result (list cell) :=
  match l with
  | [] => Ok [c]
  | d :: l' =>
      do b <- cell_lt d c;;
      if b : bool then do r <- insert_sorted c l';; Ok (d :: r) else Ok (c :: d :: l')
  end.

Fixpoint np_sort (l : list cell) : result (list cell) :=
  match l with
  | [] => Ok []
  | c :: l' => do r <- np_sort l';; insert_sorted c r
  end.

(** [mask.sum()]: how many entries are true *)
Definition mask_sum (mask : list bool) : nat := length (List.filter (λ b : bool, b) mask).

(** [pd.crosstab(a, b)]: one row per sorted distinct value of [a], one
    column per sorted distinct value of [b], cells counting the pairs. *)
Definition count_pairs (a b : list cell) (x y : cell) : nat :=
  length (List.filter (λ p : cell * cell, cell_eqb p.1 x && cell_eqb p.2 y) (zip a b)).

Definition crosstab (a b : list cell) : result (list (list nat)) :=
  do ra <- np_sort (unique a);;
  do cb <- np_sort (unique b);;
  Ok ((λ x, (λ y, count_pairs a b x y) <$> cb) <$> ra).

(** [series / d] for a float divisor *)
Definition series_div (s : list cell) (d : Q) : result (list cell) :=
  traverse (λ c, do x <- to_float "/" c;;
                 Ok (match x with Some q => Num (q / d) | None => NaN end)) s.

(** [str(e)] for an exception *)
Definition exn_str (e : exn) : string :=
  match e with
  | KeyError k => "'" +:+ k +:+ "'"
  | TypeError op => "'" +:+ op +:+ "' not supported between these operands"
  | ValueError msg => msg
  end.

(** The statement [df[f'{gene}_expresso'] = df[gene] > 0], which the
    scripts s2 and s3 share word for word. *)
Definition assign_expresso (df : DataFrame) (gene : string) : result DataFrame :=
  do s <- getitem df gene;;
  do b <- series_gt s (Some 0%Q);;
  setitem df (gene +:+ "_expresso") (Bool <$> b).

(** ** External statistics

    The tests of lifelines and scipy are not part of the repository.  The
    scripts are embedded over any behaviour of them: each is a function that
    returns its p-value or raises. *)

Record Stats : Type := mkStats {
  (** [logrank_test(T_A, T_B, E_A, E_B).p_value] *)
  logrank_test : list cell → list cell → list cell → list cell → result Q;
  (** [multivariate_logrank_test(T, groups, E).p_value] *)
  multivariate_logrank_test : list cell → list cell → list cell → result Q;
  (** [chi2_contingency(table)]: (chi2, p, dof, expected) *)
  chi2_contingency : list (list nat) → result (Q * Q * nat * list (list Q));
  (** [CoxPHFitter().fit(df, duration_col, event_col, formula)] and the row
      of its summary for the covariate: p, exp(coef) and its 95% bounds *)
  cox_ph_fit : DataFrame → string → string → string → result (Q * Q * Q * Q)
}.

(** A stacked-bar or Kaplan-Meier figure, reduced to what the claims read:
    the p-value written on it and, for survival curves, the legend entries
    (group label, group size). *)
Record figura : Type := mkFigura {
  p_valor : Q;
  curvas : list (cell * nat)
}.

(** * s3_mamanalysis_survival.py *)

Module S3Survival.

Definition GENES_INTERESSE : list string := ["PRG2"; "EPX"; "CLC"; "IL5RA"].
Definition COL_TEMPO : string := "OS_Time_nature2012".
Definition COL_EVENTO : string := "OS_event_nature2012".
Definition COL_PAM50 : string := "PAM50Call_RNAseq".

(** The loop of step 1: one boolean column per gene; the first gene that is
    not a column ends the function ([inr gene]: the [return None]). *)
Fixpoint colunas_expresso (genes : list string) (df : DataFrame)
  : result (DataFrame + string) :=
  match genes with
  | [] => Ok (inl df)
  | gene :: genes' =>
      if has_column df gene then
        do df' <- assign_expresso df gene;;
        colunas_expresso genes' df'
      else Ok (inr gene)
  end.

(** [df[coluna] = np.where(df[origem], sim, nao)] *)
Definition grupo_np_where (df : DataFrame) (coluna origem sim nao : string)
  : result DataFrame :=
  do s <- getitem df origem;;
  setitem df coluna (np_where s (Str sim) (Str nao)).

Definition definir_grupos_comparacao (df : DataFrame)
  : result (option DataFrame * list string) :=
  let out := ["Definindo grupos de comparação..."] in
  do r <- colunas_expresso GENES_INTERESSE df;;
  match r with
  | inr gene =>
      Ok (None, out ++ ["Atenção: Gene " +:+ gene +:+ " não encontrado para criar grupos."])
  | inl df =>
      do prg2 <- getitem df "PRG2_expresso";;
      do epx <- getitem df "EPX_expresso";;
      do g <- series_and prg2 epx;;
      do clc <- getitem df "CLC_expresso";;
      do g <- series_and g clc;;
      do il5ra <- getitem df "IL5RA_expresso";;
      do g_4_all <- series_and g il5ra;;
      do df <- setitem df "grupo_4_vs_outros"
                 (np_where g_4_all (Str "CLC_EPX_IL5RA_PRG2") (Str "Demais"));;
      do df <- grupo_np_where df "grupo_PRG2_vs_Nao" "PRG2_expresso"
                 "Expressa PRG2" "Não Expressa PRG2";;
      do df <- grupo_np_where df "grupo_CLC_vs_Nao" "CLC_expresso"
                 "Expressa CLC" "Não Expressa CLC";;
      do df <- grupo_np_where df "grupo_IL5RA_vs_Nao" "IL5RA_expresso"
                 "Expressa IL5RA" "Não Expressa IL5RA";;
      do df <- grupo_np_where df "grupo_EPX_vs_Nao" "EPX_expresso"
                 "Expressa EPX" "Não Expressa EPX";;
      Ok (Some df, out)
  end.

(** The [try] block of [plotar_sobrevida]: the test that fits the number of
    groups; any exception leaves the initial 0.99 and prints a line. *)
Definition teste_logrank (st : Stats) (T E grupos grupos_unicos : list cell)
  : Q * list string :=
  let r :=
    match grupos_unicos with
    | [grupo_A; grupo_B] =>
        let idx_A := cell_eqb grupo_A <$> grupos in
        let idx_B := cell_eqb grupo_B <$> grupos in
        logrank_test st (compress idx_A T) (compress idx_B T)
                        (compress idx_A E) (compress idx_B E)
    | _ :: _ :: _ :: _ => multivariate_logrank_test st T grupos E
    | _ => Ok (99 # 100)
    end in
  match r with
  | Ok p => (p, [])
  | Raise e => (99 # 100, ["  -> Erro no teste estatístico (logrank_test): " +:+ exn_str e])
  end.

(** The plotting loop: one curve per group that has a sample *)
Definition curvas_km (grupos grupos_unicos : list cell) : list (cell * nat) :=
  List.filter (λ gn : cell * nat, Nat.ltb 0 gn.2)
    ((λ grupo, (grupo, mask_sum (cell_eqb grupo <$> grupos))) <$> grupos_unicos).

Definition plotar_sobrevida (st : Stats) (df_dados : DataFrame)
    (coluna_grupo titulo : string) : result (option figura * list string) :=
  let out := ["Gerando gráfico: " +:+ titulo] in
  do df_plot <- dropna df_dados [COL_TEMPO; COL_EVENTO; coluna_grupo];;
  do g <- getitem df_plot coluna_grupo;;
  let df_plot := select_rows df_plot ((λ c, negb (cell_is "Ignorar" c)) <$> g) in
  do g <- getitem df_plot coluna_grupo;;
  if empty df_plot || Nat.ltb (nunique g) 2 then
    Ok (None, out ++ ["  -> Aviso: Dados insuficientes para '" +:+ titulo
                        +:+ "' após filtragem."])
  else
    do t <- getitem df_plot COL_TEMPO;;
    do T <- series_div t (3044 # 100);;
    do E <- getitem df_plot COL_EVENTO;;
    do grupos <- getitem df_plot coluna_grupo;;
    do grupos_unicos <- np_sort (unique grupos);;
    let '(p, err) := teste_logrank st T E grupos grupos_unicos in
    Ok (Some {| p_valor := p; curvas := curvas_km grupos grupos_unicos |},
        out ++ err).

(** The [try] around [chi2_contingency]: only ValueError is caught. *)
Definition teste_chi2 (st : Stats) (df_cross : list (list nat))
  : result (Q * list string) :=
  match chi2_contingency st df_cross with
  | Ok (_, p, _, _) => Ok (p, [])
  | Raise (ValueError msg) =>
      Ok (99 # 100, ["  -> Erro no teste estatístico (chi2_contingency): " +:+ msg])
  | Raise e => Raise e
  end.

Definition plotar_pam50 (st : Stats) (df_dados : DataFrame)
    (coluna_grupo titulo : string) : result (option figura * list string) :=
  let out := ["Gerando gráfico: " +:+ titulo] in
  do df_plot <- dropna df_dados [COL_PAM50; coluna_grupo];;
  do g <- getitem df_plot coluna_grupo;;
  let df_plot := select_rows df_plot ((λ c, negb (cell_is "Ignorar" c)) <$> g) in
  do pam <- getitem df_plot COL_PAM50;;
  let '(df_plot, out) :=
    if existsb (cell_is "Normal") pam then
      (select_rows df_plot ((λ c, negb (cell_is "Normal" c)) <$> pam),
       out ++ ["  -> Subtipo 'Normal' removido da análise PAM50."])
    else (df_plot, out) in
  do pam <- getitem df_plot COL_PAM50;;
  if empty df_plot || Nat.ltb (nunique pam) 2 then
    Ok (None, out ++ ["  -> Aviso: Dados insuficientes para '" +:+ titulo
                        +:+ "' após filtragem."])
  else
    do g <- getitem df_plot coluna_grupo;;
    do pam <- getitem df_plot COL_PAM50;;
    do df_cross <- crosstab g pam;;
    do pe <- teste_chi2 st df_cross;;
    Ok (Some {| p_valor := pe.1; curvas := [] |}, out ++ pe.2).

(** The comparisons of [main], in the order it runs them: the plotting
    function, the group column and the title. *)
Inductive grafico : Type := Sobrevida | Pam50.

Definition comparacoes : list (grafico * string * string) :=
  [ (Sobrevida, "grupo_4_vs_outros", "Sobrevida: CLC_EPX_IL5RA_PRG2 vs. Demais");
    (Sobrevida, "grupo_PRG2_vs_Nao", "Sobrevida: Expressa PRG2 vs. Não Expressa PRG2");
    (Sobrevida, "grupo_CLC_vs_Nao", "Sobrevida: Expressa CLC vs. Não Expressa CLC");
    (Sobrevida, "grupo_IL5RA_vs_Nao", "Sobrevida: Expressa IL5RA vs. Não Expressa IL5RA");
    (Sobrevida, "grupo_EPX_vs_Nao", "Sobrevida: Expressa EPX vs. Não Expressa EPX");
    (Pam50, "grupo_4_vs_outros", "Distribuição PAM50: CLC_EPX_IL5RA_PRG2 vs. Demais");
    (Pam50, "grupo_PRG2_vs_Nao", "Distribuição PAM50: Expressa PRG2 vs. Não Expressa PRG2");
    (Pam50, "grupo_CLC_vs_Nao", "Distribuição PAM50: Expressa CLC vs. Não Expressa CLC");
    (Pam50, "grupo_IL5RA_vs_Nao", "Distribuição PAM50: Expressa IL5RA vs. Não Expressa IL5RA");
    (Pam50, "grupo_EPX_vs_Nao", "Distribuição PAM50: Expressa EPX vs. Não Expressa EPX") ].

Definition plotar (st : Stats) (df : DataFrame) (c : grafico * string * string)
  : result (option figura * list string) :=
  match c.1.1 with
  | Sobrevida => plotar_sobrevida st df c.1.2 c.2
  | Pam50 => plotar_pam50 st df c.1.2 c.2
  end.

(** Runs the comparisons one after the other; an exception of one of them
    leaves [main]. *)
Fixpoint executar (st : Stats) (df : DataFrame) (cs : list (grafico * string * string))
  : result (list (string * option figura) * list string) :=
  match cs with
  | [] => Ok ([], [])
  | c :: cs' =>
      do r <- plotar st df c;;
      do rs <- executar st df cs';;
      Ok ((c.1.2, r.1) :: rs.1, r.2 ++ rs.2)
  end.

(** [main], from the loaded table on (the file dialog and [read_csv] come
    before): the figures it produced, by group column, and its output. *)
Definition main (st : Stats) (df_merged : DataFrame)
  : result (list (string * option figura) * list string) :=
  let colunas_essenciais := GENES_INTERESSE ++ [COL_TEMPO; COL_EVENTO; COL_PAM50] in
  let colunas_faltando :=
    List.filter (λ col, negb (has_column df_merged col)) colunas_essenciais in
  match colunas_faltando with
  | _ :: _ =>
      Ok ([], ["ERRO: O arquivo CSV não contém todas as colunas necessárias.";
               "Colunas ausentes: " +:+ String.concat ", " colunas_faltando])
  | [] =>
      do r <- definir_grupos_comparacao df_merged;;
      match r.1 with
      | None =>
          Ok ([], r.2 ++ ["ERRO: Falha ao definir os grupos (genes essenciais ausentes). Encerrando."])
      | Some df =>
          do rs <- executar st df comparacoes;;
          Ok (rs.1, r.2 ++ rs.2)
      end
  end.

End S3Survival.

(** * s3_mamanalysis_manutenção.py *)

Module S3Manutencao.

Definition GENES_INTERESSE : list string := ["IL5"; "IL33"; "IL25"; "TSLP"].
Definition COL_TEMPO : string := "OS_Time_nature2012".
Definition COL_EVENTO : string := "OS_event_nature2012".
Definition COL_PAM50 : string := "PAM50Call_RNAseq".

Fixpoint colunas_expresso (genes : list string) (df : DataFrame)
  : result (DataFrame + string) :=
  match genes with
  | [] => Ok (inl df)
  | gene :: genes' =>
      if has_column df gene then
        do df' <- assign_expresso df gene;;
        colunas_expresso genes' df'
      else Ok (inr gene)
  end.

Definition grupo_np_where (df : DataFrame) (coluna origem sim nao : string)
  : result DataFrame :=
  do s <- getitem df origem;;
  setitem df coluna (np_where s (Str sim) (Str nao)).

(** The group of the four genes reads the column [IL5RA_expresso], as the
    source does, while step 1 wrote [IL5_expresso]. *)
Definition definir_grupos_comparacao (df : DataFrame)
  : result (option DataFrame * list string) :=
  let out := ["Definindo grupos de comparação..."] in
  do r <- colunas_expresso GENES_INTERESSE df;;
  match r with
  | inr gene =>
      Ok (None, out ++ ["Atenção: Gene " +:+ gene
                          +:+ " não encontrado. Abortando a definição de grupos."])
  | inl df =>
      do il5ra <- getitem df "IL5RA_expresso";;
      do il33 <- getitem df "IL33_expresso";;
      do g <- series_and il5ra il33;;
      do il25 <- getitem df "IL25_expresso";;
      do g <- series_and g il25;;
      do tslp <- getitem df "TSLP_expresso";;
      do g_4_all <- series_and g tslp;;
      do df <- setitem df "grupo_4_genes_vs_outros"
                 (np_where g_4_all (Str "IL5RA_IL33_IL25_TSLP") (Str "Demais"));;
      do df <- grupo_np_where df "grupo_IL5RA_vs_Nao" "IL5RA_expresso"
                 "Expressa IL5RA" "Não Expressa IL5RA";;
      do df <- grupo_np_where df "grupo_IL33_vs_Nao" "IL33_expresso"
                 "Expressa IL33" "Não Expressa IL33";;
      do df <- grupo_np_where df "grupo_IL25_vs_Nao" "IL25_expresso"
                 "Expressa IL25" "Não Expressa IL25";;
      do df <- grupo_np_where df "grupo_TSLP_vs_Nao" "TSLP_expresso"
                 "Expressa TSLP" "Não Expressa TSLP";;
      Ok (Some df, out)
  end.

Definition teste_chi2 (st : Stats) (df_cross : list (list nat))
  : result (Q * list string) :=
  match chi2_contingency st df_cross with
  | Ok (_, p, _, _) => Ok (p, [])
  | Raise (ValueError msg) =>
      Ok (99 # 100, ["  -> Erro no teste estatístico (chi2_contingency): " +:+ msg
                       +:+ ". P-valor definido como 0.99."])
  | Raise e => Raise e
  end.

Definition plotar_pam50 (st : Stats) (df_dados : DataFrame)
    (coluna_grupo titulo : string) : result (option figura * list string) :=
  let out := ["Gerando gráfico de PAM50: " +:+ titulo] in
  do df_plot <- dropna df_dados [COL_PAM50; coluna_grupo];;
  do g <- getitem df_plot coluna_grupo;;
  let df_plot := select_rows df_plot ((λ c, negb (cell_is "Ignorar" c)) <$> g) in
  do pam <- getitem df_plot COL_PAM50;;
  let '(df_plot, out) :=
    if existsb (cell_is "Normal") pam then
      (select_rows df_plot ((λ c, negb (cell_is "Normal" c)) <$> pam),
       out ++ ["  -> Subtipo 'Normal' removido da análise PAM50."])
    else (df_plot, out) in
  do pam <- getitem df_plot COL_PAM50;;
  if empty df_plot || Nat.ltb (nunique pam) 2 then
    Ok (None, out ++ ["  -> Aviso: Dados insuficientes para '" +:+ titulo
                        +:+ "' após filtragem."])
  else
    do g <- getitem df_plot coluna_grupo;;
    do pam <- getitem df_plot COL_PAM50;;
    do df_cross <- crosstab g pam;;
    do pe <- teste_chi2 st df_cross;;
    Ok (Some {| p_valor := pe.1; curvas := [] |}, out ++ pe.2).

End S3Manutencao.

(** * The median-split scripts *)

(** [df[cols].sum(axis=1)]: the sum of the values of a row that are not
    missing (0 when all are). *)
Definition add_skipna (acc : Q) (x : option Q) : Q :=
  match x with
  | Some q => (acc + q)%Q
  | None => acc
  end.

Definition row_sum (cols : list string) (r : gmap string cell) : result Q :=
  do xs <- traverse (λ c, to_float "+" (r !!! c)) cols;;
  Ok (foldl add_skipna 0%Q xs).

Definition sum_axis1 (df : DataFrame) (cols : list string) : result (list cell) :=
  traverse (λ r, do q <- row_sum cols r;; Ok (Num q)) (rows df).

(** [series.sum()], missing values skipped *)
Definition series_sum (s : list cell) : result Q :=
  do xs <- traverse (to_float "+") s;;
  Ok (foldl add_skipna 0%Q xs).

(** [series.median()]: the middle of the sorted values that are not missing,
    the mean of the two middle ones when their number is even, NaN when
    there is none. *)
Fixpoint insert_Q (x : Q) (l : list Q) : list Q :=
  match l with
  | [] => [x]
  | y :: l' => if Qle_bool x y then x :: y :: l' else y :: insert_Q x l'
  end.

Definition sort_Q (l : list Q) : list Q := foldr insert_Q [] l.

Definition median_Q (l : list Q) : option Q :=
  let v := sort_Q l in
  let n := length v in
  if Nat.eqb n 0 then None
  else if Nat.even n then
    Some ((nth (n / 2 - 1) v 0 + nth (n / 2) v 0) / 2)%Q
  else Some (nth (n / 2) v 0%Q).

Definition median (s : list cell) : result (option Q) :=
  do xs <- traverse (to_float "median") s;;
  Ok (median_Q (omap id xs)).

(** [df.loc[mask, c] = v] on an existing column [c] *)
Definition loc_setitem (df : DataFrame) (mask : list bool) (c : string) (v : cell)
  : result DataFrame :=
  if bool_decide (length mask = len df) then
    Ok {| columns := if has_column df c then columns df else columns df ++ [c];
          rows := zip_with (λ (r : gmap string cell) (b : bool),
                              if b then <[c:=v]> r else r) (rows df) mask |}
  else Raise (ValueError "Item wrong length").

(** [repr] of a list of strings, as an f-string prints it *)
Definition repr_list (l : list string) : string :=
  "[" +:+ String.concat ", " ((λ s, "'" +:+ s +:+ "'") <$> l) +:+ "]".

(** What [plot_survival] draws on its axes *)
Inductive eixos : Type :=
  | DadosInsuficientes (title text : string)
  | KaplanMeier (title : string) (fig : figura).

(** [plot_survival] is the same in the three scripts up to titles and
    positions: the guard on the two group sizes, then the curves and the
    log-rank test (outside any [try]). *)
Definition plot_survival_com (texto : string) (st : Stats) (df : DataFrame)
    (group_column gene_list_str time_col event_col fig_title : string)
  : result eixos :=
  do T <- getitem df time_col;;
  do E <- getitem df event_col;;
  do g <- getitem df group_column;;
  let high_exp := cell_is "Alta Expressão" <$> g in
  do g <- getitem df group_column;;
  let low_exp := cell_is "Baixa Expressão" <$> g in
  if Nat.ltb (mask_sum high_exp) 2 || Nat.ltb (mask_sum low_exp) 2 then
    Ok (DadosInsuficientes
          ("Sobrevida Agregada: " +:+ gene_list_str +:+ " - Dados Insuficientes") texto)
  else
    do p_value <- logrank_test st (compress high_exp T) (compress low_exp T)
                                  (compress high_exp E) (compress low_exp E);;
    Ok (KaplanMeier fig_title
          {| p_valor := p_value;
             curvas := [(Str "Alta Expressão", mask_sum high_exp);
                        (Str "Baixa Expressão", mask_sum low_exp)] |}).

(** * survival_manut_IL5.py: strict split *)

Module SurvivalManutIL5.

Definition aviso_excluidas (group_title : string) (excluded_count : nat) : string :=
  String "010"%char ("Aviso de Grupo: No grupo '" +:+ group_title +:+ "', "
    +:+ pretty excluded_count
    +:+ " amostra(s) com expressão exatamente igual à mediana foram EXCLUÍDAS da análise.").

Definition create_survival_groups (df : DataFrame) (gene_list : list string)
    (group_title : string) : result (option DataFrame * list string) :=
  let expression_cols := List.filter (has_column df) gene_list in
  match expression_cols with
  | [] =>
      Ok (None, ["Erro: Nenhum dos genes " +:+ repr_list gene_list
                   +:+ " foi encontrado no DataFrame."])
  | _ :: _ =>
      do s <- sum_axis1 df expression_cols;;
      do df <- setitem df "sum_expression" s;;
      do s <- getitem df "sum_expression";;
      do median_expression <- median s;;
      let df := setitem_scalar df group_title (Str "Excluído") in
      do s <- getitem df "sum_expression";;
      do alta <- series_gt s median_expression;;
      do df <- loc_setitem df alta group_title (Str "Alta Expressão");;
      do s <- getitem df "sum_expression";;
      do baixa <- series_lt s median_expression;;
      do df <- loc_setitem df baixa group_title (Str "Baixa Expressão");;
      do g <- getitem df group_title;;
      let df_filtered := select_rows df ((λ c, negb (cell_is "Excluído" c)) <$> g) in
      let excluded_count := len df - len df_filtered in
      let out := if Nat.ltb 0 excluded_count
                 then [aviso_excluidas group_title excluded_count] else [] in
      do df_filtered <- drop_column df_filtered "sum_expression";;
      Ok (Some df_filtered, out)
  end.

Definition plot_survival : Stats → DataFrame → string → string → string → string
    → string → result eixos :=
  plot_survival_com "Dados insuficientes (n < 2 em um ou ambos os grupos).".

End SurvivalManutIL5.

(** The labelling of the inclusive scripts:
    [series.apply(lambda x: 'Alta Expressão' if x >= median else 'Baixa Expressão')] *)
Definition apply_corte (s : list cell) (median_expression : option Q)
  : result (list cell) :=
  traverse (λ c, do x <- to_float ">=" c;;
                 Ok (Str (if float_ge x median_expression
                          then "Alta Expressão" else "Baixa Expressão"))) s.

(** * survival_presence_CLC.py: inclusive split, the sum column is kept *)

Module SurvivalPresenceCLC.

Definition create_survival_groups (df : DataFrame) (gene_list : list string)
    (group_title : string) : result (option DataFrame * list string) :=
  let expression_cols := List.filter (has_column df) gene_list in
  match expression_cols with
  | [] =>
      Ok (None, ["Erro: Nenhum dos genes " +:+ repr_list gene_list
                   +:+ " foi encontrado no DataFrame."])
  | _ :: _ =>
      do s <- sum_axis1 df expression_cols;;
      do df <- setitem df "sum_expression" s;;
      do s <- getitem df "sum_expression";;
      do median_expression <- median s;;
      do s <- getitem df "sum_expression";;
      do g <- apply_corte s median_expression;;
      do df <- setitem df group_title g;;
      Ok (Some df, [])
  end.

Definition plot_survival : Stats → DataFrame → string → string → string → string
    → string → result eixos :=
  plot_survival_com "Dados insuficientes para um ou ambos os grupos.".

End SurvivalPresenceCLC.

(** * survival_recruit_CCL24.py: inclusive split, the sum column is dropped *)

Module SurvivalRecruitCCL24.

Definition create_survival_groups (df : DataFrame) (gene_list : list string)
    (group_title : string) : result (option DataFrame * list string) :=
  let expression_cols := List.filter (has_column df) gene_list in
  match expression_cols with
  | [] =>
      Ok (None, ["Erro: Nenhum dos genes " +:+ repr_list gene_list
                   +:+ " foi encontrado no DataFrame."])
  | _ :: _ =>
      do s <- sum_axis1 df expression_cols;;
      do df <- setitem df "sum_expression" s;;
      do s <- getitem df "sum_expression";;
      do median_expression <- median s;;
      do s <- getitem df "sum_expression";;
      do g <- apply_corte s median_expression;;
      do df <- setitem df group_title g;;
      do df <- drop_column df "sum_expression";;
      Ok (Some df, [])
  end.

End SurvivalRecruitCCL24.

(** * s2_mamanalysis_geneseos.py *)

Module S2GenesEos.

Definition genes_of_interest : list string := ["PRG2"; "EPX"; "CLC"; "IL5RA"].
Definition col_pam50 : string := "PAM50Call_RNAseq".
Definition col_tempo : string := "OS_Time_nature2012".
Definition col_evento : string := "OS_event_nature2012".

Definition genes_presentes (df_merged : DataFrame) : list string :=
  List.filter (has_column df_merged) genes_of_interest.

(** The loop that fills [binary_cols]: one boolean column per present gene *)
Fixpoint binary_cols (genes : list string) (df_merged : DataFrame)
  : result (DataFrame * list string) :=
  match genes with
  | [] => Ok (df_merged, [])
  | gene :: genes' =>
      do df <- assign_expresso df_merged gene;;
      do r <- binary_cols genes' df;;
      Ok (r.1, (gene +:+ "_expresso") :: r.2)
  end.

(** [sorted] on strings *)
Fixpoint insert_str (x : string) (l : list string) : list string :=
  match l with
  | [] => [x]
  | y :: l' => if String.leb x y then x :: y :: l' else y :: insert_str x l'
  end.

Definition sorted (l : list string) : list string := foldr insert_str [] l.

Definition get_expression_group (genes : list string) (row : gmap string cell)
  : nat * string :=
  let expressed_genes :=
    List.filter (λ gene, truthy (row !!! (gene +:+ "_expresso"))) genes in
  let count := length expressed_genes in
  (count, if Nat.eqb count 0 then "Nenhum" else String.concat "_" (sorted expressed_genes)).

(** [df[cols]]: the columns [cols] only *)
Definition select_columns (df : DataFrame) (cols : list string) : result DataFrame :=
  match List.find (λ c, negb (has_column df c)) cols with
  | Some c => Raise (KeyError c)
  | None =>
      Ok {| columns := cols;
            rows := (λ r : gmap string cell,
                       filter (λ kv : string * cell, kv.1 ∈ cols) r) <$> rows df |}
  end.

Inductive intervalo : Type :=
  | IC (lower upper : Q)
  | Texto (s : string).

(** One entry of [results_continua]; [None] is [pd.NA]. *)
Record linha : Type := mkLinha {
  grupo_expressao : string;
  gene_analisado : string;
  valor : option Q;
  hazard_ratio : option Q;
  hr_ic95 : intervalo
}.

(** The body of the inner loop, for one group and one of its genes: the
    entry it appends, if any. *)
Definition linha_cox (st : Stats) (group_name : string) (group_df : DataFrame)
    (gene : string) : result (option linha) :=
  if has_column group_df col_tempo && has_column group_df col_evento then
    do df_cox <- select_columns group_df [col_tempo; col_evento; gene];;
    do df_cox <- dropna df_cox (columns df_cox);;
    do suficiente <-
      (if Nat.ltb 10 (len df_cox)
       then do ev <- getitem df_cox col_evento;;
            do s <- series_sum ev;;
            Ok (Qlt_bool 1 s)
       else Ok false);;
    let '(p_val_cox, hr, ci) :=
      if suficiente : bool then
        match cox_ph_fit st df_cox col_tempo col_evento gene with
        | Ok (p, hr, lo, hi) => (Some p, Some hr, IC lo hi)
        | Raise e => (None, None, Texto (exn_str e))
        end
      else (None, None, Texto "Dados insuficientes") in
    Ok (Some {| grupo_expressao := group_name; gene_analisado := gene;
                valor := p_val_cox; hazard_ratio := hr; hr_ic95 := ci |})
  else Ok None.

(** [group_name.split('_')] *)
Fixpoint split_on (sep : ascii) (acc s : string) : list string :=
  match s with
  | EmptyString => [acc]
  | String a s' =>
      if Ascii.eqb a sep then acc :: split_on sep "" s'
      else split_on sep (acc +:+ String a "") s'
  end.

Definition split (s : string) : list string := split_on "_"%char "" s.

(** The two loops that fill [results_continua]: the groups of the samples
    that express a gene, in the sorted order of [groupby], and the genes
    named by each group. *)
Definition grupo_cox (st : Stats) (df_pos : DataFrame) (g : list cell) (key : cell)
  : result (list (option linha)) :=
  match key with
  | Str group_name =>
      let group_df := select_rows df_pos (cell_eqb key <$> g) in
      traverse (linha_cox st group_name group_df) (split group_name)
  | _ => Raise (TypeError "split")
  end.

Definition results_continua (st : Stats) (df_merged : DataFrame) : result (list linha) :=
  do cnt <- getitem df_merged "contagem_genes_expressos";;
  do mask <- series_gt cnt (Some 0%Q);;
  let df_pos := select_rows df_merged mask in
  do g <- getitem df_pos "grupo_expressao";;
  do keys <- np_sort (unique (List.filter (λ c, negb (isna c)) g));;
  do ls <- traverse (grupo_cox st df_pos g) keys;;
  Ok (omap id (concat ls)).

End S2GenesEos.

(** * sample_type_plotandexcel.py: the Wilson error bar

    The function is embedded once, over the arithmetic it runs on.  Python
    runs it on binary64 floats ([float_arith]); the exact real numbers
    ([real_arith]) are the arithmetic of the formula it implements. *)

Class Arith (F : Type) : Type := mkArith {
  of_int : Z → F;
  fadd : F → F → F;
  fsub : F → F → F;
  fmul : F → F → F;
  fdiv : F → F → F;
  fsqrt : F → F
}.

Module SampleType.

Section Wilson.
Context {F : Type} {ar : Arith F}.

(** [norm_ppf] is [scipy.stats.norm.ppf], the quantile function of the
    standard normal distribution, which is not part of the repository. *)
Variable norm_ppf : F → F.

Definition calcular_intervalo_confianca_wilson (k n : Z) (nivel_confianca : F) : F :=
  if Z.eqb n 0 then of_int 0
  else
    let alfa := fsub (of_int 1) nivel_confianca in
    let z := norm_ppf (fsub (of_int 1) (fdiv alfa (of_int 2))) in
    let p := fdiv (of_int k) (of_int n) in
    let termo1 := fadd p (fdiv (fmul z z) (of_int (2 * n))) in
    let termo2 :=
      fmul z (fsqrt (fadd (fdiv (fmul p (fsub (of_int 1) p)) (of_int n))
                       (fdiv (fmul z z) (of_int (4 * n * n))))) in
    let denominador := fadd (of_int 1) (fdiv (fmul z z) (of_int n)) in
    let lower_bound := fdiv (fsub termo1 termo2) denominador in
    let margin_of_error_proportion := fsub p lower_bound in
    margin_of_error_proportion.

End Wilson.

End SampleType.

(** Python's float arithmetic: IEEE 754 binary64, every operation rounded to
    nearest.  An integer operand is converted first (exactly, below 2^53). *)
Definition float_of_int (z : Z) : float :=
  if Z.ltb z 0 then PrimFloat.opp (PrimFloat.of_uint63 (Uint63.of_Z (- z)))
  else PrimFloat.of_uint63 (Uint63.of_Z z).

#[global] Instance float_arith : Arith float := {|
  of_int := float_of_int;
  fadd := PrimFloat.add;
  fsub := PrimFloat.sub;
  fmul := PrimFloat.mul;
  fdiv := PrimFloat.div;
  fsqrt := PrimFloat.sqrt
|}.

(** The exact real numbers *)
#[global] Instance real_arith : Arith R := {|
  of_int := IZR;
  fadd := Rplus;
  fsub := Rminus;
  fmul := Rmult;
  fdiv := Rdiv;
  fsqrt := R_sqrt.sqrt
|}.

(** * s3_mamanalysis_survivalrecruit.py *)

Module S3SurvivalRecruit.

Definition GENES_INTERESSE : list string := ["CCL11"; "CCL24"; "CCL26"].

Fixpoint colunas_expresso (genes : list string) (df : DataFrame)
  : result (DataFrame + string) :=
  match genes with
  | [] => Ok (inl df)
  | gene :: genes' =>
      if has_column df gene then
        do df' <- assign_expresso df gene;;
        colunas_expresso genes' df'
      else Ok (inr gene)
  end.

Definition grupo_np_where (df : DataFrame) (coluna origem sim nao : string)
  : result DataFrame :=
  do s <- getitem df origem;;
  setitem df coluna (np_where s (Str sim) (Str nao)).

Definition definir_grupos_comparacao (df : DataFrame)
  : result (option DataFrame * list string) :=
  let out := ["Definindo grupos de comparação..."] in
  do r <- colunas_expresso GENES_INTERESSE df;;
  match r with
  | inr gene =>
      Ok (None, out ++ ["Atenção: Gene " +:+ gene +:+ " não encontrado para criar grupos."])
  | inl df =>
      do ccl11 <- getitem df "CCL11_expresso";;
      do ccl24 <- getitem df "CCL24_expresso";;
      do g <- series_and ccl11 ccl24;;
      do ccl26 <- getitem df "CCL26_expresso";;
      do g_3_all <- series_and g ccl26;;
      do df <- setitem df "grupo_3_vs_outros"
                 (np_where g_3_all (Str "CCL11_CCL24_CCL26_Expresso") (Str "Demais"));;
      do df <- grupo_np_where df "grupo_CCL11_vs_Nao" "CCL11_expresso"
                 "Expressa CCL11" "Não Expressa CCL11";;
      do df <- grupo_np_where df "grupo_CCL24_vs_Nao" "CCL24_expresso"
                 "Expressa CCL24" "Não Expressa CCL24";;
      do df <- grupo_np_where df "grupo_CCL26_vs_Nao" "CCL26_expresso"
                 "Expressa CCL26" "Não Expressa CCL26";;
      Ok (Some df, out)
  end.

End S3SurvivalRecruit.

(** * sample_type_plotandexcel.py: the barcodes and the summary table *)

(** [s[:n]]: the first [n] characters of a string.  A string is the UTF-8
    encoding of its characters: a byte of the form 10xxxxxx continues the
    character before it. *)
Definition continuacao (a : ascii) : bool :=
  match a with
  | Ascii _ _ _ _ _ _ false true => true
  | _ => false
  end.

Fixpoint prefixo_de (n : nat) (dentro : bool) (s : string) : string :=
  match s with
  | EmptyString => EmptyString
  | String a s' =>
      if continuacao a then
        if dentro then String a (prefixo_de n true s') else EmptyString
      else
        match n with
        | O => EmptyString
        | S n' => String a (prefixo_de n' true s')
        end
  end.

Definition prefixo (n : nat) (s : string) : string := prefixo_de n false s.

(** Insertion sort by an order given as a boolean function.  It is stable:
    of two entries that the order does not separate, the first stays
    first. *)
Fixpoint inserir {A : Type} (leb : A → A → bool) (x : A) (l : list A) : list A :=
  match l with
  | [] => [x]
  | y :: l' => if leb x y then x :: y :: l' else y :: inserir leb x l'
  end.

Definition ordenar {A : Type} (leb : A → A → bool) (l : list A) : list A :=
  foldr (inserir leb) [] l.

(** The order of the keys of a [groupby] on two string columns: by the
    first, then by the second. *)
Definition par_leb (a b : string * string) : bool :=
  if String.eqb a.1 b.1 then String.leb a.2 b.2 else String.leb a.1 b.1.

Module SampleTypeSummary.

Definition SAMPLE_TYPE_CODES : gmap string string :=
  list_to_map
  [ ("01", "Primary Solid Tumor (Tumor Sólido Primário - Geralmente Ressecção Cirúrgica)");
    ("02", "Recurrent Solid Tumor (Tumor Recorrente)");
    ("03", "Primary Blood Derived Cancer (Câncer Sanguíneo Primário)");
    ("04", "Recurrent Blood Derived Cancer - Bone Marrow (Câncer Recorrente Medular)");
    ("05", "Additional - New Primary (Adicional - Novo Primário)");
    ("06", "Metastatic (Metástase - Frequentemente Biópsia)");
    ("07", "Additional Metastatic (Metástase Adicional)");
    ("08", "Human Tumor Original Cells (Células Originais de Tumor Humano)");
    ("09", "Primary Blood Derived Cancer - Bone Marrow (Câncer Primário Medular)");
    ("10", "Blood Derived Normal (Normal Derivado de Sangue)");
    ("11", "Solid Tissue Normal (Tecido Sólido Normal - Adjacente à Ressecção)");
    ("12", "Buccal Cell Normal (Célula Bucal Normal)");
    ("13", "EBV Immortalized Normal (Normal Imortalizado por EBV)");
    ("14", "Bone Marrow Normal (Medula Óssea Normal)");
    ("20", "Control Analyte (Analito de Controle)");
    ("40", "Recurrent Blood Derived Cancer - Peripheral Blood (Câncer Recorrente Sanguíneo)");
    ("50", "Cell Lines (Linhagens Celulares)");
    ("60", "Primary Xenograft Tissue (Tecido Xenográfico Primário)");
    ("61", "Cell Line Derived Xenograft Tissue (Tecido Xenográfico Derivado de Linhagem)") ].

(** A cell that is not a string has no [split]: the AttributeError is caught
    by the [except]. *)
Definition extract_sample_type_code (tcga_barcode : cell) : string :=
  match tcga_barcode with
  | Str s =>
      let parts := S2GenesEos.split_on "-"%char "" s in
      if Nat.leb 4 (length parts) then prefixo 2 (nth 3 parts "") else "UNKNOWN"
  | _ => "UNKNOWN"
  end.

(** [df['Sample_Code'] = df[barcode_column].apply(extract_sample_type_code)] *)
Definition Sample_Code (barcodes : list cell) : list string :=
  extract_sample_type_code <$> barcodes.

(** [df['Sample_Type_Desc'] =
     df['Sample_Code'].map(SAMPLE_TYPE_CODES).fillna('Outros/Desconhecido')] *)
Definition Sample_Type_Desc (Sample_Code : list string) : list string :=
  (λ code, default "Outros/Desconhecido" (SAMPLE_TYPE_CODES !! code)) <$> Sample_Code.

Section Resumo.
Context {F : Type} {ar : Arith F}.

(** [scipy.stats.norm.ppf] and the rounding of [Series.round(2)] (numpy) are
    not part of the repository. *)
Variable norm_ppf : F → F.
Variable round_2 : F → F.

(** A row of the summary table *)
Record linha_resumo : Type := mkLinhaResumo {
  codigo_do_tipo : string;
  descricao_da_amostra : string;
  contagem_absoluta : nat;
  porcentagem : F
}.

(** The summary of [finalizar_processamento_e_gerar_arquivos]:
    [groupby(['Sample_Code', 'Sample_Type_Desc']).size()] gives one row for
    each pair that occurs, in the order of the keys, with the number of
    samples that have it; then the percentage column, and [sort_values] by
    the code. *)
Definition summary_df (Sample_Code Sample_Type_Desc : list string) : list linha_resumo :=
  let total_samples := length Sample_Code in
  let pares := zip Sample_Code Sample_Type_Desc in
  let linhas :=
    (λ chave : string * string,
       let contagem := length (List.filter (λ p, bool_decide (p = chave)) pares) in
       mkLinhaResumo chave.1 chave.2 contagem
         (round_2 (fmul (fdiv (of_int (Z.of_nat contagem))
                              (of_int (Z.of_nat total_samples)))
                        (of_int 100))))
    <$> ordenar par_leb (remove_dups pares) in
  ordenar (λ a b, String.leb (codigo_do_tipo a) (codigo_do_tipo b)) linhas.

(** The default [nivel_confianca=0.95] of the Wilson function *)
Definition nivel_confianca_padrao : F := fdiv (of_int 95) (of_int 100).

(** The loop of step 2 of [gerar_grafico_barras_estatistico]: the error bar
    of each bar, on the scale of the counts. *)
Definition error_bars_count (summary_df : list linha_resumo) (total_samples : nat)
  : list F :=
  let counts := contagem_absoluta <$> summary_df in
  (λ count,
     let me_proportion :=
       SampleType.calcular_intervalo_confianca_wilson norm_ppf
         (Z.of_nat count) (Z.of_nat total_samples) nivel_confianca_padrao in
     fmul me_proportion (of_int (Z.of_nat total_samples))) <$> counts.

End Resumo.

End SampleTypeSummary.

(** * Vocabulary of the properties *)

(** The value of a computation that did not raise, and [d] otherwise *)
Definition from_ok {A : Type} (d : A) (r : result A) : A :=
  match r with
  | Ok a => a
  | Raise _ => d
  end.

(** The columns of a table after an assignment to the column [c] *)
Definition add_column (cols : list string) (c : string) : list string :=
  if bool_decide (c ∈ cols) then cols else cols ++ [c].

(** The cell [gene_expresso] that [df[gene] > 0] gives for a cell of
    expression; a cell that cannot be compared is handled by the callers. *)
Definition expresso (c : cell) : bool :=
  from_ok false (do x <- to_float ">" c;; Ok (float_gt x (Some 0%Q))).

(** What [S3Survival.definir_grupos_comparacao] writes in the row of a
    sample, from the expression values of that row. *)
Definition grupos_da_amostra (r : gmap string cell) : gmap string cell :=
  let e := λ gene : string, expresso (r !!! gene) in
  <["grupo_EPX_vs_Nao" := if e "EPX" then Str "Expressa EPX" else Str "Não Expressa EPX"]>
  (<["grupo_IL5RA_vs_Nao" :=
       if e "IL5RA" then Str "Expressa IL5RA" else Str "Não Expressa IL5RA"]>
  (<["grupo_CLC_vs_Nao" := if e "CLC" then Str "Expressa CLC" else Str "Não Expressa CLC"]>
  (<["grupo_PRG2_vs_Nao" :=
       if e "PRG2" then Str "Expressa PRG2" else Str "Não Expressa PRG2"]>
  (<["grupo_4_vs_outros" :=
       if e "PRG2" && e "EPX" && e "CLC" && e "IL5RA"
       then Str "CLC_EPX_IL5RA_PRG2" else Str "Demais"]>
  (<["IL5RA_expresso" := Bool (e "IL5RA")]>
  (<["CLC_expresso" := Bool (e "CLC")]>
  (<["EPX_expresso" := Bool (e "EPX")]>
  (<["PRG2_expresso" := Bool (e "PRG2")]> r)))))))).

(** The expression value of a cell is greater than zero.  A missing value is
    not (every comparison with NaN is false). *)
Definition positive (c : cell) : Prop :=
  match c with
  | Num q => (0 < q)%Q
  | Bool b => b = true
  | NaN | Str _ => False
  end.

(** The derived column [gene_expresso] of the sample [r'] holds the boolean
    [value > 0] of the expression value the sample [r] has for [gene]. *)
Definition expressed_state (r r' : gmap string cell) (gene : string) : Prop :=
  ∃ b : bool, r' !! (gene +:+ "_expresso") = Some (Bool b)
              ∧ (b = true ↔ positive (r !!! gene)).

(** One turn of the loop of [binary_cols] on the row of a sample *)
Definition expresso_step (acc : gmap string cell) (g : string) : gmap string cell :=
  <[g +:+ "_expresso" := Bool (expresso (acc !!! g))]> acc.

(** The sample [r'] is in the cohort [label] of the group column [col]. *)
Definition in_cohort (col label : string) (r' : gmap string cell) : bool :=
  cell_is label (r' !!! col).

(** The single-gene comparisons of s3_mamanalysis_survival.py: gene, group
    column, label of the expressed cohort, label of the other cohort. *)
Definition presenca : list (string * string * string * string) :=
  [ ("PRG2", "grupo_PRG2_vs_Nao", "Expressa PRG2", "Não Expressa PRG2");
    ("CLC", "grupo_CLC_vs_Nao", "Expressa CLC", "Não Expressa CLC");
    ("IL5RA", "grupo_IL5RA_vs_Nao", "Expressa IL5RA", "Não Expressa IL5RA");
    ("EPX", "grupo_EPX_vs_Nao", "Expressa EPX", "Não Expressa EPX") ].

(** The essential columns of s3_mamanalysis_survival.py that the table
    lacks *)
Definition colunas_ausentes (df : DataFrame) : list string :=
  List.filter (λ col, negb (has_column df col))
    (S3Survival.GENES_INTERESSE
       ++ [S3Survival.COL_TEMPO; S3Survival.COL_EVENTO; S3Survival.COL_PAM50]).

(** The computation returned a value, and not None *)
Definition returned {A B : Type} (r : result (option A * B)) : bool :=
  match r with
  | Ok (Some _, _) => true
  | _ => false
  end.

(** The computation did not raise *)
Definition is_ok {A : Type} (r : result A) : bool :=
  match r with
  | Ok _ => true
  | Raise _ => false
  end.

(** The samples [plotar_sobrevida] keeps: no missing time, event or group,
    and a group other than 'Ignorar'. *)
Definition amostras_validas (df : DataFrame) (coluna_grupo : string)
  : list (gmap string cell) :=
  List.filter (λ r : gmap string cell, negb (cell_is "Ignorar" (r !!! coluna_grupo)))
    (List.filter (λ r : gmap string cell,
        forallb (λ c, negb (isna (r !!! c)))
          [S3Survival.COL_TEMPO; S3Survival.COL_EVENTO; coluna_grupo]) (rows df)).

(** The samples [plotar_pam50] tabulates: subtype and group present, group
    other than 'Ignorar', subtype other than 'Normal'. *)
Definition amostras_pam50 (col_pam50 coluna_grupo : string) (df : DataFrame)
  : list (gmap string cell) :=
  List.filter (λ r : gmap string cell, negb (cell_is "Normal" (r !!! col_pam50)))
    (List.filter (λ r : gmap string cell, negb (cell_is "Ignorar" (r !!! coluna_grupo)))
       (List.filter (λ r : gmap string cell,
           forallb (λ c, negb (isna (r !!! c))) [col_pam50; coluna_grupo]) (rows df))).

(** The p-value [plotar_pam50] starts from and keeps when the test fails *)
Definition sentinela : Q := 99 # 100.

(** The samples of a group with a value for time, event and gene *)
Definition validas_cox (group_df : DataFrame) (gene : string)
  : list (gmap string cell) :=
  List.filter (λ r : gmap string cell,
      forallb (λ c, negb (isna (r !!! c))) [S2GenesEos.col_tempo; S2GenesEos.col_evento; gene])
    (rows group_df).

(** The number of events (event = 1) among event cells *)
Definition eventos (ev : list cell) : nat :=
  length (List.filter (λ c, cell_eqb c (Num 1)) ev).

(** An event cell is the number 0 or the number 1 *)
Definition binario (c : cell) : Prop :=
  ∃ q : Q, c = Num q ∧ (q == 0 ∨ q == 1)%Q.

(** The table handed to the Cox fit *)
Definition tabela_cox (group_df : DataFrame) (gene : string) : DataFrame :=
  {| columns := [S2GenesEos.col_tempo; S2GenesEos.col_evento; gene];
     rows := (λ r : gmap string cell,
                filter (λ kv : string * cell,
                          kv.1 ∈ [S2GenesEos.col_tempo; S2GenesEos.col_evento; gene]) r)
             <$> validas_cox group_df gene |}.

(** The aggregate of a sample: the sum of its values over the columns *)
Definition agregado (cols : list string) (r : gmap string cell) : Q :=
  from_ok 0%Q (row_sum cols r).

(** The label of the strict split for an aggregate [s] and a median [m] *)
Definition rotulo_estrito (s : Q) (m : option Q) : string :=
  if float_lt (Some s) m then "Baixa Expressão"
  else if float_gt (Some s) m then "Alta Expressão"
  else "Excluído".

(** A returned sample: the cells of the input sample and its group label *)
Definition rotulada (group_title label : string) (s : Q) (r : gmap string cell)
  : gmap string cell :=
  delete "sum_expression" (<[group_title := Str label]> (<["sum_expression" := Num s]> r)).

(** The label of the inclusive split *)
Definition rotulo_inclusivo (s : Q) (m : option Q) : string :=
  if float_ge (Some s) m then "Alta Expressão" else "Baixa Expressão".

(** A returned sample of survival_presence_CLC.py, which keeps the sum *)
Definition rotulada_com_soma (group_title label : string) (s : Q) (r : gmap string cell)
  : gmap string cell :=
  <[group_title := Str label]> (<["sum_expression" := Num s]> r).

(** The lower bound of the Wilson score interval for a proportion [p] out of
    [n] trials at the normal quantile [z], as the statistics textbooks give
    it. *)
Definition wilson_lower_bound (z p n : R) : R :=
  ((p + z * z / (2 * n) - z * R_sqrt.sqrt (p * (1 - p) / n + z * z / (4 * n * n)))
   / (1 + z * z / n))%R.

(** The genes of a list that a sample expresses: value greater than zero *)
Definition genes_expressos (genes : list string) (r : gmap string cell) : list string :=
  List.filter (λ gene, expresso (r !!! gene)) genes.

(** The character [c] does not occur in the string *)
Fixpoint sem_char (c : ascii) (s : string) : bool :=
  match s with
  | EmptyString => true
  | String a s' => negb (Ascii.eqb a c) && sem_char c s'
  end.

(** The cell is not a string: a number, a boolean or a missing value *)
Definition numerica (c : cell) : Prop :=
  match c with
  | Str _ => False
  | _ => True
  end.

(** Every sample has a number (or no value) for every gene of the list *)
Definition genes_numericos (genes : list string) (df : DataFrame) : Prop :=
  Forall (λ r : gmap string cell, Forall (λ gene, numerica (r !!! gene)) genes) (rows df).

(** The column [k] of the table holds booleans *)
Definition coluna_bool (df : DataFrame) (k : string) : Prop :=
  Forall (λ r : gmap string cell, ∃ b : bool, r !!! k = Bool b) (rows df).

(** The columns [definir_grupos_comparacao] of s3_mamanalysis_survival.py
    writes *)
Definition colunas_escritas : list string :=
  ["PRG2_expresso"; "EPX_expresso"; "CLC_expresso"; "IL5RA_expresso";
   "grupo_4_vs_outros"; "grupo_PRG2_vs_Nao"; "grupo_CLC_vs_Nao";
   "grupo_IL5RA_vs_Nao"; "grupo_EPX_vs_Nao"].

(** What [S3SurvivalRecruit.definir_grupos_comparacao] writes in the row of
    a sample, from the expression values of that row. *)
Definition grupos_ccl_da_amostra (r : gmap string cell) : gmap string cell :=
  let e := λ gene : string, expresso (r !!! gene) in
  <["grupo_CCL26_vs_Nao" :=
      if e "CCL26" then Str "Expressa CCL26" else Str "Não Expressa CCL26"]>
  (<["grupo_CCL24_vs_Nao" :=
       if e "CCL24" then Str "Expressa CCL24" else Str "Não Expressa CCL24"]>
  (<["grupo_CCL11_vs_Nao" :=
       if e "CCL11" then Str "Expressa CCL11" else Str "Não Expressa CCL11"]>
  (<["grupo_3_vs_outros" :=
       if e "CCL11" && e "CCL24" && e "CCL26"
       then Str "CCL11_CCL24_CCL26_Expresso" else Str "Demais"]>
  (<["CCL26_expresso" := Bool (e "CCL26")]>
  (<["CCL24_expresso" := Bool (e "CCL24")]>
  (<["CCL11_expresso" := Bool (e "CCL11")]> r)))))).

(** How many values of [l] are equal to [u] *)
Definition ocorrencias (u : cell) (l : list cell) : nat :=
  length (List.filter (cell_eqb u) l).

(** The sum of the sizes written in the legend of a figure *)
Definition total_curvas (cs : list (cell * nat)) : nat :=
  foldr (λ gn acc, (gn.2 + acc)%nat) 0%nat cs.

(** * Sample tables and stand-ins for the statistics libraries *)

(** The row of a sample, from its cells *)
Definition amostra (cells : list (string * cell)) : gmap string cell :=
  list_to_map cells.

(** Four samples with the eosinophil genes, survival and subtype.  Only the
    first sample expresses CLC; the third has no value for EPX. *)
Definition tabela_eos : DataFrame :=
  {| columns := ["PRG2"; "EPX"; "CLC"; "IL5RA";
                 "OS_Time_nature2012"; "OS_event_nature2012"; "PAM50Call_RNAseq"];
     rows :=
       [ amostra [("PRG2", Num (3 # 2)); ("EPX", Num 2); ("CLC", Num (1 # 2));
                  ("IL5RA", Num 3); ("OS_Time_nature2012", Num 100);
                  ("OS_event_nature2012", Num 1); ("PAM50Call_RNAseq", Str "LumA")];
         amostra [("PRG2", Num 0); ("EPX", Num 0); ("CLC", Num 0);
                  ("IL5RA", Num 0); ("OS_Time_nature2012", Num 200);
                  ("OS_event_nature2012", Num 0); ("PAM50Call_RNAseq", Str "LumB")];
         amostra [("PRG2", Num 1); ("EPX", NaN); ("CLC", Num 0);
                  ("IL5RA", Num 2); ("OS_Time_nature2012", Num 300);
                  ("OS_event_nature2012", Num 1); ("PAM50Call_RNAseq", Str "Basal")];
         amostra [("PRG2", Num 0); ("EPX", Num 1); ("CLC", Num 0);
                  ("IL5RA", Num 0); ("OS_Time_nature2012", Num 400);
                  ("OS_event_nature2012", Num 0); ("PAM50Call_RNAseq", Str "LumA")] ] |}.

(** The same table without the column EPX *)
Definition tabela_sem_EPX : DataFrame :=
  {| columns := ["PRG2"; "CLC"; "IL5RA";
                 "OS_Time_nature2012"; "OS_event_nature2012"; "PAM50Call_RNAseq"];
     rows := (λ r : gmap string cell, delete "EPX" r) <$> rows tabela_eos |}.

(** Two samples that express the four genes IL5, IL33, IL25 and TSLP *)
Definition tabela_manut : DataFrame :=
  {| columns := ["IL5"; "IL33"; "IL25"; "TSLP";
                 "OS_Time_nature2012"; "OS_event_nature2012"; "PAM50Call_RNAseq"];
     rows :=
       [ amostra [("IL5", Num 1); ("IL33", Num 2); ("IL25", Num 3); ("TSLP", Num 4);
                  ("OS_Time_nature2012", Num 100); ("OS_event_nature2012", Num 1);
                  ("PAM50Call_RNAseq", Str "LumA")];
         amostra [("IL5", Num 5); ("IL33", Num 6); ("IL25", Num 7); ("TSLP", Num 8);
                  ("OS_Time_nature2012", Num 200); ("OS_event_nature2012", Num 0);
                  ("PAM50Call_RNAseq", Str "LumB")] ] |}.

Definition soma (l : list nat) : nat := foldr Nat.add 0 l.

(** A contingency table with an all-zero row or column *)
Definition tabela_degenerada (t : list (list nat)) : bool :=
  existsb (λ row, Nat.eqb (soma row) 0) t
  || existsb (λ j, Nat.eqb (soma ((λ row, nth j row 0) <$> t)) 0)
             (seq 0 (length (hd [] t))).

(** Stand-ins for the external tests: a log-rank p-value of 1/2, a
    chi-square p-value of 1/4 unless the table has an all-zero row or column
    (then the ValueError of scipy), a Cox fit with hazard ratio 2. *)
Definition stats_de_teste : Stats :=
  {| logrank_test := λ _ _ _ _, Ok (1 # 2);
     multivariate_logrank_test := λ _ _ _, Ok (1 # 3);
     chi2_contingency := λ t,
       if tabela_degenerada t
       then Raise (ValueError "The internally computed table of expected frequencies has a zero element at (0, 0).")
       else Ok (1%Q, 1 # 4, 1, []);
     cox_ph_fit := λ _ _ _ _, Ok (1 # 20, 2%Q, 3 # 2, 5 # 2) |}.

(** The table of [tabela_eos] with the group columns of
    [definir_grupos_comparacao] *)
Definition tabela_eos_grupos : DataFrame :=
  match S3Survival.definir_grupos_comparacao tabela_eos with
  | Ok (Some df, _) => df
  | _ => tabela_eos
  end.

(** A chi-square test that fails on every table *)
Definition stats_chi2_falha : Stats :=
  {| logrank_test := logrank_test stats_de_teste;
     multivariate_logrank_test := multivariate_logrank_test stats_de_teste;
     chi2_contingency := λ _,
       Raise (ValueError "The internally computed table of expected frequencies has a zero element at (0, 0).");
     cox_ph_fit := cox_ph_fit stats_de_teste |}.

(** Twelve samples of one group, every third one an event *)
Definition grupo_clc : DataFrame :=
  {| columns := ["CLC"; "OS_Time_nature2012"; "OS_event_nature2012"];
     rows := (λ i : nat,
                amostra [("CLC", Num (inject_Z (Z.of_nat (S i))));
                         ("OS_Time_nature2012", Num (inject_Z (Z.of_nat (100 * S i))));
                         ("OS_event_nature2012",
                          Num (if Nat.eqb (i mod 3) 0 then 1 else 0))])
             <$> seq 0 12 |}.

(** The ten samples of the scenario of the specification: gene G with
    expression 0, 0, 0, 1, 1, 1, 2, 2, 3, 5 *)
Definition tabela_G : DataFrame :=
  {| columns := ["G"; "OS_Time_nature2012"; "OS_event_nature2012"];
     rows := (λ g : Q,
                amostra [("G", Num g); ("OS_Time_nature2012", Num 100);
                         ("OS_event_nature2012", Num 1)])
             <$> [0; 0; 0; 1; 1; 1; 2; 2; 3; 5]%Q |}.

(** [scipy.stats.norm.ppf] on binary64 floats, at the one argument the
    default level 0.95 leads to: [norm.ppf(0.975)] is 1.959963984540054. *)
Definition norm_ppf_scipy (q : float) : float :=
  if PrimFloat.eqb q 0x1.f333333333333p-1 then 0x1.f5c0331eeff84p+0 else nan.

(** The level 0.95 as a binary64 float *)
Definition nivel_95 : float := 0x1.e666666666666p-1.

(** A Cox fit that never converges *)
Definition stats_cox_falha : Stats :=
  {| logrank_test := logrank_test stats_de_teste;
     multivariate_logrank_test := multivariate_logrank_test stats_de_teste;
     chi2_contingency := chi2_contingency stats_de_teste;
     cox_ph_fit := λ _ _ _ _, Raise (ValueError "Convergence halted due to matrix inversion problems.") |}.

(** Two samples with their groups of expression and no survival column *)
Definition tabela_sem_tempo : DataFrame :=
  {| columns := ["CLC"; "contagem_genes_expressos"; "grupo_expressao"];
     rows :=
       [ amostra [("CLC", Num 1); ("contagem_genes_expressos", Num 1);
                  ("grupo_expressao", Str "CLC")];
         amostra [("CLC", Num 0); ("contagem_genes_expressos", Num 0);
                  ("grupo_expressao", Str "Nenhum")] ] |}.

(** Log-rank tests that fail on every input *)
Definition stats_logrank_falha : Stats :=
  {| logrank_test := λ _ _ _ _, Raise (ValueError "Values must be numeric: no strings, datetimes, objects, etc.");
     multivariate_logrank_test := λ _ _ _,
       Raise (ValueError "Values must be numeric: no strings, datetimes, objects, etc.");
     chi2_contingency := chi2_contingency stats_de_teste;
     cox_ph_fit := cox_ph_fit stats_de_teste |}.

(** A chi-square test that raises a TypeError on every table *)
Definition stats_chi2_tipo : Stats :=
  {| logrank_test := logrank_test stats_de_teste;
     multivariate_logrank_test := multivariate_logrank_test stats_de_teste;
     chi2_contingency := λ _, Raise (TypeError "chi2_contingency");
     cox_ph_fit := cox_ph_fit stats_de_teste |}.

(** Four samples in two groups, three of the subtype LumA and one Normal *)
Definition tabela_um_subtipo : DataFrame :=
  {| columns := ["grupo"; "PAM50Call_RNAseq"];
     rows :=
       [ amostra [("grupo", Str "A"); ("PAM50Call_RNAseq", Str "LumA")];
         amostra [("grupo", Str "B"); ("PAM50Call_RNAseq", Str "LumA")];
         amostra [("grupo", Str "B"); ("PAM50Call_RNAseq", Str "Normal")];
         amostra [("grupo", Str "A"); ("PAM50Call_RNAseq", Str "LumA")] ] |}.

(** Three samples with the CCL genes: all three expressed, one not expressed,
    a missing value *)
Definition tabela_ccl : DataFrame :=
  {| columns := ["CCL11"; "CCL24"; "CCL26"; "OS_Time_nature2012"; "OS_event_nature2012"];
     rows :=
       [ {[ "CCL11" := Num 2; "CCL24" := Num (1 # 2); "CCL26" := Num 7;
            "OS_Time_nature2012" := Num 100; "OS_event_nature2012" := Num 1 ]};
         {[ "CCL11" := Num 2; "CCL24" := Num 0; "CCL26" := Num 7;
            "OS_Time_nature2012" := Num 200; "OS_event_nature2012" := Num 0 ]};
         {[ "CCL11" := NaN; "CCL24" := Num 3; "CCL26" := Num 1;
            "OS_Time_nature2012" := Num 300; "OS_event_nature2012" := Num 1 ]} ] |}.

(** Six samples, four of them with no expression of gene G *)
Definition tabela_maioria_zero : DataFrame :=
  {| columns := ["G"; "OS_Time_nature2012"; "OS_event_nature2012"];
     rows := (λ g : Q,
                amostra [("G", Num g); ("OS_Time_nature2012", Num 100);
                         ("OS_event_nature2012", Num 1)])
             <$> [0; 0; 1; 0; 2; 0]%Q |}.

(** * Facts about the embedding *)

(** ** The error monad *)

Lemma bind_Ok {A B : Type} (m : result A) (f : A → result B) (b : B) :
  bind m f = Ok b → ∃ a, m = Ok a ∧ f a = Ok b.
Proof. destruct m as [a|e]; simpl; [eauto | discriminate]. Qed.

Lemma traverse_Ok {A B : Type} (f : A → result B) (d : B) (l : list A) (l' : list B) :
  traverse f l = Ok l' → l' = (λ x, from_ok d (f x)) <$> l.
Proof.
  revert l'. induction l as [|x l IH]; intros l' H; simpl in H.
  - by inversion H.
  - apply bind_Ok in H as (y & Hy & H).
    apply bind_Ok in H as (ys & Hys & H).
    inversion H; subst. simpl. rewrite Hy. simpl. f_equal. by apply IH.
Qed.

Lemma traverse_Ok_Forall {A B : Type} (f : A → result B) (l : list A) (l' : list B) :
  traverse f l = Ok l' → Forall (λ x, ∃ y, f x = Ok y) l.
Proof.
  revert l'. induction l as [|x l IH]; intros l' H; simpl in H.
  - constructor.
  - apply bind_Ok in H as (y & Hy & H).
    apply bind_Ok in H as (ys & Hys & H).
    constructor; eauto.
Qed.

(** Peels the first [do] of a successful computation. *)
Ltac ok_step H x Hx :=
  apply bind_Ok in H as (x & Hx & H).

(** ** Rational comparisons *)

Lemma Qlt_bool_iff (x y : Q) : Qlt_bool x y = true ↔ (x < y)%Q.
Proof.
  unfold Qlt_bool. rewrite negb_true_iff. split.
  - intros H. apply Qnot_le_lt. intros Hle. apply Qle_bool_iff in Hle. congruence.
  - intros H. destruct (Qle_bool y x) eqn:E; [|done].
    apply Qle_bool_iff in E. exfalso. by apply (Qlt_not_le x y).
Qed.

Lemma Qlt_bool_irrefl (x : Q) : Qlt_bool x x = false.
Proof.
  destruct (Qlt_bool x x) eqn:E; [|done].
  apply Qlt_bool_iff in E. exfalso. by apply (Qlt_irrefl x).
Qed.

(** ** Masks and filters *)

Lemma compress_fmap {A : Type} (p : A → bool) (l : list A) :
  compress (p <$> l) l = List.filter p l.
Proof. induction l as [|x l IH]; csimpl; [done|]. rewrite IH. by destruct (p x). Qed.

Lemma compress_fmap_fmap {A B : Type} (p : A → bool) (f : A → B) (l : list A) :
  compress (p <$> l) (f <$> l) = f <$> List.filter p l.
Proof. induction l as [|x l IH]; csimpl; [done|]. rewrite IH. by destruct (p x). Qed.

Lemma filter_fmap {A B : Type} (p : B → bool) (f : A → B) (l : list A) :
  List.filter p (f <$> l) = f <$> List.filter (λ x, p (f x)) l.
Proof. induction l as [|x l IH]; csimpl; [done|]. rewrite IH. by destruct (p (f x)). Qed.

Lemma filter_ext_bool {A : Type} (p q : A → bool) (l : list A) :
  (∀ x, p x = q x) → List.filter p l = List.filter q l.
Proof. intros H. induction l as [|x l IH]; csimpl; [done|]. by rewrite H, IH. Qed.

Lemma zip_with_fmap_diag {A B C : Type} (g : A → B → C) (f : A → B) (l : list A) :
  zip_with g l (f <$> l) = (λ x, g x (f x)) <$> l.
Proof. induction l as [|x l IH]; csimpl; [done|]. by rewrite IH. Qed.

(** ** Reading and writing columns *)

Lemma getitem_Ok (df : DataFrame) (c : string) (s : list cell) :
  getitem df c = Ok s →
  has_column df c = true ∧ s = (λ r : gmap string cell, r !!! c) <$> rows df.
Proof.
  unfold getitem. destruct (has_column df c); [|discriminate].
  intros H. by inversion H.
Qed.

Lemma setitem_Ok (df df' : DataFrame) (c : string) (f : gmap string cell → cell) :
  setitem df c (f <$> rows df) = Ok df' →
  columns df' = add_column (columns df) c
  ∧ rows df' = (λ r : gmap string cell, <[c := f r]> r) <$> rows df.
Proof.
  unfold setitem. case_bool_decide as Hlen; [|discriminate].
  intros H. inversion H; subst; simpl. split; [done|].
  apply zip_with_fmap_diag.
Qed.

Lemma loc_setitem_Ok (df df' : DataFrame) (c : string) (v : cell)
    (p : gmap string cell → bool) :
  loc_setitem df (p <$> rows df) c v = Ok df' →
  columns df' = add_column (columns df) c
  ∧ rows df' = (λ r : gmap string cell, if p r then <[c := v]> r else r) <$> rows df.
Proof.
  unfold loc_setitem. case_bool_decide as Hlen; [|discriminate].
  intros H. inversion H; subst; simpl. split; [done|].
  apply zip_with_fmap_diag.
Qed.

Lemma drop_column_Ok (df df' : DataFrame) (c : string) :
  drop_column df c = Ok df' →
  rows df' = (λ r : gmap string cell, delete c r) <$> rows df.
Proof.
  unfold drop_column. destruct (has_column df c); [|discriminate].
  intros H. by inversion H.
Qed.

(** ** The expressed state of a cell: [value > 0] *)

Lemma expresso_Num (q : Q) : expresso (Num q) = true ↔ (0 < q)%Q.
Proof. unfold expresso; simpl. apply Qlt_bool_iff. Qed.

Lemma expresso_zero : expresso (Num 0) = false.
Proof. reflexivity. Qed.

Lemma expresso_NaN : expresso NaN = false.
Proof. reflexivity. Qed.

Lemma assign_expresso_Ok (df df' : DataFrame) (gene : string) :
  assign_expresso df gene = Ok df' →
  has_column df gene = true
  ∧ columns df' = add_column (columns df) (gene +:+ "_expresso")
  ∧ rows df' = (λ r : gmap string cell,
                  <[gene +:+ "_expresso" := Bool (expresso (r !!! gene))]> r) <$> rows df.
Proof.
  unfold assign_expresso. intros H.
  ok_step H s Hs. ok_step H b Hb.
  apply getitem_Ok in Hs as [Hc ->].
  apply (traverse_Ok _ false) in Hb. subst b.
  rewrite <- !list_fmap_compose in H.
  apply setitem_Ok in H as [Hcols Hrows]. done.
Qed.

Lemma series_and_Ok {A : Type} (f g : A → cell) (l : list A) (s : list cell) :
  series_and (f <$> l) (g <$> l) = Ok s →
  s = (λ x, from_ok NaN (cell_and (f x) (g x))) <$> l.
Proof.
  revert s. induction l as [|x l IH]; intros s H; csimpl in H.
  - by inversion H.
  - ok_step H c Hc. ok_step H t Ht. inversion H; subst.
    csimpl. rewrite Hc. simpl. f_equal. by apply IH.
Qed.

(** Rewrites the lookups of a row built by successive column writes. *)
Ltac row_lookup_in E :=
  repeat first
    [ rewrite lookup_total_insert_eq in E
    | rewrite lookup_total_insert_ne in E by discriminate
    | rewrite lookup_insert_eq in E
    | rewrite lookup_insert_ne in E by discriminate ].

Ltac row_lookup :=
  repeat first
    [ rewrite lookup_total_insert_eq
    | rewrite lookup_total_insert_ne by discriminate
    | rewrite lookup_insert_eq
    | rewrite lookup_insert_ne by discriminate ].

(** Two successive column writes are one write of the composed row
    function. *)
Lemma rows_compose {A : Type} (l l1 l2 : list A) (h1 h2 h : A → A) :
  l2 = h2 <$> l1 → l1 = h1 <$> l → (∀ r, h2 (h1 r) = h r) → l2 = h <$> l.
Proof.
  intros -> -> H. rewrite <- list_fmap_compose.
  apply list_fmap_ext. intros i r _. apply H.
Qed.

(** [after R1 R2] restates the step [R2] from the frame [R1] starts from,
    reading each cell it uses in the original row. *)
Ltac after R1 R2 :=
  let R := fresh "R" in
  let HP := fresh "HP" in
  epose proof (rows_compose _ _ _ _ _ _ R2 R1) as R;
  lazymatch type of R with
  | ?P → _ =>
      assert P as HP;
      [ let r := fresh "r" in
        intros r;
        lazymatch goal with
        | |- ?L = _ =>
            let E := fresh "E" in
            let x := fresh "x" in
            pose proof (eq_refl L) as E;
            set (x := L) in E at 1;
            cbn beta in E; simpl (_ +:+ _) in E; row_lookup_in E;
            cbn [from_ok cell_and bind truthy] in E;
            subst x; exact E
        end
      | specialize (R HP); clear HP R2; rename R into R2 ]
  end.

(** ** s3_mamanalysis_survival.py: the groups of one sample *)

Lemma grupo_np_where_Ok (df df' : DataFrame) (coluna origem sim nao : string) :
  S3Survival.grupo_np_where df coluna origem sim nao = Ok df' →
  rows df' = (λ r : gmap string cell,
                <[coluna := if truthy (r !!! origem) then Str sim else Str nao]> r)
             <$> rows df.
Proof.
  unfold S3Survival.grupo_np_where, np_where. intros H.
  ok_step H s Hs. apply getitem_Ok in Hs as [_ ->].
  rewrite <- list_fmap_compose in H.
  by apply setitem_Ok in H as [_ ->].
Qed.

Lemma colunas_expresso_inr (genes : list string) (df : DataFrame) (gene : string) :
  S3Survival.colunas_expresso genes df = Ok (inr gene) → gene ∈ genes.
Proof.
  revert df. induction genes as [|g genes IH]; intros df H; simpl in H.
  - discriminate.
  - destruct (has_column df g).
    + ok_step H df1 H1. right. by eapply IH.
    + inversion H. left.
Qed.

Lemma definir_grupos_rows (df df' : DataFrame) (out : list string) :
  S3Survival.definir_grupos_comparacao df = Ok (Some df', out) →
  rows df' = grupos_da_amostra <$> rows df.
Proof.
  unfold S3Survival.definir_grupos_comparacao. intros H.
  ok_step H r Hr. destruct r as [df4|gene]; [|discriminate].
  unfold S3Survival.GENES_INTERESSE in Hr. cbn [S3Survival.colunas_expresso] in Hr.
  destruct (has_column df "PRG2"); [|discriminate]. ok_step Hr df1 H1.
  destruct (has_column df1 "EPX"); [|discriminate]. ok_step Hr df2 H2.
  destruct (has_column df2 "CLC"); [|discriminate]. ok_step Hr df3 H3.
  destruct (has_column df3 "IL5RA"); [|discriminate]. ok_step Hr df4' H4.
  inversion Hr; subst df4'; clear Hr.
  apply assign_expresso_Ok in H1 as (_ & _ & R1).
  apply assign_expresso_Ok in H2 as (_ & _ & R2).
  apply assign_expresso_Ok in H3 as (_ & _ & R3).
  apply assign_expresso_Ok in H4 as (_ & _ & R4).
  ok_step H prg2 Hp. apply getitem_Ok in Hp as [_ ->].
  ok_step H epx He. apply getitem_Ok in He as [_ ->].
  ok_step H g1 Hg1. apply series_and_Ok in Hg1 as ->.
  ok_step H clc Hc. apply getitem_Ok in Hc as [_ ->].
  ok_step H g2 Hg2. apply series_and_Ok in Hg2 as ->.
  ok_step H il5 Hi. apply getitem_Ok in Hi as [_ ->].
  ok_step H g3 Hg3. apply series_and_Ok in Hg3 as ->.
  ok_step H df5 H5. unfold np_where in H5. rewrite <- !list_fmap_compose in H5.
  apply setitem_Ok in H5 as [_ R5].
  ok_step H df6 R6. apply grupo_np_where_Ok in R6.
  ok_step H df7 R7. apply grupo_np_where_Ok in R7.
  ok_step H df8 R8. apply grupo_np_where_Ok in R8.
  ok_step H df9 R9. apply grupo_np_where_Ok in R9.
  inversion H; subst df9; clear H.
  after R1 R2. after R2 R3. after R3 R4. cbn [compose] in R5. after R4 R5.
  after R5 R6. after R6 R7. after R7 R8. after R8 R9.
  rewrite R9. apply list_fmap_ext. intros i r _.
  unfold grupos_da_amostra. simpl (_ +:+ _). cbn zeta.
  by destruct (expresso (r !!! "PRG2")), (expresso (r !!! "EPX")),
       (expresso (r !!! "CLC")), (expresso (r !!! "IL5RA")).
Qed.

(** ** Claims on the expressed state and the presence-based groups *)

Lemma expresso_positive (c : cell) : expresso c = true ↔ positive c.
Proof.
  destruct c as [q| |s|b]; simpl; try done.
  - apply expresso_Num.
  - by destruct b.
Qed.

Lemma binary_cols_rows (genes : list string) (df df' : DataFrame) (cols : list string) :
  S2GenesEos.binary_cols genes df = Ok (df', cols) →
  rows df' = (λ r, foldl expresso_step r genes) <$> rows df.
Proof.
  revert df df' cols. induction genes as [|g genes IH]; intros df df' cols H; simpl in H.
  - inversion H; subst. symmetry. apply list_fmap_id.
  - ok_step H df1 H1. ok_step H p Hp. inversion H; subst; clear H.
    destruct p as [df2 cols2]. apply IH in Hp. simpl.
    apply assign_expresso_Ok in H1 as (_ & _ & R1).
    rewrite Hp, R1, <- list_fmap_compose. done.
Qed.

Lemma binary_cols_state (df df' : DataFrame) (cols : list string) :
  S2GenesEos.binary_cols (S2GenesEos.genes_presentes df) df = Ok (df', cols) →
  Forall2 (λ r r', ∀ gene, gene ∈ S2GenesEos.genes_presentes df → expressed_state r r' gene)
          (rows df) (rows df').
Proof.
  intros H. apply binary_cols_rows in H. rewrite H.
  apply Forall2_fmap_r, Forall_Forall2_diag, Forall_forall. intros r _ gene Hg.
  exists (expresso (r !!! gene)). split; [|apply expresso_positive].
  revert Hg. unfold S2GenesEos.genes_presentes, S2GenesEos.genes_of_interest.
  simpl List.filter.
  destruct (has_column df "PRG2"), (has_column df "EPX"),
    (has_column df "CLC"), (has_column df "IL5RA");
    rewrite ?elem_of_cons, elem_of_nil; intros Hg;
    repeat (destruct Hg as [->|Hg]); try done;
    unfold expresso_step; simpl; row_lookup; done.
Qed.

Lemma definir_grupos_state (df df' : DataFrame) (out : list string) :
  S3Survival.definir_grupos_comparacao df = Ok (Some df', out) →
  Forall2 (λ r r', ∀ gene, gene ∈ S3Survival.GENES_INTERESSE → expressed_state r r' gene)
          (rows df) (rows df').
Proof.
  intros H. apply definir_grupos_rows in H. rewrite H.
  apply Forall2_fmap_r, Forall_Forall2_diag, Forall_forall. intros r _ gene Hg.
  exists (expresso (r !!! gene)). split; [|apply expresso_positive].
  revert Hg. unfold S3Survival.GENES_INTERESSE.
  rewrite ?elem_of_cons, elem_of_nil; intros Hg;
    repeat (destruct Hg as [->|Hg]); try done;
    unfold grupos_da_amostra; simpl; row_lookup; done.
Qed.

(** C1.  In script s2 (the loop filling [binary_cols]) and in script s3
    ([definir_grupos_comparacao]), whenever the columns are built, every
    sample gets for every gene of interest that is a column the boolean
    [gene_expresso], and that boolean is true exactly when the expression
    value is greater than zero: a value of exactly 0 (or a missing value)
    gives false, and no other threshold is used. *)
Theorem C1_expressed_iff_value_gt_zero (df : DataFrame) :
  (∀ df' cols,
     S2GenesEos.binary_cols (S2GenesEos.genes_presentes df) df = Ok (df', cols) →
     Forall2 (λ r r', ∀ gene, gene ∈ S2GenesEos.genes_presentes df →
                expressed_state r r' gene) (rows df) (rows df'))
  ∧ (∀ df' out,
     S3Survival.definir_grupos_comparacao df = Ok (Some df', out) →
     Forall2 (λ r r', ∀ gene, gene ∈ S3Survival.GENES_INTERESSE →
                expressed_state r r' gene) (rows df) (rows df'))
  ∧ ¬ positive (Num 0) ∧ ¬ positive NaN.
Proof.
  split; [|split; [|split]].
  - intros df' cols. apply binary_cols_state.
  - intros df' out. apply definir_grupos_state.
  - simpl. apply Qlt_irrefl.
  - simpl. tauto.
Qed.

Lemma cohort_sizes (col sim nao : string) (l : list (gmap string cell)) :
  Forall (λ r', in_cohort col sim r' = negb (in_cohort col nao r')) l →
  length (List.filter (in_cohort col sim) l) + length (List.filter (in_cohort col nao) l)
  = length l.
Proof.
  intros H. rewrite <- (List.filter_length (in_cohort col sim) l). f_equal. f_equal.
  induction H as [|r' l Hr _ IH]; simpl; [done|].
  rewrite Hr, negb_involutive, IH. done.
Qed.

(** X1.  The 4-gene group of s3_mamanalysis_survival.py: whenever
    [definir_grupos_comparacao] returns a table, a sample is labelled
    with the all-expressed cohort exactly when each of the four genes of
    interest is expressed, and with 'Demais' otherwise. *)
Lemma grupo_4_vs_outros_and (df df' : DataFrame) (out : list string) :
  S3Survival.definir_grupos_comparacao df = Ok (Some df', out) →
  Forall2 (λ r r',
      (in_cohort "grupo_4_vs_outros" "CLC_EPX_IL5RA_PRG2" r' = true
         ↔ ∀ gene, gene ∈ S3Survival.GENES_INTERESSE → positive (r !!! gene))
      ∧ in_cohort "grupo_4_vs_outros" "Demais" r'
        = negb (in_cohort "grupo_4_vs_outros" "CLC_EPX_IL5RA_PRG2" r'))
    (rows df) (rows df').
Proof.
  intros H. apply definir_grupos_rows in H. rewrite H.
  apply Forall2_fmap_r, Forall_Forall2_diag, Forall_forall. intros r _.
  unfold compose, in_cohort, grupos_da_amostra,
    S3Survival.GENES_INTERESSE.
  cbn beta. row_lookup.
  assert (Hall : (∀ gene, gene ∈ ["PRG2"; "EPX"; "CLC"; "IL5RA"] → positive (r !!! gene))
                 ↔ expresso (r !!! "PRG2") && expresso (r !!! "EPX")
                   && expresso (r !!! "CLC") && expresso (r !!! "IL5RA") = true).
  { rewrite !andb_true_iff, !expresso_positive. split.
    - intros Hg. repeat split; apply Hg; set_solver.
    - intros [[[H1 H2] H3] H4] gene. rewrite !elem_of_cons, elem_of_nil.
      intros [->|[->|[->|[->|[]]]]]; done. }
  rewrite Hall.
  destruct (expresso (r !!! "PRG2") && expresso (r !!! "EPX")
            && expresso (r !!! "CLC") && expresso (r !!! "IL5RA")); simpl; done.
Qed.

(** C5.  Presence-based stratification is a total partition: for each of
    the single-gene comparisons, the returned table has one row per input
    sample (none is excluded), a sample is in the expressed cohort exactly
    when its expression value is greater than zero and in the not-expressed
    cohort exactly when it is not (value 0 or missing included), so it is in
    exactly one of the two, and the two cohort sizes add up to the number of
    samples. *)
Theorem C5_presence_partition (df df' : DataFrame) (out : list string) :
  S3Survival.definir_grupos_comparacao df = Ok (Some df', out) →
  length (rows df') = length (rows df)
  ∧ ∀ gene col sim nao, (gene, col, sim, nao) ∈ presenca →
      Forall2 (λ r r',
          (in_cohort col sim r' = true ↔ positive (r !!! gene))
          ∧ (in_cohort col nao r' = true ↔ ¬ positive (r !!! gene))
          ∧ in_cohort col sim r' = negb (in_cohort col nao r'))
        (rows df) (rows df')
      ∧ length (List.filter (in_cohort col sim) (rows df'))
        + length (List.filter (in_cohort col nao) (rows df')) = length (rows df).
Proof.
  intros H. apply definir_grupos_rows in H.
  split; [by rewrite H, length_fmap|].
  intros gene col sim nao Hin.
  assert (HF : Forall2 (λ r r',
          (in_cohort col sim r' = true ↔ positive (r !!! gene))
          ∧ (in_cohort col nao r' = true ↔ ¬ positive (r !!! gene))
          ∧ in_cohort col sim r' = negb (in_cohort col nao r'))
        (rows df) (rows df')).
  { rewrite H.
    apply Forall2_fmap_r, Forall_Forall2_diag, Forall_forall. intros r _.
    unfold compose. cbn beta. revert Hin. unfold presenca. rewrite !elem_of_cons, elem_of_nil.
    intros [Heq|[Heq|[Heq|[Heq|[]]]]]; inversion Heq; subst; clear Heq;
      unfold in_cohort, grupos_da_amostra; row_lookup;
      rewrite <- expresso_positive;
      match goal with |- context [expresso ?c] => destruct (expresso c) end;
      simpl; repeat split; try done; try (intros Hn; by apply Hn). }
  split; [exact HF|].
  rewrite (Forall2_length _ _ _ HF). apply cohort_sizes.
  apply Forall2_Forall_r with (1 := HF). apply Forall_forall. intros r _ r' (_ & _ & Hx).
  exact Hx.
Qed.

(** ** C4: the 4-gene group of s3_mamanalysis_manutenção.py *)

(** C4.  On a table whose samples all express the four configured genes
    IL5, IL33, IL25 and TSLP, [definir_grupos_comparacao] of
    s3_mamanalysis_manutenção.py labels no sample: it looks up the column
    [IL5RA_expresso], which step 1 never wrote, and ends with a KeyError. *)
Theorem C4_manutencao_keyerror :
  S3Manutencao.definir_grupos_comparacao tabela_manut = Raise (KeyError "IL5RA_expresso").
Proof. vm_compute. reflexivity. Qed.

(** ** C9: a gene of interest that is not a column *)

Lemma has_column_add (cols : list string) (rs rs' : list (gmap string cell))
    (c k : string) :
  c ≠ k →
  has_column {| columns := add_column cols c; rows := rs |} k
  = has_column {| columns := cols; rows := rs' |} k.
Proof.
  intros Hne. unfold has_column, add_column; simpl.
  destruct (bool_decide (c ∈ cols)); [done|].
  apply bool_decide_ext. rewrite elem_of_app, list_elem_of_singleton.
  split; [intros [Hk|Hk]; [done|congruence] | by left].
Qed.

Lemma has_column_assign (df df' : DataFrame) (gene k : string) :
  assign_expresso df gene = Ok df' → gene +:+ "_expresso" ≠ k →
  has_column df' k = has_column df k.
Proof.
  intros H Hne. apply assign_expresso_Ok in H as (_ & Hc & _).
  destruct df as [cols rs], df' as [cols' rs']; simpl in *. subst cols'.
  by apply has_column_add.
Qed.

Lemma colunas_expresso_all (df df' : DataFrame) :
  S3Survival.colunas_expresso S3Survival.GENES_INTERESSE df = Ok (inl df') →
  ∀ gene, gene ∈ S3Survival.GENES_INTERESSE → has_column df gene = true.
Proof.
  unfold S3Survival.GENES_INTERESSE. cbn [S3Survival.colunas_expresso]. intros H.
  destruct (has_column df "PRG2") eqn:E1; [|discriminate]. ok_step H df1 H1.
  destruct (has_column df1 "EPX") eqn:E2; [|discriminate]. ok_step H df2 H2.
  destruct (has_column df2 "CLC") eqn:E3; [|discriminate]. ok_step H df3 H3.
  destruct (has_column df3 "IL5RA") eqn:E4; [|discriminate]. clear H.
  rewrite (has_column_assign _ _ _ _ H3), (has_column_assign _ _ _ _ H2),
    (has_column_assign _ _ _ _ H1) in E4 by discriminate.
  rewrite (has_column_assign _ _ _ _ H2), (has_column_assign _ _ _ _ H1) in E3
    by discriminate.
  rewrite (has_column_assign _ _ _ _ H1) in E2 by discriminate.
  intros gene. rewrite !elem_of_cons, elem_of_nil.
  intros [->|[->|[->|[->|[]]]]]; done.
Qed.

Lemma filter_not_nil {A : Type} (p : A → bool) (l : list A) (x : A) :
  x ∈ l → p x = true → List.filter p l ≠ [].
Proof.
  intros Hin Hp Hnil.
  assert (Hx : In x (List.filter p l)).
  { apply List.filter_In. split; [by apply list_elem_of_In|done]. }
  rewrite Hnil in Hx. destruct Hx.
Qed.




(** ** Witnesses on the concrete table *)

Lemma C1_witness :
  (∃ df' cols,
     S2GenesEos.binary_cols (S2GenesEos.genes_presentes tabela_eos) tabela_eos
     = Ok (df', cols)
     ∧ Forall2 (λ r r', ∀ gene, gene ∈ S2GenesEos.genes_presentes tabela_eos →
                  expressed_state r r' gene) (rows tabela_eos) (rows df'))
  ∧ (∃ df' out,
     S3Survival.definir_grupos_comparacao tabela_eos = Ok (Some df', out)
     ∧ Forall2 (λ r r', ∀ gene, gene ∈ S3Survival.GENES_INTERESSE →
                  expressed_state r r' gene) (rows tabela_eos) (rows df')).
Proof.
  split.
  - assert (Hok : is_ok (S2GenesEos.binary_cols
                           (S2GenesEos.genes_presentes tabela_eos) tabela_eos) = true)
      by (vm_compute; reflexivity).
    destruct (S2GenesEos.binary_cols (S2GenesEos.genes_presentes tabela_eos) tabela_eos)
      as [[df' cols]|e] eqn:E; [|discriminate Hok].
    exists df', cols. split; [reflexivity|].
    exact (proj1 (C1_expressed_iff_value_gt_zero tabela_eos) df' cols E).
  - assert (Hok : returned (S3Survival.definir_grupos_comparacao tabela_eos) = true)
      by (vm_compute; reflexivity).
    destruct (S3Survival.definir_grupos_comparacao tabela_eos) as [[[df'|] out]|e] eqn:E;
      [|discriminate Hok..].
    exists df', out. split; [reflexivity|].
    exact (proj1 (proj2 (C1_expressed_iff_value_gt_zero tabela_eos)) df' out E).
Defined.

Lemma C5_witness :
  ∃ df' out,
    S3Survival.definir_grupos_comparacao tabela_eos = Ok (Some df', out)
    ∧ length (rows df') = length (rows tabela_eos)
    ∧ length (List.filter (in_cohort "grupo_CLC_vs_Nao" "Expressa CLC") (rows df'))
      + length (List.filter (in_cohort "grupo_CLC_vs_Nao" "Não Expressa CLC") (rows df'))
      = length (rows tabela_eos).
Proof.
  assert (Hok : returned (S3Survival.definir_grupos_comparacao tabela_eos) = true)
    by (vm_compute; reflexivity).
  destruct (S3Survival.definir_grupos_comparacao tabela_eos) as [[[df'|] out]|e] eqn:E;
    [|discriminate Hok..].
  exists df', out. split; [reflexivity|].
  destruct (C5_presence_partition tabela_eos df' out E) as [Hlen Hgrupos].
  split; [exact Hlen|].
  refine (proj2 (Hgrupos "CLC" "grupo_CLC_vs_Nao" "Expressa CLC" "Não Expressa CLC" _)).
  unfold presenca. apply list_elem_of_further, list_elem_of_here.
Defined.

(** ** C6: when the log-rank test is run *)

Lemma dropna_Ok (df df' : DataFrame) (cs : list string) :
  dropna df cs = Ok df' →
  columns df' = columns df
  ∧ rows df' = List.filter (λ r : gmap string cell,
                              forallb (λ c, negb (isna (r !!! c))) cs) (rows df).
Proof.
  unfold dropna. destruct (List.find _ cs); [discriminate|].
  intros H. by inversion H.
Qed.

Lemma plot_survival_com_guard (texto : string) (st : Stats) (df : DataFrame)
    (gc gl tc ec ft : string) (r : eixos) :
  plot_survival_com texto st df gc gl tc ec ft = Ok r →
  let g : list cell := (λ row : gmap string cell, row !!! gc) <$> rows df in
  let T : list cell := (λ row : gmap string cell, row !!! tc) <$> rows df in
  let E : list cell := (λ row : gmap string cell, row !!! ec) <$> rows df in
  let alta := cell_is "Alta Expressão" <$> g in
  let baixa := cell_is "Baixa Expressão" <$> g in
  match r with
  | KaplanMeier _ fig =>
      (2 ≤ mask_sum alta)%nat ∧ (2 ≤ mask_sum baixa)%nat
      ∧ logrank_test st (compress alta T) (compress baixa T)
                        (compress alta E) (compress baixa E) = Ok (p_valor fig)
  | DadosInsuficientes _ txt =>
      ((mask_sum alta < 2)%nat ∨ (mask_sum baixa < 2)%nat) ∧ txt = texto
  end.
Proof.
  unfold plot_survival_com. intros H.
  ok_step H T HT. apply getitem_Ok in HT as [_ ->].
  ok_step H E HE. apply getitem_Ok in HE as [_ ->].
  ok_step H g Hg. apply getitem_Ok in Hg as [_ ->].
  ok_step H g' Hg'. apply getitem_Ok in Hg' as [_ ->].
  destruct (Nat.ltb _ 2 || Nat.ltb _ 2) eqn:Hguard.
  - inversion H; subst; clear H. simpl. split; [|done].
    apply orb_true_iff in Hguard as [Hlt|Hlt]; apply Nat.ltb_lt in Hlt; auto.
  - apply orb_false_iff in Hguard as [H1 H2].
    apply Nat.ltb_ge in H1, H2.
    ok_step H p Hp. inversion H; subst; clear H. simpl. done.
Qed.

Lemma select_rows_ignorar (df : DataFrame) (col : string) :
  rows (select_rows df ((λ c, negb (cell_is "Ignorar" c))
                         <$> ((λ r : gmap string cell, r !!! col) <$> rows df)))
  = List.filter (λ r : gmap string cell, negb (cell_is "Ignorar" (r !!! col))) (rows df).
Proof. simpl. rewrite <- list_fmap_compose. apply compress_fmap. Qed.

Lemma plotar_sobrevida_guard (st : Stats) (df : DataFrame) (col titulo : string)
    (fig : option figura) (out : list string) :
  S3Survival.plotar_sobrevida st df col titulo = Ok (fig, out) →
  let validas := amostras_validas df col in
  let g : list cell := (λ r : gmap string cell, r !!! col) <$> validas in
  let T : list cell := (λ r : gmap string cell, r !!! S3Survival.COL_TEMPO) <$> validas in
  let E : list cell := (λ r : gmap string cell, r !!! S3Survival.COL_EVENTO) <$> validas in
  match fig with
  | Some f =>
      (2 ≤ nunique g)%nat
      ∧ ∃ meses gu, series_div T (3044 # 100) = Ok meses
          ∧ np_sort (unique g) = Ok gu
          ∧ p_valor f = (S3Survival.teste_logrank st meses E g gu).1
          ∧ curvas f = S3Survival.curvas_km g gu
  | None => validas = [] ∨ columns df = [] ∨ (nunique g < 2)%nat
  end.
Proof.
  unfold S3Survival.plotar_sobrevida. intros H.
  ok_step H df1 H1. apply dropna_Ok in H1 as [C1 R1].
  ok_step H g0 Hg0. apply getitem_Ok in Hg0 as [_ ->].
  set (df2 := select_rows df1 _) in H.
  assert (R2 : rows df2 = amostras_validas df col).
  { unfold df2, amostras_validas. rewrite select_rows_ignorar, R1. done. }
  assert (C2 : columns df2 = columns df) by exact C1.
  clearbody df2.
  ok_step H g Hg. apply getitem_Ok in Hg as [_ ->].
  unfold empty, len in H. rewrite R2, C2 in H.
  destruct (Nat.eqb (length (amostras_validas df col)) 0
            || Nat.eqb (length (columns df)) 0
            || Nat.ltb (nunique _) 2) eqn:Hguard.
  - inversion H; subst; clear H. cbv zeta.
    apply orb_true_iff in Hguard as [Hguard|Hlt].
    + apply orb_true_iff in Hguard as [Hz|Hz]; apply Nat.eqb_eq in Hz.
      * left. by apply nil_length_inv.
      * right; left. by apply nil_length_inv.
    + right; right. by apply Nat.ltb_lt.
  - apply orb_false_iff in Hguard as [_ Hlt]. apply Nat.ltb_ge in Hlt.
    ok_step H t Ht. apply getitem_Ok in Ht as [_ ->].
    ok_step H meses Hm.
    ok_step H E HE. apply getitem_Ok in HE as [_ ->].
    ok_step H grupos Hgr. apply getitem_Ok in Hgr as [_ ->].
    ok_step H gu Hgu. rewrite R2 in *.
    destruct (S3Survival.teste_logrank _ _ _ _ _) as [p err] eqn:Ep.
    inversion H; subst; clear H. cbv zeta. simpl. split; [done|].
    exists meses, gu. rewrite Ep. done.
Qed.

(** C6 (as the code has it).  In the median-split scripts, [plot_survival]
    runs the log-rank test and shows its p-value only when each of the two
    cohorts has at least 2 samples, and shows 'Dados insuficientes' without
    running it otherwise.  In s3, [plotar_sobrevida] has another guard: it
    skips the comparison only when, among the samples with no missing
    survival field, fewer than two distinct groups are left; with two groups
    it applies the test to them whatever their sizes. *)
Theorem C6_logrank_guards (st : Stats) (df : DataFrame) :
  (∀ gc gl tc ec ft r,
     SurvivalPresenceCLC.plot_survival st df gc gl tc ec ft = Ok r →
     let g : list cell := (λ row : gmap string cell, row !!! gc) <$> rows df in
     let T : list cell := (λ row : gmap string cell, row !!! tc) <$> rows df in
     let E : list cell := (λ row : gmap string cell, row !!! ec) <$> rows df in
     let alta := cell_is "Alta Expressão" <$> g in
     let baixa := cell_is "Baixa Expressão" <$> g in
     match r with
     | KaplanMeier _ fig =>
         (2 ≤ mask_sum alta)%nat ∧ (2 ≤ mask_sum baixa)%nat
         ∧ logrank_test st (compress alta T) (compress baixa T)
                           (compress alta E) (compress baixa E) = Ok (p_valor fig)
     | DadosInsuficientes _ txt =>
         ((mask_sum alta < 2)%nat ∨ (mask_sum baixa < 2)%nat)
         ∧ txt = "Dados insuficientes para um ou ambos os grupos."
     end)
  ∧ (∀ col titulo fig out,
     S3Survival.plotar_sobrevida st df col titulo = Ok (fig, out) →
     let validas := amostras_validas df col in
     let g : list cell := (λ r : gmap string cell, r !!! col) <$> validas in
     let T : list cell := (λ r : gmap string cell, r !!! S3Survival.COL_TEMPO) <$> validas in
     let E : list cell := (λ r : gmap string cell, r !!! S3Survival.COL_EVENTO) <$> validas in
     match fig with
     | Some f =>
         (2 ≤ nunique g)%nat
         ∧ ∃ meses gu, series_div T (3044 # 100) = Ok meses
             ∧ np_sort (unique g) = Ok gu
             ∧ p_valor f = (S3Survival.teste_logrank st meses E g gu).1
             ∧ curvas f = S3Survival.curvas_km g gu
     | None => validas = [] ∨ columns df = [] ∨ (nunique g < 2)%nat
     end).
Proof.
  split.
  - intros gc gl tc ec ft r. apply plot_survival_com_guard.
  - intros col titulo fig out. apply plotar_sobrevida_guard.
Qed.

(** The claim fails for [plotar_sobrevida]: of the four samples one
    expresses CLC, so the cohort 'Expressa CLC' has a single sample, and the
    figure still carries the p-value of the log-rank test (1/2 from the
    stand-in), not the 'insufficient data' notice. *)
Lemma C6_counterexample :
  mask_sum (cell_is "Expressa CLC"
              <$> ((λ r : gmap string cell, r !!! "grupo_CLC_vs_Nao")
                     <$> rows tabela_eos_grupos)) = 1%nat
  ∧ S3Survival.plotar_sobrevida stats_de_teste tabela_eos_grupos "grupo_CLC_vs_Nao"
      "Sobrevida: Expressa CLC vs. Não Expressa CLC"
    = Ok (Some {| p_valor := 1 # 2;
                  curvas := [(Str "Expressa CLC", 1%nat);
                             (Str "Não Expressa CLC", 3%nat)] |},
          ["Gerando gráfico: Sobrevida: Expressa CLC vs. Não Expressa CLC"]).
Proof. split; vm_compute; reflexivity. Qed.

Lemma C6_witness :
  (2 ≤ nunique ((λ r : gmap string cell, r !!! "grupo_CLC_vs_Nao")
                  <$> amostras_validas tabela_eos_grupos "grupo_CLC_vs_Nao"))%nat.
Proof.
  assert (Hok : returned (S3Survival.plotar_sobrevida stats_de_teste tabela_eos_grupos
                            "grupo_CLC_vs_Nao" "t") = true)
    by (vm_compute; reflexivity).
  destruct (S3Survival.plotar_sobrevida stats_de_teste tabela_eos_grupos
              "grupo_CLC_vs_Nao" "t") as [[[f|] out]|e] eqn:E; [|discriminate Hok..].
  exact (proj1 (proj2 (C6_logrank_guards stats_de_teste tabela_eos_grupos)
                  "grupo_CLC_vs_Nao" "t" (Some f) out E)).
Defined.

(** ** C8: the chi-square test of [plotar_pam50] *)

Lemma filter_negb_existsb {A : Type} (p : A → bool) (l : list A) :
  existsb p l = false → List.filter (λ x, negb (p x)) l = l.
Proof.
  induction l as [|x l IH]; simpl; [done|].
  intros H. apply orb_false_iff in H as [Hx Hl]. rewrite Hx. simpl. by rewrite IH.
Qed.

Lemma has_column_nonempty (df : DataFrame) (c : string) :
  has_column df c = true → Nat.eqb (length (columns df)) 0 = false.
Proof.
  unfold has_column. intros H. apply bool_decide_eq_true in H.
  destruct (columns df); [by apply elem_of_nil in H|done].
Qed.

Lemma length_nonempty {A : Type} (l : list A) : l ≠ [] → Nat.eqb (length l) 0 = false.
Proof. by destruct l. Qed.

Lemma getitem_has (df : DataFrame) (c : string) :
  has_column df c = true →
  getitem df c = Ok ((λ r : gmap string cell, r !!! c) <$> rows df).
Proof. unfold getitem. by intros ->. Qed.

Lemma dropna_two (df : DataFrame) (a b : string) :
  has_column df a = true → has_column df b = true →
  dropna df [a; b]
  = Ok {| columns := columns df;
          rows := List.filter (λ r : gmap string cell,
                                 forallb (λ c, negb (isna (r !!! c))) [a; b]) (rows df) |}.
Proof. unfold dropna. simpl. by intros -> ->. Qed.

Lemma select_rows_not (df : DataFrame) (label col : string) :
  select_rows df ((λ c, negb (cell_is label c))
                    <$> ((λ r : gmap string cell, r !!! col) <$> rows df))
  = {| columns := columns df;
       rows := List.filter (λ r : gmap string cell, negb (cell_is label (r !!! col)))
                 (rows df) |}.
Proof.
  unfold select_rows. f_equal. rewrite <- list_fmap_compose. apply compress_fmap.
Qed.

Lemma existsb_fmap {A B : Type} (p : B → bool) (f : A → B) (l : list A) :
  existsb p (f <$> l) = existsb (λ x, p (f x)) l.
Proof. induction l as [|x l IH]; csimpl; [done|]. by rewrite IH. Qed.

(** After the optional removal of the subtype 'Normal', the table that
    [plotar_pam50] tabulates has the rows [amostras_pam50]. *)
Lemma remove_normal (df : DataFrame) (col_pam50 col : string) (out : list string)
    (l : list (gmap string cell)) :
  l = List.filter (λ r : gmap string cell, negb (cell_is "Ignorar" (r !!! col)))
        (List.filter (λ r : gmap string cell,
            forallb (λ c, negb (isna (r !!! c))) [col_pam50; col]) (rows df)) →
  ∃ out',
    (if existsb (cell_is "Normal") ((λ r : gmap string cell, r !!! col_pam50) <$> l)
     then (select_rows {| columns := columns df; rows := l |}
             ((λ c, negb (cell_is "Normal" c))
                <$> ((λ r : gmap string cell, r !!! col_pam50) <$> l)),
           out ++ ["  -> Subtipo 'Normal' removido da análise PAM50."])
     else ({| columns := columns df; rows := l |}, out))
    = ({| columns := columns df; rows := amostras_pam50 col_pam50 col df |}, out').
Proof.
  intros Hl. unfold amostras_pam50. rewrite <- Hl.
  destruct (existsb _ _) eqn:En.
  - eexists. f_equal.
    rewrite (select_rows_not {| columns := columns df; rows := l |}). done.
  - eexists. f_equal. f_equal.
    rewrite existsb_fmap in En. symmetry. exact (filter_negb_existsb _ _ En).
Qed.

(** The proof script shared by the two copies of [plotar_pam50] *)
Ltac pam50_script Hp Hc Hne Hnu Ht teste :=
  rewrite (dropna_two _ _ _ Hp Hc); cbn [bind];
  rewrite getitem_has by exact Hc; cbn [bind rows];
  rewrite select_rows_not; cbn [columns rows];
  rewrite getitem_has by exact Hp; cbn [bind rows];
  match goal with
  | |- context [if existsb _ (_ <$> ?l) then (_, ?o ++ _) else _] =>
      let out := fresh "out" in
      let Hplot := fresh "Hplot" in
      destruct (remove_normal _ _ _ o l eq_refl) as [out Hplot];
      rewrite Hplot; clear Hplot; exists out
  end;
  rewrite getitem_has by exact Hp; cbn [bind rows];
  unfold empty, len; cbn [rows columns];
  rewrite (length_nonempty _ Hne), (has_column_nonempty _ _ Hp);
  rewrite (proj2 (Nat.ltb_ge _ _) Hnu); cbn [orb];
  rewrite !getitem_has by assumption; cbn [bind rows];
  rewrite Ht; cbn [bind]; unfold teste;
  split; [ intros ? -> | intros ? ? ? ? -> ]; reflexivity.

Lemma survival_pam50_chi2 (st : Stats) (df : DataFrame) (col titulo : string)
    (t : list (list nat)) :
  has_column df S3Survival.COL_PAM50 = true →
  has_column df col = true →
  amostras_pam50 S3Survival.COL_PAM50 col df ≠ [] →
  (2 ≤ nunique ((λ r : gmap string cell, r !!! S3Survival.COL_PAM50)
                  <$> amostras_pam50 S3Survival.COL_PAM50 col df))%nat →
  crosstab ((λ r : gmap string cell, r !!! col)
              <$> amostras_pam50 S3Survival.COL_PAM50 col df)
           ((λ r : gmap string cell, r !!! S3Survival.COL_PAM50)
              <$> amostras_pam50 S3Survival.COL_PAM50 col df) = Ok t →
  ∃ out,
    (∀ msg, chi2_contingency st t = Raise (ValueError msg) →
       S3Survival.plotar_pam50 st df col titulo
       = Ok (Some {| p_valor := sentinela; curvas := [] |},
             out ++ ["  -> Erro no teste estatístico (chi2_contingency): " +:+ msg]))
    ∧ (∀ c p d e, chi2_contingency st t = Ok (c, p, d, e) →
       S3Survival.plotar_pam50 st df col titulo
       = Ok (Some {| p_valor := p; curvas := [] |}, out ++ [])).
Proof.
  intros Hp Hc Hne Hnu Ht. unfold S3Survival.plotar_pam50.
  pam50_script Hp Hc Hne Hnu Ht S3Survival.teste_chi2.
Qed.

Lemma manutencao_pam50_chi2 (st : Stats) (df : DataFrame) (col titulo : string)
    (t : list (list nat)) :
  has_column df S3Manutencao.COL_PAM50 = true →
  has_column df col = true →
  amostras_pam50 S3Manutencao.COL_PAM50 col df ≠ [] →
  (2 ≤ nunique ((λ r : gmap string cell, r !!! S3Manutencao.COL_PAM50)
                  <$> amostras_pam50 S3Manutencao.COL_PAM50 col df))%nat →
  crosstab ((λ r : gmap string cell, r !!! col)
              <$> amostras_pam50 S3Manutencao.COL_PAM50 col df)
           ((λ r : gmap string cell, r !!! S3Manutencao.COL_PAM50)
              <$> amostras_pam50 S3Manutencao.COL_PAM50 col df) = Ok t →
  ∃ out,
    (∀ msg, chi2_contingency st t = Raise (ValueError msg) →
       S3Manutencao.plotar_pam50 st df col titulo
       = Ok (Some {| p_valor := sentinela; curvas := [] |},
             out ++ ["  -> Erro no teste estatístico (chi2_contingency): " +:+ msg
                       +:+ ". P-valor definido como 0.99."]))
    ∧ (∀ c p d e, chi2_contingency st t = Ok (c, p, d, e) →
       S3Manutencao.plotar_pam50 st df col titulo
       = Ok (Some {| p_valor := p; curvas := [] |}, out ++ [])).
Proof.
  intros Hp Hc Hne Hnu Ht. unfold S3Manutencao.plotar_pam50.
  pam50_script Hp Hc Hne Hnu Ht S3Manutencao.teste_chi2.
Qed.

Lemma length_pos_nonempty {A : Type} (l : list A) : (1 ≤ length l)%nat → l ≠ [].
Proof. destruct l; simpl; [lia|done]. Qed.



(** ** C7: the rows of the Cox analysis *)

Lemma lookup_total_select (cols : list string) (r : gmap string cell) (c : string) :
  c ∈ cols →
  filter (λ kv : string * cell, kv.1 ∈ cols) r !!! c = r !!! c.
Proof.
  intros Hc. rewrite !lookup_total_alt. f_equal.
  rewrite map_lookup_filter. destruct (r !! c) as [x|]; simpl; [|done].
  by rewrite option_guard_True.
Qed.

Lemma select_columns_Ok (df df' : DataFrame) (cols : list string) :
  S2GenesEos.select_columns df cols = Ok df' →
  columns df' = cols
  ∧ rows df' = (λ r : gmap string cell, filter (λ kv : string * cell, kv.1 ∈ cols) r)
               <$> rows df.
Proof.
  unfold S2GenesEos.select_columns. destruct (List.find _ cols); [discriminate|].
  intros H. by inversion H.
Qed.

Lemma foldl_add_binario (ev : list cell) (acc : Q) :
  Forall binario ev →
  ∃ xs, traverse (to_float "+") ev = Ok xs
        ∧ (foldl add_skipna acc xs == acc + inject_Z (Z.of_nat (eventos ev)))%Q.
Proof.
  intros H. revert acc. induction H as [|c ev (q & -> & Hq) _ IH]; intros acc.
  - exists []. split; [done|]. simpl. unfold eventos; simpl. ring.
  - destruct (IH (acc + q)%Q) as (xs & Hxs & Hsum).
    exists (Some q :: xs). split.
    + simpl. rewrite Hxs. done.
    + simpl. rewrite Hsum. unfold eventos. simpl.
      destruct Hq as [Hq|Hq].
      * assert (E : Qeq_bool q 1 = false).
        { apply not_true_is_false. intros E. apply Qeq_bool_iff in E.
          rewrite Hq in E. discriminate. }
        rewrite E. simpl. rewrite Hq. ring.
      * assert (E : Qeq_bool q 1 = true) by (by apply Qeq_bool_iff).
        rewrite E. simpl length. rewrite Nat2Z.inj_succ, <- Z.add_1_r, inject_Z_plus.
        rewrite Hq. simpl. ring.
Qed.

Lemma linha_cox_df_cox (group_df df1 df2 : DataFrame) (gene : string) :
  S2GenesEos.select_columns group_df [S2GenesEos.col_tempo; S2GenesEos.col_evento; gene]
  = Ok df1 →
  dropna df1 (columns df1) = Ok df2 →
  df2 = tabela_cox group_df gene.
Proof.
  intros H1 H2. apply select_columns_Ok in H1 as [C1 R1].
  apply dropna_Ok in H2 as [C2 R2].
  destruct df2 as [cols2 rows2]; simpl in *. unfold tabela_cox. f_equal; [congruence|].
  rewrite R2, R1, C1, filter_fmap. f_equal. unfold validas_cox.
  apply filter_ext_bool. intros r. cbn [forallb].
  rewrite !lookup_total_select; [done|set_solver..].
Qed.

Lemma suficiente_binario (ev : list cell) (s : Q) :
  Forall binario ev → series_sum ev = Ok s →
  Qlt_bool 1 s = true ↔ (2 ≤ eventos ev)%nat.
Proof.
  intros Hb Hs. destruct (foldl_add_binario ev 0 Hb) as (xs & Hxs & Hsum).
  unfold series_sum in Hs. rewrite Hxs in Hs. simpl in Hs. inversion Hs; subst s; clear Hs.
  rewrite Qlt_bool_iff, Hsum, Qplus_0_l.
  change 1%Q with (inject_Z 1). rewrite <- Zlt_Qlt. lia.
Qed.

(** C7.  For every row of the Cox analysis (one group, one gene), with the
    event column holding 0 or 1: a hazard ratio is reported only when more
    than 10 samples have a value for time, event and gene and at least 2 of
    them are events, and it is then the hazard ratio of the fit, with its
    confidence interval and p-value; in every other case the row holds no
    p-value and no hazard ratio and is marked 'Dados insuficientes'. *)
Theorem C7_cox_sufficient_data (st : Stats) (group_name : string) (group_df : DataFrame)
    (gene : string) (row : S2GenesEos.linha) :
  S2GenesEos.linha_cox st group_name group_df gene = Ok (Some row) →
  let ev : list cell :=
    (λ r : gmap string cell, r !!! S2GenesEos.col_evento) <$> validas_cox group_df gene in
  let n := length (validas_cox group_df gene) in
  Forall binario ev →
  (is_Some (S2GenesEos.hazard_ratio row) →
     (10 < n)%nat ∧ (2 ≤ eventos ev)%nat
     ∧ ∃ p hr lo hi,
         cox_ph_fit st (tabela_cox group_df gene)
           S2GenesEos.col_tempo S2GenesEos.col_evento gene = Ok (p, hr, lo, hi)
         ∧ S2GenesEos.valor row = Some p
         ∧ S2GenesEos.hazard_ratio row = Some hr
         ∧ S2GenesEos.hr_ic95 row = S2GenesEos.IC lo hi)
  ∧ (¬ ((10 < n)%nat ∧ (2 ≤ eventos ev)%nat) →
     S2GenesEos.valor row = None ∧ S2GenesEos.hazard_ratio row = None
     ∧ S2GenesEos.hr_ic95 row = S2GenesEos.Texto "Dados insuficientes").
Proof.
  intros H ev n Hb. unfold S2GenesEos.linha_cox in H.
  destruct (has_column group_df S2GenesEos.col_tempo
            && has_column group_df S2GenesEos.col_evento); [|discriminate].
  ok_step H df1 H1. ok_step H df2 H2.
  pose proof (linha_cox_df_cox _ _ _ _ H1 H2) as ->. clear H1 H2.
  ok_step H suf Hsuf.
  assert (Hiff : suf = true ↔ (10 < n)%nat ∧ (2 ≤ eventos ev)%nat).
  { unfold len, tabela_cox in Hsuf; cbn [rows] in Hsuf.
    rewrite length_fmap in Hsuf. fold n in Hsuf.
    destruct (Nat.ltb 10 n) eqn:Hn.
    - apply Nat.ltb_lt in Hn. ok_step Hsuf ev' Hev. ok_step Hsuf s Hs.
      inversion Hsuf; subst suf; clear Hsuf.
      apply getitem_Ok in Hev as [_ ->]. cbn [rows] in Hs.
      rewrite <- list_fmap_compose in Hs.
      assert (Hev : (λ r : gmap string cell, r !!! S2GenesEos.col_evento)
                    ∘ (λ r : gmap string cell,
                         filter (λ kv : string * cell,
                                   kv.1 ∈ [S2GenesEos.col_tempo; S2GenesEos.col_evento; gene]) r)
                    <$> validas_cox group_df gene = ev).
      { apply list_fmap_ext. intros i r _. simpl.
        apply lookup_total_select. set_solver. }
      rewrite Hev in Hs. rewrite (suficiente_binario ev s Hb Hs). tauto.
    - apply Nat.ltb_ge in Hn. inversion Hsuf; subst suf. split; [discriminate|lia]. }
  destruct suf.
  - destruct (cox_ph_fit _ _ _ _ _) as [[[[p hr] lo] hi]|e] eqn:Hfit;
      inversion H; subst row; clear H; simpl; split.
    + intros _. destruct Hiff as [Hiff _]. destruct (Hiff eq_refl) as [Hn He].
      repeat split; [done..|]. by exists p, hr, lo, hi.
    + intros Hno. exfalso. apply Hno. by apply Hiff.
    + intros [x Hx]. discriminate.
    + intros Hno. exfalso. apply Hno. by apply Hiff.
  - inversion H; subst row; clear H; simpl. split.
    + intros [x Hx]. discriminate.
    + done.
Qed.

Lemma traverse_Ok_Forall2 {A B : Type} (f : A → result B) (l : list A) (l' : list B) :
  traverse f l = Ok l' → Forall2 (λ x y, f x = Ok y) l l'.
Proof.
  revert l'. induction l as [|x l IH]; intros l' H; simpl in H.
  - inversion H. constructor.
  - ok_step H y Hy. ok_step H ys Hys. inversion H; subst. constructor; auto.
Qed.

Lemma Forall2_elem_of_r {A B : Type} (P : A → B → Prop) (l : list A) (k : list B) (y : B) :
  Forall2 P l k → y ∈ k → ∃ x, x ∈ l ∧ P x y.
Proof.
  induction 1 as [|x y' l k Hxy _ IH]; intros Hy.
  - by apply elem_of_nil in Hy.
  - apply elem_of_cons in Hy as [->|Hy].
    + exists x. split; [left|done].
    + destruct (IH Hy) as (x' & Hx' & HP). exists x'. split; [by right|done].
Qed.

(** Every entry of [results_continua] is the row [linha_cox] builds for one
    group of the table and one gene named by the group. *)
Lemma results_continua_linhas (st : Stats) (df_merged : DataFrame)
    (ls : list S2GenesEos.linha) (row : S2GenesEos.linha) :
  S2GenesEos.results_continua st df_merged = Ok ls → row ∈ ls →
  ∃ group_name group_df gene,
    gene ∈ S2GenesEos.split group_name
    ∧ S2GenesEos.linha_cox st group_name group_df gene = Ok (Some row).
Proof.
  unfold S2GenesEos.results_continua. intros H Hrow.
  ok_step H cnt Hcnt. ok_step H msk Hmsk. ok_step H g Hg.
  ok_step H keys Hkeys. ok_step H lss Hlss. inversion H; subst ls; clear H.
  apply list_elem_of_omap in Hrow as (o & Ho & Hid). simpl in Hid. subst o.
  apply list_elem_of_In, in_concat in Ho as (lk & Hlk & Hin).
  apply traverse_Ok_Forall2 in Hlss.
  apply list_elem_of_In in Hlk, Hin.
  destruct (Forall2_elem_of_r _ _ _ _ Hlss Hlk) as (key & _ & Hkey).
  unfold S2GenesEos.grupo_cox in Hkey. destruct key as [| |group_name|]; try discriminate.
  apply traverse_Ok_Forall2 in Hkey.
  destruct (Forall2_elem_of_r _ _ _ _ Hkey Hin) as (gene & Hgene & Hlinha).
  eauto.
Qed.

Lemma binario_bool (c : cell) :
  match c with
  | Num q => Qeq_bool q 0 || Qeq_bool q 1
  | _ => false
  end = true → binario c.
Proof.
  destruct c as [q| | |]; try discriminate. intros H. exists q. split; [done|].
  apply orb_true_iff in H as [H|H]; apply Qeq_bool_iff in H; auto.
Qed.

Lemma C7_witness :
  ∃ row,
    S2GenesEos.linha_cox stats_de_teste "CLC" grupo_clc "CLC" = Ok (Some row)
    ∧ S2GenesEos.hazard_ratio row = Some 2%Q
    ∧ (10 < length (validas_cox grupo_clc "CLC"))%nat
    ∧ (2 ≤ eventos ((λ r : gmap string cell, r !!! S2GenesEos.col_evento)
                      <$> validas_cox grupo_clc "CLC"))%nat.
Proof.
  assert (Hok : returned (do r <- S2GenesEos.linha_cox stats_de_teste "CLC" grupo_clc "CLC";;
                          Ok (r, tt)) = true) by (vm_compute; reflexivity).
  destruct (S2GenesEos.linha_cox stats_de_teste "CLC" grupo_clc "CLC") as [[row|]|e] eqn:E;
    [|discriminate Hok..].
  assert (Hhr : S2GenesEos.hazard_ratio row = Some 2%Q).
  { assert (E' : (do r <- S2GenesEos.linha_cox stats_de_teste "CLC" grupo_clc "CLC";;
                  Ok (S2GenesEos.hazard_ratio <$> r)) = Ok (Some (Some 2%Q)))
      by (vm_compute; reflexivity).
    rewrite E in E'. simpl in E'. by inversion E'. }
  exists row. split; [reflexivity|]. split; [exact Hhr|].
  assert (Hb : Forall binario ((λ r : gmap string cell, r !!! S2GenesEos.col_evento)
                                 <$> validas_cox grupo_clc "CLC")).
  { apply Forall_forall. intros c Hc. apply binario_bool.
    revert c Hc. apply Forall_forall. apply Forall_fold_right. vm_compute. tauto. }
  destruct (proj1 (C7_cox_sufficient_data stats_de_teste "CLC" grupo_clc "CLC" row E Hb))
    as (Hn & He & _).
  - rewrite Hhr. by eexists.
  - split; assumption.
Defined.

(** ** C2 and C3: the median split *)

Lemma sum_axis1_Ok (df : DataFrame) (cols : list string) (s : list cell) :
  sum_axis1 df cols = Ok s →
  s = (λ r : gmap string cell, Num (agregado cols r)) <$> rows df.
Proof.
  unfold sum_axis1. generalize (rows df). intros l. revert s.
  induction l as [|r l IH]; intros s H; simpl in H.
  - by inversion H.
  - ok_step H c Hc. ok_step H s' Hs'. inversion H; subst; clear H.
    ok_step Hc q Hq. inversion Hc; subst; clear Hc.
    csimpl. unfold agregado at 1. rewrite Hq. simpl. f_equal. by apply IH.
Qed.

Lemma traverse_to_float_Num (op : string) (l : list Q) :
  traverse (to_float op) (Num <$> l) = Ok (Some <$> l).
Proof. induction l as [|q l IH]; csimpl; [done|]. by rewrite IH. Qed.

Lemma omap_id_Some {A : Type} (l : list A) : omap id (Some <$> l) = l.
Proof. induction l as [|x l IH]; csimpl; [done|]. by rewrite IH. Qed.

Lemma median_Num (l : list Q) : median (Num <$> l) = Ok (median_Q l).
Proof.
  unfold median. rewrite traverse_to_float_Num. simpl. by rewrite omap_id_Some.
Qed.

Lemma length_insert_Q (x : Q) (l : list Q) : length (insert_Q x l) = S (length l).
Proof.
  induction l as [|y l IH]; simpl; [done|].
  destruct (Qle_bool x y); simpl; [done|]. by rewrite IH.
Qed.

Lemma length_sort_Q (l : list Q) : length (sort_Q l) = length l.
Proof.
  unfold sort_Q. induction l as [|x l IH]; simpl; [done|].
  by rewrite length_insert_Q, IH.
Qed.

Lemma median_Q_None (l : list Q) : median_Q l = None → l = [].
Proof.
  unfold median_Q. rewrite length_sort_Q.
  destruct l as [|x l]; [done|]. simpl Nat.eqb. cbv iota.
  destruct (Nat.even _); discriminate.
Qed.

Lemma series_cmp_sum (op : string) (cmp : option Q → option Q → bool) (m : option Q)
    (f : gmap string cell → Q) (l : list (gmap string cell)) (b : list bool) :
  traverse (λ c, do x <- to_float op c;; Ok (cmp x m)) ((λ r, Num (f r)) <$> l) = Ok b →
  b = (λ r, cmp (Some (f r)) m) <$> l.
Proof.
  intros H. apply (traverse_Ok _ false) in H. rewrite H, <- list_fmap_compose. done.
Qed.

Lemma match_nil_cons {A B : Type} (l : list A) (x y : B) :
  match l with [] => x | _ :: _ => y end = if Nat.eqb (length l) 0 then x else y.
Proof. by destruct l. Qed.

(** One [df.loc[df['sum_expression'] <cmp> median, title] = v] on a table
    whose rows are [h] of the input rows and whose sum column is [f]. *)
Lemma loc_step (df df' : DataFrame) (base : list (gmap string cell))
    (h : gmap string cell → gmap string cell) (f : gmap string cell → Q)
    (op : string) (cmp : option Q → option Q → bool) (m : option Q)
    (title : string) (v : cell) (s : list cell) (mask : list bool) :
  rows df = h <$> base →
  (∀ r, h r !!! "sum_expression" = Num (f r)) →
  getitem df "sum_expression" = Ok s →
  traverse (λ c, do x <- to_float op c;; Ok (cmp x m)) s = Ok mask →
  loc_setitem df mask title v = Ok df' →
  rows df' = (λ r, if cmp (Some (f r)) m then <[title := v]> (h r) else h r) <$> base.
Proof.
  intros Hrows Hsum Hs Hmask Hloc.
  apply getitem_Ok in Hs as [_ ->].
  apply (traverse_Ok _ false) in Hmask. subst mask.
  rewrite <- list_fmap_compose in Hloc.
  apply loc_setitem_Ok in Hloc as [_ ->].
  rewrite Hrows, <- list_fmap_compose. apply list_fmap_ext. intros i r _.
  simpl. rewrite Hsum. simpl. done.
Qed.

Lemma create_strict_rows (df df' : DataFrame) (gene_list : list string)
    (group_title : string) (out : list string) :
  group_title ≠ "sum_expression" →
  SurvivalManutIL5.create_survival_groups df gene_list group_title = Ok (Some df', out) →
  let cols := List.filter (has_column df) gene_list in
  let m := median_Q (agregado cols <$> rows df) in
  let fica := λ r : gmap string cell,
    negb (String.eqb (rotulo_estrito (agregado cols r) m) "Excluído") in
  rows df' = (λ r, rotulada group_title (rotulo_estrito (agregado cols r) m)
                     (agregado cols r) r)
             <$> List.filter fica (rows df)
  ∧ out = (if Nat.ltb 0 (length (rows df) - length (List.filter fica (rows df)))
           then [SurvivalManutIL5.aviso_excluidas group_title
                   (length (rows df) - length (List.filter fica (rows df)))]
           else []).
Proof.
  intros Hne H cols m fica. unfold SurvivalManutIL5.create_survival_groups in H.
  fold cols in H. rewrite match_nil_cons in H.
  destruct (Nat.eqb (length cols) 0); [discriminate|].
  ok_step H s0 H0. apply sum_axis1_Ok in H0 as ->.
  ok_step H df1 Hdf1. apply setitem_Ok in Hdf1 as [_ Hdf1].
  ok_step H s1 H1. apply getitem_Ok in H1 as [_ ->].
  rewrite Hdf1, <- list_fmap_compose in H.
  assert (Hs1 : ∀ l : list (gmap string cell),
            (λ r : gmap string cell, r !!! "sum_expression")
            ∘ (λ r : gmap string cell, <["sum_expression" := Num (agregado cols r)]> r) <$> l
            = Num <$> (agregado cols <$> l)).
  { intros l. rewrite <- list_fmap_compose. apply list_fmap_ext. intros i r _.
    simpl. by rewrite lookup_total_insert_eq. }
  rewrite Hs1, median_Num in H. cbn [bind] in H. fold m in H. clear Hs1.
  set (f := agregado cols) in *.
  set (h2 := λ r : gmap string cell,
               <[group_title := Str "Excluído"]> (<["sum_expression" := Num (f r)]> r)).
  set (df2 := setitem_scalar df1 group_title (Str "Excluído")) in H.
  assert (Hdf2 : rows df2 = h2 <$> rows df).
  { unfold df2, setitem_scalar; simpl. by rewrite Hdf1, <- list_fmap_compose. }
  assert (Hsum2 : ∀ r, h2 r !!! "sum_expression" = Num (f r)).
  { intros r. unfold h2. rewrite lookup_total_insert_ne by done.
    apply lookup_total_insert_eq. }
  clearbody df2.
  ok_step H s2 Hs2. ok_step H alta Halta. ok_step H df3 Hdf3.
  pose proof (loc_step _ _ _ _ _ _ _ _ _ _ _ _ Hdf2 Hsum2 Hs2 Halta Hdf3) as Hrows3.
  clear Hs2 Halta Hdf3.
  set (h3 := λ r, if float_gt (Some (f r)) m
                  then <[group_title := Str "Alta Expressão"]> (h2 r) else h2 r) in Hrows3.
  assert (Hsum3 : ∀ r, h3 r !!! "sum_expression" = Num (f r)).
  { intros r. unfold h3. destruct (float_gt _ _); [|apply Hsum2].
    rewrite lookup_total_insert_ne by done. apply Hsum2. }
  ok_step H s3 Hs3. ok_step H baixa Hbaixa. ok_step H df4 Hdf4.
  pose proof (loc_step _ _ _ _ _ _ _ _ _ _ _ _ Hrows3 Hsum3 Hs3 Hbaixa Hdf4) as Hrows4.
  clear Hs3 Hbaixa Hdf4.
  set (h4 := λ r, if float_lt (Some (f r)) m
                  then <[group_title := Str "Baixa Expressão"]> (h3 r) else h3 r) in Hrows4.
  ok_step H g Hg. apply getitem_Ok in Hg as [_ ->].
  ok_step H df5 Hdf5. apply drop_column_Ok in Hdf5.
  unfold select_rows in Hdf5; cbn [rows] in Hdf5.
  unfold len, select_rows in H; cbn [rows] in H.
  rewrite <- list_fmap_compose, compress_fmap in Hdf5, H.
  rewrite Hrows4, filter_fmap in Hdf5, H. rewrite !length_fmap in H.
  assert (Hfica : ∀ r, negb (cell_is "Excluído" (h4 r !!! group_title)) = fica r).
  { intros r. unfold fica, rotulo_estrito, h4, h3, h2. fold f.
    destruct (float_lt _ _), (float_gt _ _); rewrite ?lookup_total_insert_eq; done. }
  rewrite (filter_ext_bool _ fica) in Hdf5, H by exact Hfica.
  inversion H; subst df5 out; clear H. split; [|done].
  rewrite Hdf5, <- list_fmap_compose. apply list_fmap_ext. intros i r _.
  unfold compose, rotulada, rotulo_estrito, h4, h3, h2; cbn beta.
  destruct (float_lt (Some (f r)) m), (float_gt (Some (f r)) m);
    rewrite ?insert_insert_eq; done.
Qed.

(** Exactly one of [s > m], [s < m], [s == m] holds for a median that is a
    number. *)
Lemma tricotomia (s mq : Q) :
  let gt := float_gt (Some s) (Some mq) in
  let lt := float_lt (Some s) (Some mq) in
  let eq := float_eq (Some s) (Some mq) in
  (gt = true ∧ lt = false ∧ eq = false)
  ∨ (gt = false ∧ lt = true ∧ eq = false)
  ∨ (gt = false ∧ lt = false ∧ eq = true).
Proof.
  simpl. destruct (Q_dec s mq) as [[Hlt|Hgt]|Heq].
  - right; left. repeat split.
    + apply not_true_is_false. rewrite Qlt_bool_iff. intros H.
      exact (Qlt_irrefl _ (Qlt_trans _ _ _ Hlt H)).
    + by apply Qlt_bool_iff.
    + apply not_true_is_false. rewrite Qeq_bool_iff. intros H.
      rewrite H in Hlt. exact (Qlt_irrefl _ Hlt).
  - left. repeat split.
    + by apply Qlt_bool_iff.
    + apply not_true_is_false. rewrite Qlt_bool_iff. intros H.
      exact (Qlt_irrefl _ (Qlt_trans _ _ _ Hgt H)).
    + apply not_true_is_false. rewrite Qeq_bool_iff. intros H.
      rewrite H in Hgt. exact (Qlt_irrefl _ Hgt).
  - right; right. repeat split.
    + apply not_true_is_false. rewrite Qlt_bool_iff. intros H.
      rewrite Heq in H. exact (Qlt_irrefl _ H).
    + apply not_true_is_false. rewrite Qlt_bool_iff. intros H.
      rewrite Heq in H. exact (Qlt_irrefl _ H).
    + by apply Qeq_bool_iff.
Qed.

Lemma rotulo_estrito_cases (s mq : Q) :
  String.eqb (rotulo_estrito s (Some mq)) "Alta Expressão" = float_gt (Some s) (Some mq)
  ∧ String.eqb (rotulo_estrito s (Some mq)) "Baixa Expressão" = float_lt (Some s) (Some mq)
  ∧ String.eqb (rotulo_estrito s (Some mq)) "Excluído" = float_eq (Some s) (Some mq).
Proof.
  unfold rotulo_estrito.
  destruct (tricotomia s mq) as [(-> & -> & ->)|[(-> & -> & ->)|(-> & -> & ->)]];
    repeat split; reflexivity.
Qed.

Lemma filter_filter_bool {A : Type} (p q : A → bool) (l : list A) :
  List.filter p (List.filter q l) = List.filter (λ x, q x && p x) l.
Proof.
  induction l as [|x l IH]; simpl; [done|].
  destruct (q x); simpl; [|done]. destruct (p x); by rewrite IH.
Qed.

Lemma filter_three {A : Type} (p q e : A → bool) (l : list A) :
  (∀ x, (p x = true ∧ q x = false ∧ e x = false)
        ∨ (p x = false ∧ q x = true ∧ e x = false)
        ∨ (p x = false ∧ q x = false ∧ e x = true)) →
  (length (List.filter p l) + length (List.filter q l) + length (List.filter e l)
   = length l)%nat.
Proof.
  intros H. induction l as [|x l IH]; simpl; [done|].
  destruct (H x) as [(-> & -> & ->)|[(-> & -> & ->)|(-> & -> & ->)]]; simpl; lia.
Qed.

Lemma in_cohort_rotulada (title label lbl : string) (s : Q) (r : gmap string cell) :
  title ≠ "sum_expression" →
  in_cohort title label (rotulada title lbl s r) = String.eqb lbl label.
Proof.
  intros Hne. unfold in_cohort, rotulada.
  rewrite lookup_total_delete_ne by done. by rewrite lookup_total_insert_eq.
Qed.

Lemma sum_axis1_Forall (df : DataFrame) (cols : list string) (s : list cell) :
  sum_axis1 df cols = Ok s →
  Forall (λ r, row_sum cols r = Ok (agregado cols r)) (rows df).
Proof.
  intros H. apply traverse_Ok_Forall in H.
  eapply Forall_impl; [exact H|]. intros r [y Hy]. simpl in Hy.
  ok_step Hy q Hq. unfold agregado. by rewrite Hq.
Qed.

Lemma fmap_filter_label {A B : Type} (p : A → bool) (lbl : A → string) (label : string)
    (fin : string → A → B) (l : list A) :
  (∀ r, p r = true → lbl r = label) →
  (λ r, fin (lbl r) r) <$> List.filter p l = (λ r, fin label r) <$> List.filter p l.
Proof.
  intros H. apply list_fmap_ext. intros i r Hr.
  apply list_elem_of_lookup_2, list_elem_of_In, List.filter_In in Hr as [_ Hp].
  by rewrite (H r Hp).
Qed.


Lemma apply_corte_sum (m : option Q) (f : gmap string cell → Q)
    (l : list (gmap string cell)) (g : list cell) :
  apply_corte ((λ r, Num (f r)) <$> l) m = Ok g →
  g = (λ r, Str (rotulo_inclusivo (f r) m)) <$> l.
Proof.
  intros H. apply (traverse_Ok _ NaN) in H. rewrite H, <- list_fmap_compose. done.
Qed.

Lemma sum_column (f : gmap string cell → Q) (l : list (gmap string cell)) :
  (λ r : gmap string cell, r !!! "sum_expression")
  ∘ (λ r : gmap string cell, <["sum_expression" := Num (f r)]> r) <$> l
  = (λ r, Num (f r)) <$> l.
Proof.
  apply list_fmap_ext. intros i r _. simpl. by rewrite lookup_total_insert_eq.
Qed.

Lemma setitem_Ok_base (df df' : DataFrame) (base : list (gmap string cell))
    (h : gmap string cell → gmap string cell) (v : gmap string cell → cell)
    (c : string) :
  rows df = h <$> base →
  setitem df c (v <$> base) = Ok df' →
  rows df' = (λ r, <[c := v r]> (h r)) <$> base.
Proof.
  intros Hrows. unfold setitem. case_bool_decide as Hlen; [|discriminate].
  intros H. inversion H; subst; simpl. rewrite Hrows.
  rewrite zip_with_fmap_l, zip_with_fmap_r. apply zip_with_diag.
Qed.

(** What the three inclusive steps leave: sum column, median, labels *)
Ltac inclusive_steps H cols m Hdf1 :=
  fold cols in H; rewrite match_nil_cons in H;
  destruct (Nat.eqb (length cols) 0); [discriminate|];
  let s0 := fresh "s0" in let H0 := fresh "H0" in
  ok_step H s0 H0; apply sum_axis1_Ok in H0 as ->;
  let df1 := fresh "df1" in
  ok_step H df1 Hdf1; apply setitem_Ok in Hdf1 as [_ Hdf1];
  let s1 := fresh "s1" in let H1 := fresh "H1" in
  ok_step H s1 H1; apply getitem_Ok in H1 as [_ ->];
  rewrite Hdf1, <- list_fmap_compose, sum_column in H;
  rewrite (list_fmap_compose (agregado cols) Num), median_Num in H;
  cbn [bind] in H; fold m in H;
  let s2 := fresh "s2" in let H2 := fresh "H2" in
  ok_step H s2 H2; apply getitem_Ok in H2 as [_ ->];
  rewrite Hdf1, <- list_fmap_compose, sum_column in H;
  let g := fresh "g" in let Hg := fresh "Hg" in
  ok_step H g Hg; apply apply_corte_sum in Hg as ->.

Lemma create_inclusive_clc_rows (df df' : DataFrame) (gene_list : list string)
    (group_title : string) (out : list string) :
  SurvivalPresenceCLC.create_survival_groups df gene_list group_title = Ok (Some df', out) →
  let cols := List.filter (has_column df) gene_list in
  let m := median_Q (agregado cols <$> rows df) in
  rows df' = (λ r, rotulada_com_soma group_title
                     (rotulo_inclusivo (agregado cols r) m) (agregado cols r) r)
             <$> rows df.
Proof.
  intros H cols m. unfold SurvivalPresenceCLC.create_survival_groups in H.
  inclusive_steps H cols m Hdf1.
  ok_step H df2 Hdf2. inversion H; subst df2 out; clear H.
  by apply (setitem_Ok_base _ _ _ _ _ _ Hdf1) in Hdf2.
Qed.

Lemma create_inclusive_recruit_rows (df df' : DataFrame) (gene_list : list string)
    (group_title : string) (out : list string) :
  SurvivalRecruitCCL24.create_survival_groups df gene_list group_title
  = Ok (Some df', out) →
  let cols := List.filter (has_column df) gene_list in
  let m := median_Q (agregado cols <$> rows df) in
  rows df' = (λ r, rotulada group_title
                     (rotulo_inclusivo (agregado cols r) m) (agregado cols r) r)
             <$> rows df.
Proof.
  intros H cols m. unfold SurvivalRecruitCCL24.create_survival_groups in H.
  inclusive_steps H cols m Hdf1.
  ok_step H df2 Hdf2. apply (setitem_Ok_base _ _ _ _ _ _ Hdf1) in Hdf2.
  ok_step H df3 Hdf3. apply drop_column_Ok in Hdf3.
  inversion H; subst df3 out; clear H.
  by rewrite Hdf3, Hdf2, <- list_fmap_compose.
Qed.

Lemma inclusivo_cases (s mq : Q) :
  String.eqb (rotulo_inclusivo s (Some mq)) "Alta Expressão" = float_ge (Some s) (Some mq)
  ∧ String.eqb (rotulo_inclusivo s (Some mq)) "Baixa Expressão"
    = float_lt (Some s) (Some mq)
  ∧ float_lt (Some s) (Some mq) = negb (float_ge (Some s) (Some mq)).
Proof.
  unfold rotulo_inclusivo, float_lt, float_gt, float_ge, Qlt_bool.
  destruct (Qle_bool mq s); repeat split; reflexivity.
Qed.

Lemma in_cohort_com_soma (title label lbl : string) (s : Q) (r : gmap string cell) :
  in_cohort title label (rotulada_com_soma title lbl s r) = String.eqb lbl label.
Proof. unfold in_cohort, rotulada_com_soma. by rewrite lookup_total_insert_eq. Qed.

(** The two cohorts of an inclusive split, for either shape [fin] of the
    returned samples *)
Lemma inclusive_cohorts (title : string)
    (fin : string → Q → gmap string cell → gmap string cell)
    (agg : gmap string cell → Q) (l l' : list (gmap string cell)) :
  (∀ lbl label s r, in_cohort title label (fin lbl s r) = String.eqb lbl label) →
  let m := median_Q (agg <$> l) in
  l' = (λ r, fin (rotulo_inclusivo (agg r) m) (agg r) r) <$> l →
  let High := List.filter (λ r, float_ge (Some (agg r)) m) l in
  let Low := List.filter (λ r, float_lt (Some (agg r)) m) l in
  List.filter (in_cohort title "Alta Expressão") l'
  = (λ r, fin "Alta Expressão" (agg r) r) <$> High
  ∧ List.filter (in_cohort title "Baixa Expressão") l'
    = (λ r, fin "Baixa Expressão" (agg r) r) <$> Low
  ∧ length l' = length l
  ∧ (length High + length Low = length l)%nat.
Proof.
  intros Hfin m Hl' High Low. subst l'.
  destruct m as [mq|] eqn:Em.
  - assert (Hcases := λ r, inclusivo_cases (agg r) mq).
    repeat split.
    + rewrite filter_fmap.
      rewrite (filter_ext_bool _ (λ r, float_ge (Some (agg r)) (Some mq)))
        by (intros r; rewrite Hfin; apply Hcases).
      apply (fmap_filter_label _ _ _ (λ lbl r, fin lbl (agg r) r)).
      intros r Hr. apply String.eqb_eq. by rewrite (proj1 (Hcases r)).
    + rewrite filter_fmap.
      rewrite (filter_ext_bool _ (λ r, float_lt (Some (agg r)) (Some mq)))
        by (intros r; rewrite Hfin; apply Hcases).
      apply (fmap_filter_label _ _ _ (λ lbl r, fin lbl (agg r) r)).
      intros r Hr. apply String.eqb_eq. by rewrite (proj1 (proj2 (Hcases r))).
    + apply length_fmap.
    + rewrite <- (List.filter_length (λ r, float_ge (Some (agg r)) (Some mq)) l).
      reflexivity.
  - apply median_Q_None, fmap_nil_inv in Em. subst High Low. rewrite Em. done.
Qed.

Lemma inclusive_clc_sums (df df' : DataFrame) (gene_list : list string)
    (group_title : string) (out : list string) :
  SurvivalPresenceCLC.create_survival_groups df gene_list group_title = Ok (Some df', out) →
  let cols := List.filter (has_column df) gene_list in
  Forall (λ r, row_sum cols r = Ok (agregado cols r)) (rows df).
Proof.
  intros H cols. unfold SurvivalPresenceCLC.create_survival_groups in H. fold cols in H.
  rewrite match_nil_cons in H. destruct (Nat.eqb (length cols) 0); [discriminate|].
  ok_step H s0 H0. by apply sum_axis1_Forall in H0.
Qed.

Lemma inclusive_recruit_sums (df df' : DataFrame) (gene_list : list string)
    (group_title : string) (out : list string) :
  SurvivalRecruitCCL24.create_survival_groups df gene_list group_title
  = Ok (Some df', out) →
  let cols := List.filter (has_column df) gene_list in
  Forall (λ r, row_sum cols r = Ok (agregado cols r)) (rows df).
Proof.
  intros H cols. unfold SurvivalRecruitCCL24.create_survival_groups in H. fold cols in H.
  rewrite match_nil_cons in H. destruct (Nat.eqb (length cols) 0); [discriminate|].
  ok_step H s0 H0. by apply sum_axis1_Forall in H0.
Qed.




(** ** C10: the Wilson error bar *)

Lemma wilson_n_zero {F : Type} {ar : Arith F} (norm_ppf : F → F) (k : Z) (nivel : F) :
  SampleType.calcular_intervalo_confianca_wilson norm_ppf k 0 nivel = of_int 0.
Proof. reflexivity. Qed.

Lemma wilson_real_unfold (norm_ppf : R → R) (k n : Z) (nivel : R) :
  n ≠ 0%Z →
  SampleType.calcular_intervalo_confianca_wilson norm_ppf k n nivel
  = (IZR k / IZR n
     - wilson_lower_bound (norm_ppf (1 - (1 - nivel) / 2)) (IZR k / IZR n) (IZR n))%R.
Proof.
  intros Hn. unfold SampleType.calcular_intervalo_confianca_wilson, wilson_lower_bound.
  destruct (Z.eqb_spec n 0) as [->|_]; [done|]. simpl.
  rewrite !mult_IZR. reflexivity.
Qed.

Lemma sqrt_quarter (z n : R) :
  (0 <= z)%R → (0 < n)%R → R_sqrt.sqrt (z * z / (4 * n * n)) = (z / (2 * n))%R.
Proof.
  intros Hz Hn.
  replace (z * z / (4 * n * n))%R with ((z / (2 * n)) * (z / (2 * n)))%R by (field; lra).
  apply sqrt_square. apply Rmult_le_pos; [lra|].
  apply Rlt_le, Rinv_0_lt_compat. lra.
Qed.

Lemma wilson_margin_nonneg (z p n : R) :
  (0 <= z)%R → (0 < n)%R → (0 <= p <= 1)%R →
  (0 <= p - wilson_lower_bound z p n)%R.
Proof.
  intros Hz Hn [Hp0 Hp1]. unfold wilson_lower_bound.
  set (t2 := (z * R_sqrt.sqrt (p * (1 - p) / n + z * z / (4 * n * n)))%R).
  assert (Hzn : (0 <= z * z / n)%R).
  { apply Rmult_le_pos; [by apply Rmult_le_pos|]. by apply Rlt_le, Rinv_0_lt_compat. }
  assert (Ht2 : (z * z / (2 * n) <= t2)%R).
  { unfold t2. replace (z * z / (2 * n))%R with (z * (z / (2 * n)))%R by (field; lra).
    apply Rmult_le_compat_l; [done|].
    rewrite <- (sqrt_quarter z n Hz Hn). apply sqrt_le_1_alt.
    assert (0 <= p * (1 - p) / n)%R; [|lra].
    apply Rmult_le_pos; [apply Rmult_le_pos; lra|]. by apply Rlt_le, Rinv_0_lt_compat. }
  assert (Hd : (0 < 1 + z * z / n)%R) by lra.
  assert (Hl : ((p + z * z / (2 * n) - t2) / (1 + z * z / n) <= p)%R); [|lra].
  apply (Rmult_le_reg_r (1 + z * z / n)%R); [done|].
  unfold Rdiv at 1. rewrite Rmult_assoc, Rinv_l, Rmult_1_r by lra.
  assert (0 <= p * (z * z / n))%R by (by apply Rmult_le_pos).
  replace (z * z / (2 * n))%R with (z * z / n / 2)%R in * by (field; lra).
  lra.
Qed.

Lemma wilson_margin_zero (z n : R) :
  (0 <= z)%R → (0 < n)%R → (0 - wilson_lower_bound z 0 n = 0)%R.
Proof.
  intros Hz Hn. unfold wilson_lower_bound.
  replace (0 * (1 - 0) / n + z * z / (4 * n * n))%R with (z * z / (4 * n * n))%R
    by (field; lra).
  rewrite (sqrt_quarter z n Hz Hn). field. split; [lra|].
  assert (0 <= z * z)%R by (by apply Rmult_le_pos). nra.
Qed.

(** C10 (as the code has it).  When [n = 0] the function returns 0.0, in
    the float arithmetic it runs on as in exact arithmetic.  For
    [0 <= k <= n] with [n > 0] and a non-negative normal quantile, the value
    it computes is, in exact real arithmetic, the observed proportion [k/n]
    minus the lower bound of the Wilson interval; that real number is
    non-negative, and it is 0 at [k = 0]. *)
Theorem C10_wilson_margin_exact (norm_ppf : R → R) (k n : Z) (nivel_confianca : R) :
  (0 ≤ k ≤ n)%Z →
  (0 <= norm_ppf (1 - (1 - nivel_confianca) / 2))%R →
  (∀ ppf j nivel,
     SampleType.calcular_intervalo_confianca_wilson (F := float) ppf j 0 nivel = 0%float)
  ∧ (n = 0%Z →
     SampleType.calcular_intervalo_confianca_wilson norm_ppf k n nivel_confianca = 0%R)
  ∧ (n ≠ 0%Z →
     SampleType.calcular_intervalo_confianca_wilson norm_ppf k n nivel_confianca
     = (IZR k / IZR n
        - wilson_lower_bound (norm_ppf (1 - (1 - nivel_confianca) / 2))
            (IZR k / IZR n) (IZR n))%R
     ∧ (0 <= SampleType.calcular_intervalo_confianca_wilson norm_ppf k n nivel_confianca)%R
     ∧ (k = 0%Z →
        SampleType.calcular_intervalo_confianca_wilson norm_ppf k n nivel_confianca = 0%R)).
Proof.
  intros [Hk Hkn] Hz. split; [|split].
  - intros ppf j nivel. reflexivity.
  - intros ->. reflexivity.
  - intros Hn. rewrite (wilson_real_unfold _ _ _ _ Hn).
    assert (Hn' : (0 < IZR n)%R) by (apply IZR_lt; lia).
    split; [reflexivity|]. split.
    + apply wilson_margin_nonneg; [done..|]. split.
      * apply Rmult_le_pos; [by apply IZR_le|]. by apply Rlt_le, Rinv_0_lt_compat.
      * apply (Rmult_le_reg_r (IZR n)); [done|].
        unfold Rdiv. rewrite Rmult_assoc, Rinv_l, Rmult_1_r, Rmult_1_l by lra.
        by apply IZR_le.
    + intros ->. replace (0 / IZR n)%R with 0%R by (field; lra).
      by apply wilson_margin_zero.
Qed.

Lemma C10_witness :
  (0 <= SampleType.calcular_intervalo_confianca_wilson (λ _ : R, 2%R) 3 10 (95 / 100))%R.
Proof.
  refine (proj1 (proj2 (proj2 (proj2
            (C10_wilson_margin_exact (λ _ : R, 2%R) 3 10 (95 / 100)%R _ _)) _))).
  - lia.
  - lra.
  - lia.
Defined.

(** The claim fails in the arithmetic of the code: at [k = 0], [n = 3] and
    the default level, the margin is not 0 but the negative float
    -4.8683609171202235e-17. *)
Lemma C10_counterexample :
  SampleType.calcular_intervalo_confianca_wilson norm_ppf_scipy 0 3 nivel_95
  = (-0x1.c106ec0f3e786p-55)%float
  ∧ PrimFloat.ltb
      (SampleType.calcular_intervalo_confianca_wilson norm_ppf_scipy 0 3 nivel_95) 0
    = true
  ∧ PrimFloat.eqb
      (SampleType.calcular_intervalo_confianca_wilson norm_ppf_scipy 0 3 nivel_95) 0
    = false.
Proof. repeat split; vm_compute; reflexivity. Qed.

(** * Further properties of the scripts *)

(** ** The order of strings *)

Lemma leb_trans (a b c : string) :
  String.leb a b = true → String.leb b c = true → String.leb a c = true.
Proof.
  intros Hab%Is_true_true_2 Hbc%Is_true_true_2. apply Is_true_true_1.
  exact (transitivity (R := String.le) Hab Hbc).
Qed.

Lemma insert_str_perm (x : string) (l : list string) :
  Permutation (S2GenesEos.insert_str x l) (x :: l).
Proof.
  induction l as [|y l IH]; simpl; [done|].
  destruct (String.leb x y); [done|].
  rewrite IH. apply perm_swap.
Qed.

Lemma sorted_perm (l : list string) : Permutation (S2GenesEos.sorted l) l.
Proof.
  induction l as [|x l IH]; simpl; [done|].
  unfold S2GenesEos.sorted in *. simpl. rewrite insert_str_perm. by constructor.
Qed.

Lemma insert_str_sorted (x : string) (l : list string) :
  StronglySorted (λ a b, String.leb a b = true) l →
  StronglySorted (λ a b, String.leb a b = true) (S2GenesEos.insert_str x l).
Proof.
  induction 1 as [|y l Hs IH Hy]; simpl.
  - repeat constructor.
  - destruct (String.leb x y) eqn:E.
    + constructor; [by constructor|]. constructor; [done|].
      eapply Forall_impl; [exact Hy|]. intros z Hz. by eapply leb_trans.
    + constructor; [done|].
      eapply Permutation_Forall; [symmetry; apply insert_str_perm|].
      constructor; [|done].
      destruct (String.leb_total x y) as [H|H]; [congruence|done].
Qed.

Lemma sorted_sorted (l : list string) :
  StronglySorted (λ a b, String.leb a b = true) (S2GenesEos.sorted l).
Proof.
  induction l as [|x l IH]; [constructor|].
  unfold S2GenesEos.sorted in *. simpl. by apply insert_str_sorted.
Qed.

Lemma sorted_unique (l1 l2 : list string) :
  StronglySorted (λ a b, String.leb a b = true) l1 →
  StronglySorted (λ a b, String.leb a b = true) l2 →
  Permutation l1 l2 → l1 = l2.
Proof.
  intros H1. revert l2. induction H1 as [|a l1 Hs1 IH Ha]; intros l2 H2 HP.
  - by apply Permutation_nil_l in HP.
  - destruct H2 as [|b l2 Hs2 Hb].
    + by apply Permutation_nil_r in HP.
    + assert (a = b) as <-.
      { assert (Hab : a = b ∨ String.leb a b = true).
        { assert (Hin : b ∈ a :: l1) by (rewrite HP; left).
          apply elem_of_cons in Hin as [->|Hin]; [by left|right].
          by apply (proj1 (Forall_forall _ _) Ha). }
        assert (Hba : a = b ∨ String.leb b a = true).
        { assert (Hin : a ∈ b :: l2) by (rewrite <- HP; left).
          apply elem_of_cons in Hin as [->|Hin]; [by left|right].
          by apply (proj1 (Forall_forall _ _) Hb). }
        destruct Hab as [->|Hab]; [done|]. destruct Hba as [->|Hba]; [done|].
        by apply String.leb_antisym. }
      f_equal. apply IH; [done|]. by apply Permutation_cons_inv in HP.
Qed.

Lemma sorted_permutation (l1 l2 : list string) :
  Permutation l1 l2 → S2GenesEos.sorted l1 = S2GenesEos.sorted l2.
Proof.
  intros HP. apply sorted_unique; try apply sorted_sorted.
  by rewrite !sorted_perm.
Qed.

Lemma filter_permutation {A : Type} (p : A → bool) (l1 l2 : list A) :
  Permutation l1 l2 → Permutation (List.filter p l1) (List.filter p l2).
Proof.
  induction 1 as [|x l1 l2 _ IH|x y l|l1 l2 l3 _ IH1 _ IH2]; simpl.
  - done.
  - destruct (p x); [by constructor|done].
  - destruct (p x), (p y); try done. apply perm_swap.
  - by etrans.
Qed.

(** X2.  The count and the name of the expression group of a sample do not
    depend on the order in which the genes of interest are listed: the name
    joins the expressed genes in sorted order. *)
Theorem expression_group_canonical (genes genes' : list string) (row : gmap string cell) :
  Permutation genes genes' →
  S2GenesEos.get_expression_group genes row = S2GenesEos.get_expression_group genes' row.
Proof.
  intros HP. unfold S2GenesEos.get_expression_group.
  pose proof (filter_permutation (λ gene, truthy (row !!! (gene +:+ "_expresso"))) _ _ HP) as HF.
  rewrite (Permutation_length HF), (sorted_permutation _ _ HF). done.
Qed.

Lemma expression_group_canonical_witness :
  S2GenesEos.get_expression_group ["IL5RA"; "CLC"]
    {[ "IL5RA_expresso" := Bool true; "CLC_expresso" := Bool true ]}
  = (2, "CLC_IL5RA").
Proof.
  rewrite (expression_group_canonical ["IL5RA"; "CLC"] ["CLC"; "IL5RA"]).
  - vm_compute. reflexivity.
  - apply perm_swap.
Defined.

(** ** split and join *)

Lemma append_cons (x : ascii) (a b : string) : String x a +:+ b = String x (a +:+ b).
Proof. reflexivity. Qed.

Lemma append_assoc (a b c : string) : (a +:+ b) +:+ c = a +:+ (b +:+ c).
Proof. induction a as [|x a IH]; [done|]. by rewrite !append_cons, IH. Qed.

Lemma append_nil_r (a : string) : a +:+ "" = a.
Proof. induction a as [|x a IH]; [done|]. by rewrite append_cons, IH. Qed.

Lemma split_on_sem_char (sep : ascii) (s acc t : string) :
  sem_char sep s = true →
  S2GenesEos.split_on sep acc (s +:+ t) = S2GenesEos.split_on sep (acc +:+ s) t.
Proof.
  revert acc. induction s as [|a s IH]; intros acc H.
  - by rewrite append_nil_r.
  - simpl in H. apply andb_true_iff in H as [Ha Hs]. apply negb_true_iff in Ha.
    rewrite append_cons. simpl. rewrite Ha.
    rewrite (IH _ Hs), append_assoc. done.
Qed.

(** Splitting at a separator undoes joining with it, for pieces that do not
    contain the separator. *)
Lemma split_on_concat (sep : ascii) (x : string) (l : list string) :
  Forall (λ g, sem_char sep g = true) (x :: l) →
  S2GenesEos.split_on sep "" (String.concat (String sep "") (x :: l)) = x :: l.
Proof.
  revert x. induction l as [|y l IH]; intros x H.
  - inversion H; subst. simpl.
    rewrite <- (append_nil_r x) at 1. rewrite split_on_sem_char by done. done.
  - inversion H as [|? ? Hx Hl]; subst.
    change (String.concat (String sep "") (x :: y :: l))
      with (x +:+ String sep (String.concat (String sep "") (y :: l))).
    rewrite split_on_sem_char by done. simpl. rewrite Ascii.eqb_refl.
    f_equal. by apply IH.
Qed.

Lemma split_concat (x : string) (l : list string) :
  Forall (λ g, sem_char "_" g = true) (x :: l) →
  S2GenesEos.split (String.concat "_" (x :: l)) = x :: l.
Proof. apply split_on_concat. Qed.

(** ** s2: the group of a sample *)

Lemma expressed_state_truthy (r r' : gmap string cell) (gene : string) :
  expressed_state r r' gene →
  truthy (r' !!! (gene +:+ "_expresso")) = expresso (r !!! gene).
Proof.
  intros (b & Hb & Hiff). rewrite (lookup_total_correct _ _ _ Hb). simpl.
  rewrite <- expresso_positive in Hiff.
  destruct b, (expresso (r !!! gene)); try done.
  - symmetry. by apply Hiff.
  - by apply Hiff.
Qed.

Lemma Forall2_fmap_eq {A B C : Type} (g : B → C) (h : A → C) (l : list A) (k : list B) :
  Forall2 (λ x y, g y = h x) l k → g <$> k = h <$> l.
Proof. induction 1 as [|x y l k Hxy _ IH]; csimpl; [done|]. by rewrite Hxy, IH. Qed.

(** X3.  After the loop of [binary_cols], [get_expression_group] gives for
    every sample the number of present genes of interest whose expression
    value is greater than zero, and the names of those genes, sorted and
    joined by [_]; 'Nenhum' exactly when there is none. *)
Theorem expression_group_of_sample (df df' : DataFrame) (cols : list string) :
  S2GenesEos.binary_cols (S2GenesEos.genes_presentes df) df = Ok (df', cols) →
  Forall2 (λ r r',
      let E := genes_expressos (S2GenesEos.genes_presentes df) r in
      S2GenesEos.get_expression_group (S2GenesEos.genes_presentes df) r'
      = (length E, match E with
                   | [] => "Nenhum"
                   | _ :: _ => String.concat "_" (S2GenesEos.sorted E)
                   end))
    (rows df) (rows df').
Proof.
  intros H. apply binary_cols_state in H.
  eapply Forall2_impl; [exact H|]. intros r r' Hst. cbv zeta.
  unfold S2GenesEos.get_expression_group, genes_expressos.
  rewrite (List.filter_ext_in _ (λ gene, expresso (r !!! gene))).
  - by destruct (List.filter _ _).
  - intros gene Hin. apply expressed_state_truthy, Hst. by apply list_elem_of_In.
Qed.

Lemma expression_group_of_sample_witness :
  ∃ df' cols,
    S2GenesEos.binary_cols (S2GenesEos.genes_presentes tabela_eos) tabela_eos = Ok (df', cols)
    ∧ (S2GenesEos.get_expression_group (S2GenesEos.genes_presentes tabela_eos)
         <$> rows df')
      = [(4%nat, "CLC_EPX_IL5RA_PRG2"); (0%nat, "Nenhum");
         (2%nat, "IL5RA_PRG2"); (1%nat, "EPX")].
Proof.
  assert (Hok : is_ok (S2GenesEos.binary_cols (S2GenesEos.genes_presentes tabela_eos)
                         tabela_eos) = true) by (vm_compute; reflexivity).
  destruct (S2GenesEos.binary_cols (S2GenesEos.genes_presentes tabela_eos) tabela_eos)
    as [[df' cols]|e] eqn:E; [|discriminate Hok].
  exists df', cols. split; [reflexivity|].
  rewrite (Forall2_fmap_eq _ _ _ _ (expression_group_of_sample tabela_eos df' cols E)).
  vm_compute. reflexivity.
Defined.

(** X4.  For a sample that expresses at least one gene, [group_name.split('_')]
    gives back the genes the sample expresses, sorted, and as many of them
    as [contagem_genes_expressos] says, provided no gene name contains [_]. *)
Theorem group_name_split (genes : list string) (row : gmap string cell) :
  Forall (λ gene, sem_char "_" gene = true) genes →
  (S2GenesEos.get_expression_group genes row).1 ≠ 0%nat →
  S2GenesEos.split (S2GenesEos.get_expression_group genes row).2
  = S2GenesEos.sorted
      (List.filter (λ gene, truthy (row !!! (gene +:+ "_expresso"))) genes)
  ∧ length (S2GenesEos.split (S2GenesEos.get_expression_group genes row).2)
    = (S2GenesEos.get_expression_group genes row).1.
Proof.
  intros Hg Hc. unfold S2GenesEos.get_expression_group in *. cbn [fst snd] in *.
  set (E := List.filter _ genes) in *.
  destruct (Nat.eqb_spec (length E) 0) as [Hz|Hz]; [done|].
  assert (HE : Forall (λ gene, sem_char "_" gene = true) (S2GenesEos.sorted E)).
  { eapply Permutation_Forall; [symmetry; apply sorted_perm|].
    apply Forall_forall. intros g Hin.
    apply list_elem_of_In, List.filter_In in Hin as [Hin _].
    apply (proj1 (Forall_forall _ _) Hg). by apply list_elem_of_In. }
  assert (Hlen : length (S2GenesEos.sorted E) = length E)
    by (apply Permutation_length, sorted_perm).
  destruct (S2GenesEos.sorted E) as [|x l] eqn:Es; [simpl in Hlen; lia|].
  rewrite split_concat by done. split; [done|]. by rewrite Hlen.
Qed.

Lemma group_name_split_witness :
  S2GenesEos.split
    (S2GenesEos.get_expression_group S2GenesEos.genes_of_interest
       (amostra [("PRG2_expresso", Bool true); ("EPX_expresso", Bool false);
                 ("CLC_expresso", Bool true); ("IL5RA_expresso", Bool false)])).2
  = ["CLC"; "PRG2"].
Proof.
  refine (eq_trans (proj1 (group_name_split S2GenesEos.genes_of_interest
            (amostra [("PRG2_expresso", Bool true); ("EPX_expresso", Bool false);
                      ("CLC_expresso", Bool true); ("IL5RA_expresso", Bool false)]) _ _)) _).
  - repeat constructor.
  - vm_compute. discriminate.
  - vm_compute. reflexivity.
Defined.

(** ** s2: the rows of the Cox analysis *)

Lemma find_none_all {A : Type} (p : A → bool) (l : list A) :
  Forall (λ x, p x = false) l → List.find p l = None.
Proof. induction 1 as [|x l Hx _ IH]; simpl; [done|]. by rewrite Hx. Qed.

Lemma select_columns_total (df : DataFrame) (cols : list string) :
  Forall (λ c, has_column df c = true) cols →
  ∃ df', S2GenesEos.select_columns df cols = Ok df'.
Proof.
  intros H. unfold S2GenesEos.select_columns. rewrite find_none_all; [by eexists|].
  eapply Forall_impl; [exact H|]. intros c ->. done.
Qed.

Lemma dropna_total (df : DataFrame) (cs : list string) :
  Forall (λ c, has_column df c = true) cs → ∃ df', dropna df cs = Ok df'.
Proof.
  intros H. unfold dropna. rewrite find_none_all; [by eexists|].
  eapply Forall_impl; [exact H|]. intros c ->. done.
Qed.

Lemma eventos_tabela_cox (group_df : DataFrame) (gene : string) :
  (λ r : gmap string cell, r !!! S2GenesEos.col_evento) <$> rows (tabela_cox group_df gene)
  = (λ r : gmap string cell, r !!! S2GenesEos.col_evento) <$> validas_cox group_df gene.
Proof.
  unfold tabela_cox. cbn [rows]. rewrite <- list_fmap_compose.
  apply list_fmap_ext. intros i r _. simpl. apply lookup_total_select. set_solver.
Qed.

(** The reading of the table the loop body starts with, when the three
    columns are there: the guard on the data is the one of the claim C7. *)
Lemma linha_cox_suficiente (st : Stats) (group_name : string) (group_df : DataFrame)
    (gene : string) :
  has_column group_df S2GenesEos.col_tempo = true →
  has_column group_df S2GenesEos.col_evento = true →
  has_column group_df gene = true →
  Forall binario ((λ r : gmap string cell, r !!! S2GenesEos.col_evento)
                    <$> validas_cox group_df gene) →
  (10 < length (validas_cox group_df gene))%nat →
  (2 ≤ eventos ((λ r : gmap string cell, r !!! S2GenesEos.col_evento)
                  <$> validas_cox group_df gene))%nat →
  S2GenesEos.linha_cox st group_name group_df gene
  = Ok (Some
      match cox_ph_fit st (tabela_cox group_df gene)
              S2GenesEos.col_tempo S2GenesEos.col_evento gene with
      | Ok (p, hr, lo, hi) =>
          {| S2GenesEos.grupo_expressao := group_name; S2GenesEos.gene_analisado := gene;
             S2GenesEos.valor := Some p; S2GenesEos.hazard_ratio := Some hr;
             S2GenesEos.hr_ic95 := S2GenesEos.IC lo hi |}
      | Raise e =>
          {| S2GenesEos.grupo_expressao := group_name; S2GenesEos.gene_analisado := gene;
             S2GenesEos.valor := None; S2GenesEos.hazard_ratio := None;
             S2GenesEos.hr_ic95 := S2GenesEos.Texto (exn_str e) |}
      end).
Proof.
  intros Ht He Hg Hb Hn Hev. unfold S2GenesEos.linha_cox. rewrite Ht, He. cbn [andb].
  destruct (select_columns_total group_df
              [S2GenesEos.col_tempo; S2GenesEos.col_evento; gene]) as [df1 H1].
  { repeat constructor; done. }
  rewrite H1. cbn [bind].
  destruct (dropna_total df1 (columns df1)) as [df2 H2].
  { pose proof H1 as H1'. apply select_columns_Ok in H1' as [C1 _].
    apply Forall_forall. intros c Hc. by apply bool_decide_eq_true. }
  rewrite H2. cbn [bind].
  pose proof (linha_cox_df_cox _ _ _ _ H1 H2) as ->.
  replace (len (tabela_cox group_df gene)) with (length (validas_cox group_df gene))
    by (unfold len, tabela_cox; cbn [rows]; by rewrite length_fmap).
  apply Nat.ltb_lt in Hn. rewrite Hn.
  assert (Hge : getitem (tabela_cox group_df gene) S2GenesEos.col_evento
                = Ok ((λ r : gmap string cell, r !!! S2GenesEos.col_evento)
                        <$> validas_cox group_df gene)).
  { unfold getitem. rewrite eventos_tabela_cox.
    assert (has_column (tabela_cox group_df gene) S2GenesEos.col_evento = true) as ->; [|done].
    unfold has_column, tabela_cox. cbn [columns]. apply bool_decide_eq_true. set_solver. }
  rewrite Hge. cbn [bind].
  destruct (foldl_add_binario _ 0 Hb) as (xs & Hxs & Hsum).
  assert (Hs : series_sum ((λ r : gmap string cell, r !!! S2GenesEos.col_evento)
                             <$> validas_cox group_df gene) = Ok (foldl add_skipna 0%Q xs)).
  { unfold series_sum. by rewrite Hxs. }
  rewrite Hs. cbn [bind].
  rewrite (proj2 (suficiente_binario _ _ Hb Hs) Hev).
  by destruct (cox_ph_fit st _ _ _ _) as [[[[p hr] lo] hi]|e].
Qed.

(** X5.  An exception of the Cox fit does not leave the loop: with enough
    data (more than 10 valid samples, at least 2 events), the entry of the
    group and gene is appended with no p-value, no hazard ratio, and the text
    of the exception in place of the confidence interval. *)
Theorem cox_exception_recorded (st : Stats) (group_name : string) (group_df : DataFrame)
    (gene : string) (e : exn) :
  has_column group_df S2GenesEos.col_tempo = true →
  has_column group_df S2GenesEos.col_evento = true →
  has_column group_df gene = true →
  Forall binario ((λ r : gmap string cell, r !!! S2GenesEos.col_evento)
                    <$> validas_cox group_df gene) →
  (10 < length (validas_cox group_df gene))%nat →
  (2 ≤ eventos ((λ r : gmap string cell, r !!! S2GenesEos.col_evento)
                  <$> validas_cox group_df gene))%nat →
  cox_ph_fit st (tabela_cox group_df gene) S2GenesEos.col_tempo S2GenesEos.col_evento gene
  = Raise e →
  S2GenesEos.linha_cox st group_name group_df gene
  = Ok (Some {| S2GenesEos.grupo_expressao := group_name;
                S2GenesEos.gene_analisado := gene;
                S2GenesEos.valor := None; S2GenesEos.hazard_ratio := None;
                S2GenesEos.hr_ic95 := S2GenesEos.Texto (exn_str e) |}).
Proof.
  intros Ht He Hg Hb Hn Hev Hcox.
  rewrite (linha_cox_suficiente st group_name group_df gene Ht He Hg Hb Hn Hev).
  by rewrite Hcox.
Qed.

Lemma cox_exception_recorded_witness :
  S2GenesEos.linha_cox stats_cox_falha "CLC" grupo_clc "CLC"
  = Ok (Some {| S2GenesEos.grupo_expressao := "CLC"; S2GenesEos.gene_analisado := "CLC";
                S2GenesEos.valor := None; S2GenesEos.hazard_ratio := None;
                S2GenesEos.hr_ic95 :=
                  S2GenesEos.Texto "Convergence halted due to matrix inversion problems." |}).
Proof.
  apply (cox_exception_recorded stats_cox_falha "CLC" grupo_clc "CLC"
           (ValueError "Convergence halted due to matrix inversion problems.")).
  - vm_compute. reflexivity.
  - vm_compute. reflexivity.
  - vm_compute. reflexivity.
  - apply Forall_forall. intros c Hc. apply binario_bool.
    revert c Hc. apply Forall_forall. apply Forall_fold_right. vm_compute. tauto.
  - vm_compute. lia.
  - vm_compute. lia.
  - reflexivity.
Defined.

Lemma omap_id_all_None {A : Type} (l : list (option A)) :
  Forall (λ o, o = None) l → omap id l = [].
Proof. induction 1 as [|o l -> _ IH]; [done|]. exact IH. Qed.

(** X6.  When the table has no survival time column or no event column, the
    Cox loop appends nothing: [results_continua] stays empty, whatever the
    groups and their genes are. *)
Theorem cox_skipped_without_survival_columns (st : Stats) (df_merged : DataFrame)
    (ls : list S2GenesEos.linha) :
  has_column df_merged S2GenesEos.col_tempo = false
  ∨ has_column df_merged S2GenesEos.col_evento = false →
  S2GenesEos.results_continua st df_merged = Ok ls →
  ls = [].
Proof.
  intros Hcol H. unfold S2GenesEos.results_continua in H.
  ok_step H cnt Hcnt. ok_step H msk Hmsk. ok_step H g Hg.
  ok_step H keys Hkeys. ok_step H lss Hlss. inversion H; subst ls; clear H.
  apply omap_id_all_None, Forall_forall. intros o Ho.
  apply list_elem_of_In, in_concat in Ho as (lk & Hlk & Hin).
  apply traverse_Ok_Forall2 in Hlss. apply list_elem_of_In in Hlk, Hin.
  destruct (Forall2_elem_of_r _ _ _ _ Hlss Hlk) as (key & _ & Hkey).
  unfold S2GenesEos.grupo_cox in Hkey. destruct key as [| |group_name|]; try discriminate.
  apply traverse_Ok_Forall2 in Hkey.
  destruct (Forall2_elem_of_r _ _ _ _ Hkey Hin) as (gene & _ & Hlinha).
  unfold S2GenesEos.linha_cox in Hlinha.
  change (has_column (select_rows (select_rows df_merged msk) _) ?c)
    with (has_column df_merged c) in Hlinha.
  destruct Hcol as [Hc|Hc]; rewrite Hc in Hlinha; rewrite ?andb_false_r in Hlinha;
    cbn [andb] in Hlinha; by inversion Hlinha.
Qed.

Lemma cox_skipped_without_survival_columns_witness :
  S2GenesEos.results_continua stats_de_teste tabela_sem_tempo = Ok [].
Proof.
  assert (Hok : is_ok (S2GenesEos.results_continua stats_de_teste tabela_sem_tempo) = true)
    by (vm_compute; reflexivity).
  destruct (S2GenesEos.results_continua stats_de_teste tabela_sem_tempo) as [ls|e] eqn:E;
    [|discriminate Hok].
  f_equal.
  apply (cox_skipped_without_survival_columns stats_de_teste tabela_sem_tempo ls);
    [left; vm_compute; reflexivity | exact E].
Defined.

(** ** [np.sort] keeps the values *)

Lemma insert_sorted_perm (c : cell) (l l' : list cell) :
  insert_sorted c l = Ok l' → Permutation l' (c :: l).
Proof.
  revert l'. induction l as [|d l IH]; intros l' H; simpl in H.
  - by inversion H.
  - ok_step H b Hb. destruct b.
    + ok_step H r Hr. inversion H; subst. rewrite (IH _ Hr). apply perm_swap.
    + by inversion H.
Qed.

Lemma np_sort_perm (l l' : list cell) : np_sort l = Ok l' → Permutation l' l.
Proof.
  revert l'. induction l as [|c l IH]; intros l' H; simpl in H.
  - by inversion H.
  - ok_step H r Hr. apply insert_sorted_perm in H. rewrite H. constructor. by apply IH.
Qed.

Lemma filter_notna_valid (df : DataFrame) (col : string) :
  List.filter (λ c, negb (isna c))
    ((λ r : gmap string cell, r !!! col) <$> amostras_validas df col)
  = (λ r : gmap string cell, r !!! col) <$> amostras_validas df col.
Proof.
  rewrite filter_fmap. f_equal.
  apply List.forallb_filter_id, forallb_forall. intros r Hr.
  unfold amostras_validas in Hr. apply List.filter_In in Hr as [Hr _].
  apply List.filter_In in Hr as [_ Hr]. cbn [forallb] in Hr.
  apply andb_true_iff in Hr as [_ Hr]. apply andb_true_iff in Hr as [_ Hr].
  by apply andb_true_iff in Hr as [Hr _].
Qed.

(** What [plotar_sobrevida] returns and prints when it draws a figure *)
Lemma plotar_sobrevida_figura (st : Stats) (df : DataFrame) (col titulo : string)
    (f : figura) (out : list string) :
  S3Survival.plotar_sobrevida st df col titulo = Ok (Some f, out) →
  let validas := amostras_validas df col in
  let g : list cell := (λ r : gmap string cell, r !!! col) <$> validas in
  let T : list cell := (λ r : gmap string cell, r !!! S3Survival.COL_TEMPO) <$> validas in
  let E : list cell := (λ r : gmap string cell, r !!! S3Survival.COL_EVENTO) <$> validas in
  ∃ meses gu, series_div T (3044 # 100) = Ok meses
    ∧ np_sort (unique g) = Ok gu
    ∧ (2 ≤ length gu)%nat
    ∧ p_valor f = (S3Survival.teste_logrank st meses E g gu).1
    ∧ curvas f = S3Survival.curvas_km g gu
    ∧ out = ["Gerando gráfico: " +:+ titulo] ++ (S3Survival.teste_logrank st meses E g gu).2.
Proof.
  unfold S3Survival.plotar_sobrevida. intros H.
  ok_step H df1 H1. apply dropna_Ok in H1 as [C1 R1].
  ok_step H g0 Hg0. apply getitem_Ok in Hg0 as [_ ->].
  set (df2 := select_rows df1 _) in H.
  assert (R2 : rows df2 = amostras_validas df col).
  { unfold df2, amostras_validas. rewrite select_rows_ignorar, R1. done. }
  clearbody df2.
  ok_step H g Hg. apply getitem_Ok in Hg as [_ ->].
  destruct (empty df2 || Nat.ltb (nunique _) 2) eqn:Hguard; [discriminate|].
  apply orb_false_iff in Hguard as [_ Hlt]. apply Nat.ltb_ge in Hlt.
  ok_step H t Ht. apply getitem_Ok in Ht as [_ ->].
  ok_step H meses Hm.
  ok_step H E HE. apply getitem_Ok in HE as [_ ->].
  ok_step H grupos Hgr. apply getitem_Ok in Hgr as [_ ->].
  ok_step H gu Hgu. rewrite R2 in *.
  destruct (S3Survival.teste_logrank _ _ _ _ _) as [p err] eqn:Ep.
  inversion H; subst; clear H. cbv zeta.
  exists meses, gu. rewrite Ep. repeat split; try done.
  unfold nunique in Hlt. rewrite filter_notna_valid in Hlt.
  by rewrite (Permutation_length (np_sort_perm _ _ Hgu)).
Qed.

Lemma teste_logrank_falha (st : Stats) (T E grupos gu : list cell) (e : exn) :
  (∀ a b c d, logrank_test st a b c d = Raise e) →
  (∀ a b c, multivariate_logrank_test st a b c = Raise e) →
  (2 ≤ length gu)%nat →
  S3Survival.teste_logrank st T E grupos gu
  = (99 # 100, ["  -> Erro no teste estatístico (logrank_test): " +:+ exn_str e]).
Proof.
  intros Hl Hm Hlen. unfold S3Survival.teste_logrank.
  destruct gu as [|a [|b [|c gu]]]; simpl in Hlen; try lia.
  - by rewrite Hl.
  - by rewrite Hm.
Qed.



(** ** [plotar_pam50]: what the [try] does not catch, and the guard *)

(** The steps of [plotar_pam50] up to the guard on the data *)
Ltac pam50_ate_guarda Hp Hc :=
  rewrite (dropna_two _ _ _ Hp Hc); cbn [bind];
  rewrite getitem_has by exact Hc; cbn [bind rows];
  rewrite select_rows_not; cbn [columns rows];
  rewrite getitem_has by exact Hp; cbn [bind rows];
  match goal with
  | |- context [if existsb _ (_ <$> ?l) then (_, ?o ++ _) else _] =>
      let out := fresh "out" in
      let Hplot := fresh "Hplot" in
      destruct (remove_normal _ _ _ o l eq_refl) as [out Hplot];
      rewrite Hplot; clear Hplot
  end;
  rewrite getitem_has by exact Hp; cbn [bind rows];
  unfold empty, len; cbn [rows columns].

(** X8.  The [try] of [plotar_pam50] catches ValueError only: any other
    exception of [chi2_contingency] leaves the function, in
    s3_mamanalysis_survival.py and in s3_mamanalysis_manutenção.py. *)
Theorem chi2_other_exception_propagates (st : Stats) (df : DataFrame)
    (col titulo : string) (t : list (list nat)) (e : exn) :
  has_column df "PAM50Call_RNAseq" = true →
  has_column df col = true →
  (1 ≤ length (amostras_pam50 "PAM50Call_RNAseq" col df))%nat →
  (2 ≤ nunique ((λ r : gmap string cell, r !!! "PAM50Call_RNAseq")
                  <$> amostras_pam50 "PAM50Call_RNAseq" col df))%nat →
  crosstab ((λ r : gmap string cell, r !!! col)
              <$> amostras_pam50 "PAM50Call_RNAseq" col df)
           ((λ r : gmap string cell, r !!! "PAM50Call_RNAseq")
              <$> amostras_pam50 "PAM50Call_RNAseq" col df) = Ok t →
  chi2_contingency st t = Raise e →
  (∀ msg, e ≠ ValueError msg) →
  S3Survival.plotar_pam50 st df col titulo = Raise e
  ∧ S3Manutencao.plotar_pam50 st df col titulo = Raise e.
Proof.
  intros Hp Hc Hne Hnu Ht He Hnv. apply length_pos_nonempty in Hne.
  split.
  - unfold S3Survival.plotar_pam50. change S3Survival.COL_PAM50 with "PAM50Call_RNAseq".
    pam50_ate_guarda Hp Hc.
    rewrite (length_nonempty _ Hne), (has_column_nonempty _ _ Hp).
    rewrite (proj2 (Nat.ltb_ge _ _) Hnu); cbn [orb].
    rewrite !getitem_has by assumption; cbn [bind rows].
    rewrite Ht; cbn [bind]. unfold S3Survival.teste_chi2. rewrite He.
    destruct e; try done. by destruct (Hnv msg).
  - unfold S3Manutencao.plotar_pam50. change S3Manutencao.COL_PAM50 with "PAM50Call_RNAseq".
    pam50_ate_guarda Hp Hc.
    rewrite (length_nonempty _ Hne), (has_column_nonempty _ _ Hp).
    rewrite (proj2 (Nat.ltb_ge _ _) Hnu); cbn [orb].
    rewrite !getitem_has by assumption; cbn [bind rows].
    rewrite Ht; cbn [bind]. unfold S3Manutencao.teste_chi2. rewrite He.
    destruct e; try done. by destruct (Hnv msg).
Qed.


Lemma chi2_other_exception_propagates_witness :
  S3Survival.plotar_pam50 stats_chi2_tipo tabela_eos_grupos "grupo_CLC_vs_Nao" "PAM50"
  = Raise (TypeError "chi2_contingency").
Proof.
  refine (proj1 (chi2_other_exception_propagates stats_chi2_tipo tabela_eos_grupos
                   "grupo_CLC_vs_Nao" "PAM50" [[0; 1; 0]; [1; 1; 1]]%nat
                   (TypeError "chi2_contingency") _ _ _ _ _ _ _)).
  - vm_compute. reflexivity.
  - vm_compute. reflexivity.
  - vm_compute. lia.
  - vm_compute. lia.
  - vm_compute. reflexivity.
  - reflexivity.
  - discriminate.
Defined.


(** ** Steps that cannot fail *)

Lemma traverse_total {A B : Type} (f : A → result B) (l : list A) :
  Forall (λ x, ∃ y, f x = Ok y) l → ∃ l', traverse f l = Ok l'.
Proof.
  induction 1 as [|x l [y Hy] _ [l' IH]]; simpl; [by eexists|].
  rewrite Hy, IH. by eexists.
Qed.

Lemma setitem_total (df : DataFrame) (c : string) (s : list cell) :
  length s = len df →
  setitem df c s
  = Ok {| columns := add_column (columns df) c;
          rows := zip_with (λ (r : gmap string cell) v, <[c:=v]> r) (rows df) s |}.
Proof. intros H. unfold setitem. by rewrite bool_decide_eq_true_2. Qed.

Lemma has_column_add_self (cols : list string) (rs : list (gmap string cell)) (c : string) :
  has_column {| columns := add_column cols c; rows := rs |} c = true.
Proof.
  unfold has_column, add_column; simpl. apply bool_decide_eq_true.
  case_bool_decide; [done|]. set_solver.
Qed.

Lemma has_column_add_mono (cols : list string) (rs rs' : list (gmap string cell))
    (c k : string) :
  has_column {| columns := cols; rows := rs |} k = true →
  has_column {| columns := add_column cols c; rows := rs' |} k = true.
Proof.
  unfold has_column, add_column; simpl. intros H%bool_decide_eq_true.
  apply bool_decide_eq_true. case_bool_decide; set_solver.
Qed.

Lemma assign_expresso_total (df : DataFrame) (gene : string) :
  has_column df gene = true →
  Forall (λ r : gmap string cell, numerica (r !!! gene)) (rows df) →
  ∃ df', assign_expresso df gene = Ok df'.
Proof.
  intros Hc Hn. unfold assign_expresso. rewrite getitem_has by done. cbn [bind].
  destruct (traverse_total (λ c, do x <- to_float ">" c;; Ok (float_gt x (Some 0%Q)))
              ((λ r : gmap string cell, r !!! gene) <$> rows df)) as [b Hb].
  { apply Forall_fmap. eapply Forall_impl; [exact Hn|]. intros r Hr. unfold compose. cbn beta in *.
    match type of Hr with numerica ?c => destruct c end; simpl in *; try done;
      eexists; reflexivity. }
  unfold series_gt. rewrite Hb. cbn [bind].
  rewrite setitem_total; [by eexists|].
  apply (traverse_Ok _ false) in Hb. subst b. unfold len. by rewrite !length_fmap.
Qed.

(** What a write of a column of booleans keeps *)
Lemma assign_expresso_keeps (df df' : DataFrame) (gene : string) :
  assign_expresso df gene = Ok df' →
  len df' = len df
  ∧ has_column df' (gene +:+ "_expresso") = true
  ∧ coluna_bool df' (gene +:+ "_expresso")
  ∧ (∀ k, has_column df k = true → has_column df' k = true)
  ∧ (∀ k, coluna_bool df k → coluna_bool df' k)
  ∧ (∀ genes, genes_numericos genes df → genes_numericos genes df').
Proof.
  intros H. apply assign_expresso_Ok in H as (_ & C & R).
  destruct df as [cols rs], df' as [cols' rs']; simpl in *. subst cols' rs'.
  unfold len, coluna_bool, genes_numericos; cbn [rows].
  split; [by rewrite length_fmap|].
  split; [apply has_column_add_self|].
  split.
  { apply Forall_fmap, Forall_forall. intros r _. simpl.
    rewrite lookup_total_insert_eq. by eexists. }
  split; [intros k; apply has_column_add_mono|].
  split.
  - intros k Hk. apply Forall_fmap. eapply Forall_impl; [exact Hk|].
    intros r [b Hb]. simpl.
    destruct (decide (gene +:+ "_expresso" = k)) as [<-|Hne].
    + rewrite lookup_total_insert_eq. by eexists.
    + rewrite lookup_total_insert_ne by done. by eexists.
  - intros genes Hg. apply Forall_fmap. eapply Forall_impl; [exact Hg|].
    intros r Hr. simpl. eapply Forall_impl; [exact Hr|]. intros g Hgn. simpl in Hgn.
    destruct (decide (gene +:+ "_expresso" = g)) as [<-|Hne].
    + by rewrite lookup_total_insert_eq.
    + by rewrite lookup_total_insert_ne.
Qed.

Lemma colunas_expresso_total (genes : list string) (df : DataFrame) (todos : list string) :
  Forall (λ gene, has_column df gene = true) genes →
  genes_numericos todos df → genes ⊆ todos →
  ∃ df', S3Survival.colunas_expresso genes df = Ok (inl df')
    ∧ len df' = len df
    ∧ (∀ gene, gene ∈ genes →
         has_column df' (gene +:+ "_expresso") = true
         ∧ coluna_bool df' (gene +:+ "_expresso"))
    ∧ (∀ k, has_column df k = true → has_column df' k = true)
    ∧ (∀ k, coluna_bool df k → coluna_bool df' k).
Proof.
  revert df. induction genes as [|g genes IH]; intros df Hc Hn Hsub.
  - exists df. split; [done|]. split; [done|]. split; [|done].
    intros gene Hin. by apply elem_of_nil in Hin.
  - inversion Hc as [|? ? Hg Hc']; subst. simpl. rewrite Hg.
    destruct (assign_expresso_total df g Hg) as [df1 H1].
    { eapply Forall_impl; [exact Hn|]. intros r Hr.
      apply (proj1 (Forall_forall _ _) Hr). apply Hsub. left. }
    rewrite H1. cbn [bind].
    destruct (assign_expresso_keeps _ _ _ H1) as (L1 & Hs1 & Hb1 & Hm1 & Hbm1 & Hn1).
    destruct (IH df1) as (df' & H' & L' & Hg' & Hm' & Hbm').
    { eapply Forall_impl; [exact Hc'|]. intros k. apply Hm1. }
    { by apply Hn1. }
    { intros x Hx. apply Hsub. by right. }
    exists df'. split; [done|]. split; [congruence|]. split; [|split].
    + intros gene Hin. apply elem_of_cons in Hin as [->|Hin]; [|by apply Hg'].
      split; [by apply Hm'|by apply Hbm'].
    + intros k Hk. by apply Hm', Hm1.
    + intros k Hk. by apply Hbm', Hbm1.
Qed.

Lemma series_and_total (s t : list cell) :
  Forall (λ c, ∃ b : bool, c = Bool b) s → Forall (λ c, ∃ b : bool, c = Bool b) t →
  length s = length t →
  ∃ r, series_and s t = Ok r
       ∧ Forall (λ c, ∃ b : bool, c = Bool b) r ∧ length r = length s.
Proof.
  intros Hs. revert t. induction Hs as [|a s [x ->] _ IH]; intros t Ht Hlen.
  - exists []. by destruct t.
  - destruct Ht as [|b t [y ->] Ht]; [discriminate|].
    destruct (IH t Ht) as (r & Hr & Hb & Hl); [by inversion Hlen|].
    exists (Bool (x && y) :: r). simpl. rewrite Hr. simpl.
    repeat split; [|by f_equal]. constructor; [by eexists|done].
Qed.

Lemma coluna_bool_series (df : DataFrame) (k : string) :
  coluna_bool df k →
  Forall (λ c, ∃ b : bool, c = Bool b) ((λ r : gmap string cell, r !!! k) <$> rows df).
Proof. intros H. by apply Forall_fmap. Qed.

Lemma grupo_np_where_total (df : DataFrame) (coluna origem sim nao : string) :
  has_column df origem = true →
  ∃ df', S3Survival.grupo_np_where df coluna origem sim nao = Ok df'
    ∧ len df' = len df
    ∧ (∀ k, has_column df k = true → has_column df' k = true).
Proof.
  intros Hc. unfold S3Survival.grupo_np_where. rewrite getitem_has by done. cbn [bind].
  rewrite setitem_total by (unfold np_where, len; by rewrite !length_fmap).
  eexists. split; [done|]. split.
  - unfold len. cbn [rows]. rewrite length_zip_with_l_eq; [done|].
    unfold np_where. by rewrite !length_fmap.
  - intros k. destruct df. apply has_column_add_mono.
Qed.

(** X10.  When the four genes of interest are columns of numbers,
    [definir_grupos_comparacao] returns the table with its groups: it neither
    raises nor returns None, prints its first line only, and every sample, in
    its place, gets the columns computed from its own expression values. *)
Theorem definir_grupos_total (df : DataFrame) :
  Forall (λ gene, has_column df gene = true) S3Survival.GENES_INTERESSE →
  genes_numericos S3Survival.GENES_INTERESSE df →
  ∃ df', S3Survival.definir_grupos_comparacao df
         = Ok (Some df', ["Definindo grupos de comparação..."])
    ∧ rows df' = grupos_da_amostra <$> rows df.
Proof.
  intros Hc Hn.
  destruct (colunas_expresso_total S3Survival.GENES_INTERESSE df S3Survival.GENES_INTERESSE
              Hc Hn) as (df4 & H4 & L4 & Hg4 & Hm4 & _); [done|].
  assert (Hdef : ∃ df', S3Survival.definir_grupos_comparacao df
                        = Ok (Some df', ["Definindo grupos de comparação..."])).
  { unfold S3Survival.definir_grupos_comparacao. rewrite H4. cbn [bind].
    pose proof (Hg4 "PRG2" ltac:(repeat constructor)) as [C1 B1].
    pose proof (Hg4 "EPX" ltac:(repeat constructor)) as [C2 B2].
    pose proof (Hg4 "CLC" ltac:(repeat constructor)) as [C3 B3].
    pose proof (Hg4 "IL5RA" ltac:(repeat constructor)) as [C4 B4].
    change ("PRG2" +:+ "_expresso") with "PRG2_expresso" in *.
    change ("EPX" +:+ "_expresso") with "EPX_expresso" in *.
    change ("CLC" +:+ "_expresso") with "CLC_expresso" in *.
    change ("IL5RA" +:+ "_expresso") with "IL5RA_expresso" in *.
    rewrite !getitem_has by done. cbn [bind].
    destruct (series_and_total _ _ (coluna_bool_series _ _ B1) (coluna_bool_series _ _ B2))
      as (g1 & -> & Hb1 & Hl1); [by rewrite !length_fmap|]. cbn [bind].
    destruct (series_and_total _ _ Hb1 (coluna_bool_series _ _ B3))
      as (g2 & -> & Hb2 & Hl2); [by rewrite Hl1, !length_fmap|]. cbn [bind].
    destruct (series_and_total _ _ Hb2 (coluna_bool_series _ _ B4))
      as (g3 & -> & Hb3 & Hl3); [by rewrite Hl2, Hl1, !length_fmap|]. cbn [bind].
    rewrite setitem_total
      by (unfold np_where, len; by rewrite length_fmap, Hl3, Hl2, Hl1, length_fmap).
    cbn [bind].
    set (df5 := {| columns := _; rows := _ |}).
    assert (Hm5 : ∀ k, has_column df4 k = true → has_column df5 k = true).
    { intros k. unfold df5. destruct df4. apply has_column_add_mono. }
    clearbody df5.
    destruct (grupo_np_where_total df5 "grupo_PRG2_vs_Nao" "PRG2_expresso"
                "Expressa PRG2" "Não Expressa PRG2") as (df6 & -> & _ & Hm6);
      [by apply Hm5|]. cbn [bind].
    destruct (grupo_np_where_total df6 "grupo_CLC_vs_Nao" "CLC_expresso"
                "Expressa CLC" "Não Expressa CLC") as (df7 & -> & _ & Hm7);
      [by apply Hm6, Hm5|]. cbn [bind].
    destruct (grupo_np_where_total df7 "grupo_IL5RA_vs_Nao" "IL5RA_expresso"
                "Expressa IL5RA" "Não Expressa IL5RA") as (df8 & -> & _ & Hm8);
      [by apply Hm7, Hm6, Hm5|]. cbn [bind].
    destruct (grupo_np_where_total df8 "grupo_EPX_vs_Nao" "EPX_expresso"
                "Expressa EPX" "Não Expressa EPX") as (df9 & -> & _ & _);
      [by apply Hm8, Hm7, Hm6, Hm5|]. cbn [bind].
    by eexists. }
  destruct Hdef as [df' Hdef]. exists df'. split; [done|].
  by apply definir_grupos_rows in Hdef.
Qed.

Lemma genes_numericos_bool (genes : list string) (df : DataFrame) :
  forallb (λ r : gmap string cell,
     forallb (λ gene, match r !!! gene with Str _ => false | _ => true end) genes)
    (rows df) = true →
  genes_numericos genes df.
Proof.
  intros H. apply Forall_forall. intros r Hr. apply Forall_forall. intros gene Hg.
  rewrite forallb_forall in H. apply list_elem_of_In in Hr, Hg.
  specialize (H r Hr). rewrite forallb_forall in H. specialize (H gene Hg).
  by destruct (r !!! gene).
Qed.

Lemma definir_grupos_total_witness :
  ∃ df', S3Survival.definir_grupos_comparacao tabela_eos
         = Ok (Some df', ["Definindo grupos de comparação..."]).
Proof.
  destruct (definir_grupos_total tabela_eos) as (df' & H & _).
  - repeat constructor.
  - apply genes_numericos_bool. vm_compute. reflexivity.
  - by exists df'.
Defined.

(** X11.  [definir_grupos_comparacao] keeps the samples and their order, and
    changes no cell outside the nine columns it writes: the expression
    values, the survival time and event and the subtype the plots read are
    those of the input. *)
Theorem definir_grupos_keeps_cells (df df' : DataFrame) (out : list string) :
  S3Survival.definir_grupos_comparacao df = Ok (Some df', out) →
  Forall2 (λ r r' : gmap string cell, ∀ k, k ∉ colunas_escritas → r' !! k = r !! k)
    (rows df) (rows df').
Proof.
  intros H. apply definir_grupos_rows in H. rewrite H.
  apply Forall2_fmap_r, Forall_Forall2_diag, Forall_forall. intros r _ k Hk.
  unfold colunas_escritas in Hk. rewrite !not_elem_of_cons in Hk.
  destruct Hk as (? & ? & ? & ? & ? & ? & ? & ? & ? & _).
  unfold compose, grupos_da_amostra. cbv zeta.
  by rewrite !lookup_insert_ne by done.
Qed.

Lemma definir_tabela_eos :
  ∃ df' out, S3Survival.definir_grupos_comparacao tabela_eos = Ok (Some df', out).
Proof.
  assert (Hok : returned (S3Survival.definir_grupos_comparacao tabela_eos) = true)
    by (vm_compute; reflexivity).
  destruct (S3Survival.definir_grupos_comparacao tabela_eos) as [[[df'|] out]|e];
    [|discriminate Hok..].
  by exists df', out.
Qed.

Lemma definir_grupos_keeps_cells_witness :
  ∃ df' out,
    S3Survival.definir_grupos_comparacao tabela_eos = Ok (Some df', out)
    ∧ Forall2 (λ r r' : gmap string cell,
                 r' !! "OS_Time_nature2012" = r !! "OS_Time_nature2012")
        (rows tabela_eos) (rows df').
Proof.
  destruct definir_tabela_eos as (df' & out & H).
  exists df', out. split; [exact H|].
  eapply Forall2_impl; [exact (definir_grupos_keeps_cells _ _ _ H)|].
  intros r r' Hk. apply Hk.
  apply (bool_decide_unpack ("OS_Time_nature2012" ∉ colunas_escritas)).
  vm_compute. exact I.
Defined.

Lemma grupo_4_vs_outros_and_witness :
  ∃ df' out,
    S3Survival.definir_grupos_comparacao tabela_eos = Ok (Some df', out)
    ∧ Forall2 (λ r r' : gmap string cell,
                 in_cohort "grupo_4_vs_outros" "Demais" r'
                 = negb (in_cohort "grupo_4_vs_outros" "CLC_EPX_IL5RA_PRG2" r'))
        (rows tabela_eos) (rows df').
Proof.
  destruct definir_tabela_eos as (df' & out & H).
  exists df', out. split; [exact H|].
  eapply Forall2_impl; [exact (grupo_4_vs_outros_and _ _ _ H)|].
  by intros r r' [_ Hd].
Defined.

(** ** s3_mamanalysis_manutenção.py on every table *)

Lemma manutencao_colunas_expresso (genes : list string) (df : DataFrame) :
  S3Manutencao.colunas_expresso genes df = S3Survival.colunas_expresso genes df.
Proof.
  revert df. induction genes as [|g genes IH]; intros df; simpl; [done|].
  destruct (has_column df g); [|done].
  destruct (assign_expresso df g); simpl; [apply IH|done].
Qed.

Lemma colunas_expresso_has_column (genes : list string) (df df' : DataFrame) (k : string) :
  S3Survival.colunas_expresso genes df = Ok (inl df') →
  Forall (λ gene, gene +:+ "_expresso" ≠ k) genes →
  has_column df' k = has_column df k.
Proof.
  revert df. induction genes as [|g genes IH]; intros df H Hne; simpl in H.
  - by inversion H.
  - inversion Hne as [|? ? Hg Hne']; subst.
    destruct (has_column df g); [|discriminate]. ok_step H df1 H1.
    rewrite (IH _ H Hne'). by apply (has_column_assign _ _ _ _ H1).
Qed.

(** X12.  On a table that has no column [IL5RA_expresso],
    [definir_grupos_comparacao] of s3_mamanalysis_manutenção.py never returns
    a table of groups; when its four genes are columns of numbers it raises
    KeyError('IL5RA_expresso'), whatever the expression values are. *)
Theorem manutencao_never_groups (df : DataFrame) :
  has_column df "IL5RA_expresso" = false →
  (∀ df' out, S3Manutencao.definir_grupos_comparacao df ≠ Ok (Some df', out))
  ∧ (Forall (λ gene, has_column df gene = true) S3Manutencao.GENES_INTERESSE →
     genes_numericos S3Manutencao.GENES_INTERESSE df →
     S3Manutencao.definir_grupos_comparacao df = Raise (KeyError "IL5RA_expresso")).
Proof.
  intros Hno.
  assert (Hk : ∀ df4, S3Manutencao.colunas_expresso S3Manutencao.GENES_INTERESSE df
                      = Ok (inl df4) →
                      getitem df4 "IL5RA_expresso" = Raise (KeyError "IL5RA_expresso")).
  { intros df4 H4. rewrite manutencao_colunas_expresso in H4.
    unfold getitem. rewrite (colunas_expresso_has_column _ _ _ _ H4), Hno; [done|].
    unfold S3Manutencao.GENES_INTERESSE. repeat constructor; discriminate. }
  split.
  - intros df' out H. unfold S3Manutencao.definir_grupos_comparacao in H.
    ok_step H r Hr. destruct r as [df4|gene]; [|discriminate].
    rewrite (Hk _ Hr) in H. discriminate.
  - intros Hc Hn.
    destruct (colunas_expresso_total S3Manutencao.GENES_INTERESSE df
                S3Manutencao.GENES_INTERESSE Hc Hn) as (df4 & H4 & _); [done|].
    rewrite <- manutencao_colunas_expresso in H4.
    unfold S3Manutencao.definir_grupos_comparacao. rewrite H4. cbn [bind].
    by rewrite (Hk _ H4).
Qed.

Lemma manutencao_never_groups_witness :
  S3Manutencao.definir_grupos_comparacao
    {| columns := columns tabela_manut;
       rows := (λ r : gmap string cell, <["IL5" := Num 0]> r) <$> rows tabela_manut |}
  = Raise (KeyError "IL5RA_expresso").
Proof.
  apply manutencao_never_groups.
  - vm_compute. reflexivity.
  - repeat constructor.
  - apply genes_numericos_bool. vm_compute. reflexivity.
Defined.

(** ** s3_mamanalysis_survivalrecruit.py: the groups of the CCL genes *)

Lemma recruit_colunas_expresso (genes : list string) (df : DataFrame) :
  S3SurvivalRecruit.colunas_expresso genes df = S3Survival.colunas_expresso genes df.
Proof.
  revert df. induction genes as [|g genes IH]; intros df; simpl; [done|].
  destruct (has_column df g); [|done].
  destruct (assign_expresso df g); simpl; [apply IH|done].
Qed.

Lemma recruit_grupos_rows (df df' : DataFrame) (out : list string) :
  S3SurvivalRecruit.definir_grupos_comparacao df = Ok (Some df', out) →
  rows df' = grupos_ccl_da_amostra <$> rows df.
Proof.
  unfold S3SurvivalRecruit.definir_grupos_comparacao. intros H.
  ok_step H r Hr. destruct r as [df3|gene]; [|discriminate].
  unfold S3SurvivalRecruit.GENES_INTERESSE in Hr.
  cbn [S3SurvivalRecruit.colunas_expresso] in Hr.
  destruct (has_column df "CCL11"); [|discriminate]. ok_step Hr df1 H1.
  destruct (has_column df1 "CCL24"); [|discriminate]. ok_step Hr df2 H2.
  destruct (has_column df2 "CCL26"); [|discriminate]. ok_step Hr df3' H3.
  inversion Hr; subst df3'; clear Hr.
  apply assign_expresso_Ok in H1 as (_ & _ & R1).
  apply assign_expresso_Ok in H2 as (_ & _ & R2).
  apply assign_expresso_Ok in H3 as (_ & _ & R3).
  ok_step H c11 Hp. apply getitem_Ok in Hp as [_ ->].
  ok_step H c24 He. apply getitem_Ok in He as [_ ->].
  ok_step H g1 Hg1. apply series_and_Ok in Hg1 as ->.
  ok_step H c26 Hc. apply getitem_Ok in Hc as [_ ->].
  ok_step H g2 Hg2. apply series_and_Ok in Hg2 as ->.
  ok_step H df5 H5. unfold np_where in H5. rewrite <- !list_fmap_compose in H5.
  apply setitem_Ok in H5 as [_ R5].
  ok_step H df6 R6. apply (grupo_np_where_Ok df5 df6) in R6.
  ok_step H df7 R7. apply (grupo_np_where_Ok df6 df7) in R7.
  ok_step H df8 R8. apply (grupo_np_where_Ok df7 df8) in R8.
  inversion H; subst df8; clear H.
  after R1 R2. after R2 R3. cbn [compose] in R5. after R3 R5.
  after R5 R6. after R6 R7. after R7 R8.
  rewrite R8. apply list_fmap_ext. intros i r _.
  unfold grupos_ccl_da_amostra. simpl (_ +:+ _). cbn zeta.
  by destruct (expresso (r !!! "CCL11")), (expresso (r !!! "CCL24")),
       (expresso (r !!! "CCL26")).
Qed.

Lemma recruit_grupos_defined (df : DataFrame) :
  Forall (λ gene, has_column df gene = true) S3SurvivalRecruit.GENES_INTERESSE →
  genes_numericos S3SurvivalRecruit.GENES_INTERESSE df →
  ∃ df', S3SurvivalRecruit.definir_grupos_comparacao df
         = Ok (Some df', ["Definindo grupos de comparação..."]).
Proof.
  intros Hc Hn.
  destruct (colunas_expresso_total S3SurvivalRecruit.GENES_INTERESSE df
              S3SurvivalRecruit.GENES_INTERESSE Hc Hn) as (df3 & H3 & L3 & Hg3 & Hm3 & _);
    [done|].
  rewrite <- recruit_colunas_expresso in H3.
  unfold S3SurvivalRecruit.definir_grupos_comparacao. rewrite H3. cbn [bind].
  pose proof (Hg3 "CCL11" ltac:(repeat constructor)) as [C1 B1].
  pose proof (Hg3 "CCL24" ltac:(repeat constructor)) as [C2 B2].
  pose proof (Hg3 "CCL26" ltac:(repeat constructor)) as [C3 B3].
  change ("CCL11" +:+ "_expresso") with "CCL11_expresso" in *.
  change ("CCL24" +:+ "_expresso") with "CCL24_expresso" in *.
  change ("CCL26" +:+ "_expresso") with "CCL26_expresso" in *.
  rewrite !getitem_has by done. cbn [bind].
  destruct (series_and_total _ _ (coluna_bool_series _ _ B1) (coluna_bool_series _ _ B2))
    as (g1 & -> & Hb1 & Hl1); [by rewrite !length_fmap|]. cbn [bind].
  destruct (series_and_total _ _ Hb1 (coluna_bool_series _ _ B3))
    as (g2 & -> & Hb2 & Hl2); [by rewrite Hl1, !length_fmap|]. cbn [bind].
  rewrite setitem_total
    by (unfold np_where, len; by rewrite length_fmap, Hl2, Hl1, length_fmap).
  cbn [bind].
  set (df5 := {| columns := _; rows := _ |}).
  assert (Hm5 : ∀ k, has_column df3 k = true → has_column df5 k = true).
  { intros k. unfold df5. destruct df3. apply has_column_add_mono. }
  clearbody df5.
  destruct (grupo_np_where_total df5 "grupo_CCL11_vs_Nao" "CCL11_expresso"
              "Expressa CCL11" "Não Expressa CCL11") as (df6 & E6 & _ & Hm6);
    [by apply Hm5|].
  change (S3SurvivalRecruit.grupo_np_where df5 "grupo_CCL11_vs_Nao" "CCL11_expresso"
            "Expressa CCL11" "Não Expressa CCL11" = Ok df6) in E6.
  rewrite E6. cbn [bind].
  destruct (grupo_np_where_total df6 "grupo_CCL24_vs_Nao" "CCL24_expresso"
              "Expressa CCL24" "Não Expressa CCL24") as (df7 & E7 & _ & Hm7);
    [by apply Hm6, Hm5|].
  change (S3SurvivalRecruit.grupo_np_where df6 "grupo_CCL24_vs_Nao" "CCL24_expresso"
            "Expressa CCL24" "Não Expressa CCL24" = Ok df7) in E7.
  rewrite E7. cbn [bind].
  destruct (grupo_np_where_total df7 "grupo_CCL26_vs_Nao" "CCL26_expresso"
              "Expressa CCL26" "Não Expressa CCL26") as (df8 & E8 & _ & _);
    [by apply Hm7, Hm6, Hm5|].
  change (S3SurvivalRecruit.grupo_np_where df7 "grupo_CCL26_vs_Nao" "CCL26_expresso"
            "Expressa CCL26" "Não Expressa CCL26" = Ok df8) in E8.
  rewrite E8. cbn [bind].
  by eexists.
Qed.

(** X13.  In s3_mamanalysis_survivalrecruit.py, when the three CCL genes are
    columns of numbers, [definir_grupos_comparacao] returns the table with
    its groups without raising; every sample keeps its place; it is
    labelled 'CCL11_CCL24_CCL26_Expresso' exactly when each of the three
    genes has a value greater than zero and 'Demais' otherwise, and for each
    gene 'Expressa <gene>' exactly when that gene's value is greater than
    zero and 'Não Expressa <gene>' otherwise. *)
Theorem recruit_grupos_total (df : DataFrame) :
  Forall (λ gene, has_column df gene = true) S3SurvivalRecruit.GENES_INTERESSE →
  genes_numericos S3SurvivalRecruit.GENES_INTERESSE df →
  ∃ df', S3SurvivalRecruit.definir_grupos_comparacao df
         = Ok (Some df', ["Definindo grupos de comparação..."])
    ∧ Forall2 (λ r r',
        (in_cohort "grupo_3_vs_outros" "CCL11_CCL24_CCL26_Expresso" r' = true
           ↔ ∀ gene, gene ∈ S3SurvivalRecruit.GENES_INTERESSE → positive (r !!! gene))
        ∧ in_cohort "grupo_3_vs_outros" "Demais" r'
          = negb (in_cohort "grupo_3_vs_outros" "CCL11_CCL24_CCL26_Expresso" r')
        ∧ ∀ gene, gene ∈ S3SurvivalRecruit.GENES_INTERESSE →
            (in_cohort ("grupo_" +:+ gene +:+ "_vs_Nao") ("Expressa " +:+ gene) r' = true
               ↔ positive (r !!! gene))
            ∧ in_cohort ("grupo_" +:+ gene +:+ "_vs_Nao") ("Não Expressa " +:+ gene) r'
              = negb (in_cohort ("grupo_" +:+ gene +:+ "_vs_Nao")
                        ("Expressa " +:+ gene) r'))
      (rows df) (rows df').
Proof.
  intros Hc Hn. destruct (recruit_grupos_defined df Hc Hn) as [df' Hdef].
  exists df'. split; [done|].
  apply recruit_grupos_rows in Hdef. rewrite Hdef.
  apply Forall2_fmap_r, Forall_Forall2_diag, Forall_forall. intros r _.
  unfold compose, in_cohort, grupos_ccl_da_amostra, S3SurvivalRecruit.GENES_INTERESSE.
  cbn beta zeta.
  split; [|split].
  - row_lookup.
    assert (Hall : (∀ gene, gene ∈ ["CCL11"; "CCL24"; "CCL26"] → positive (r !!! gene))
                   ↔ expresso (r !!! "CCL11") && expresso (r !!! "CCL24")
                     && expresso (r !!! "CCL26") = true).
    { rewrite !andb_true_iff, !expresso_positive. split.
      - intros Hg. repeat split; apply Hg; set_solver.
      - intros [[H1 H2] H3] gene. rewrite !elem_of_cons, elem_of_nil.
        intros [->|[->|[->|[]]]]; done. }
    rewrite Hall.
    by destruct (expresso (r !!! "CCL11") && expresso (r !!! "CCL24")
                 && expresso (r !!! "CCL26")).
  - row_lookup.
    by destruct (expresso (r !!! "CCL11") && expresso (r !!! "CCL24")
                 && expresso (r !!! "CCL26")).
  - intros gene. rewrite !elem_of_cons, elem_of_nil.
    intros [->|[->|[->|[]]]]; simpl (_ +:+ _); row_lookup;
      rewrite <- expresso_positive;
      match goal with |- context [expresso ?c] => destruct (expresso c) end; done.
Qed.

Lemma recruit_grupos_total_witness :
  ∃ df', S3SurvivalRecruit.definir_grupos_comparacao tabela_ccl
         = Ok (Some df', ["Definindo grupos de comparação..."])
    ∧ Forall2 (λ r r', in_cohort "grupo_3_vs_outros" "Demais" r'
                       = negb (in_cohort "grupo_3_vs_outros"
                                 "CCL11_CCL24_CCL26_Expresso" r'))
        (rows tabela_ccl) (rows df').
Proof.
  destruct (recruit_grupos_total tabela_ccl) as (df' & H & HF).
  - repeat constructor.
  - apply genes_numericos_bool. vm_compute. reflexivity.
  - exists df'. split; [exact H|].
    eapply Forall2_impl; [exact HF|]. by intros r r' (_ & Hd & _).
Defined.

(** ** The median of a list of rationals *)

Lemma Qle_bool_total (x y : Q) : Qle_bool x y = false → (y <= x)%Q.
Proof.
  intros H. destruct (Qlt_le_dec y x) as [Hlt|Hle].
  - by apply Qlt_le_weak.
  - apply Qle_bool_iff in Hle. congruence.
Qed.

Lemma insert_Q_perm (x : Q) (l : list Q) : Permutation (insert_Q x l) (x :: l).
Proof.
  induction l as [|y l IH]; simpl; [done|].
  destruct (Qle_bool x y); [done|]. rewrite IH. apply perm_swap.
Qed.

Lemma sort_Q_perm (l : list Q) : Permutation (sort_Q l) l.
Proof.
  induction l as [|x l IH]; [done|].
  unfold sort_Q in *. simpl. rewrite insert_Q_perm. by constructor.
Qed.

Lemma insert_Q_sorted (x : Q) (l : list Q) :
  StronglySorted Qle l → StronglySorted Qle (insert_Q x l).
Proof.
  induction 1 as [|y l Hs IH Hy]; simpl.
  - repeat constructor.
  - destruct (Qle_bool x y) eqn:E.
    + apply Qle_bool_iff in E. constructor; [by constructor|]. constructor; [done|].
      eapply Forall_impl; [exact Hy|]. intros z Hz. by eapply Qle_trans.
    + apply Qle_bool_total in E. constructor; [done|].
      eapply Permutation_Forall; [symmetry; apply insert_Q_perm|]. by constructor.
Qed.

Lemma sort_Q_sorted (l : list Q) : StronglySorted Qle (sort_Q l).
Proof.
  induction l as [|x l IH]; [constructor|].
  unfold sort_Q in *. simpl. by apply insert_Q_sorted.
Qed.

(** In a sorted list the first [j + 1] values are at most the value of index
    [j], and the values from index [j] on are at least it. *)
Lemma sorted_take_le (v : list Q) (j : nat) :
  StronglySorted Qle v → (j < length v)%nat →
  Forall (λ x, (x <= nth j v 0)%Q) (take (S j) v).
Proof.
  intros Hs. revert j. induction Hs as [|a v Hs IH Ha]; intros j Hj; simpl in Hj; [lia|].
  destruct j as [|j].
  - simpl. rewrite take_0. constructor; [apply Qle_refl|constructor].
  - assert (Hj' : (j < length v)%nat) by lia.
    change (take (S (S j)) (a :: v)) with (a :: take (S j) v).
    change (nth (S j) (a :: v) 0%Q) with (nth j v 0%Q).
    constructor; [|by apply IH].
    apply (proj1 (Forall_forall _ _) Ha). apply list_elem_of_In. by apply nth_In.
Qed.

Lemma sorted_drop_ge (v : list Q) (j : nat) :
  StronglySorted Qle v → (j < length v)%nat →
  Forall (λ x, (nth j v 0 <= x)%Q) (drop j v).
Proof.
  intros Hs. revert j. induction Hs as [|a v Hs IH Ha]; intros j Hj; simpl in Hj; [lia|].
  destruct j as [|j].
  - simpl. constructor; [apply Qle_refl|done].
  - apply IH. lia.
Qed.

Lemma filter_none {A : Type} (p : A → bool) (l : list A) :
  Forall (λ x, p x = false) l → List.filter p l = [].
Proof. induction 1 as [|x l Hx _ IH]; simpl; [done|]. by rewrite Hx. Qed.

Lemma filter_length_take_drop {A : Type} (p : A → bool) (v : list A) (j : nat) :
  length (List.filter p v)
  = (length (List.filter p (take j v)) + length (List.filter p (drop j v)))%nat.
Proof.
  rewrite <- (take_drop j v) at 1. by rewrite List.filter_app, length_app.
Qed.

Lemma filter_length_le {A : Type} (p : A → bool) (l : list A) :
  (length (List.filter p l) ≤ length l)%nat.
Proof. induction l as [|x l IH]; simpl; [done|]. destruct (p x); simpl; lia. Qed.

(** The middle values of the sorted list bracket the median. *)
Lemma median_Q_bracket (l : list Q) (m : Q) :
  median_Q l = Some m →
  let v := sort_Q l in
  let n := length l in
  ∃ lo hi : nat, (lo < n)%nat ∧ (hi < n)%nat
    ∧ (nth lo v 0 <= m)%Q ∧ (m <= nth hi v 0)%Q
    ∧ (n - S lo ≤ n / 2)%nat ∧ (hi ≤ n / 2)%nat.
Proof.
  unfold median_Q. cbv zeta. rewrite length_sort_Q.
  destruct (Nat.eqb_spec (length l) 0) as [|Hn]; [discriminate|].
  pose proof (sort_Q_sorted l) as Hs.
  destruct (Nat.even (length l)) eqn:Hev.
  - apply Nat.even_spec in Hev as [k Hk].
    assert (Hk0 : (0 < k)%nat) by lia.
    assert (Hdiv : (length l / 2 = k)%nat).
    { rewrite Hk. rewrite Nat.mul_comm. by apply Nat.div_mul. }
    rewrite Hdiv. intros H. injection H as <-.
    assert (Hle : (nth (k - 1) (sort_Q l) 0 <= nth k (sort_Q l) 0)%Q).
    { pose proof (sorted_take_le (sort_Q l) k Hs) as HF.
      rewrite length_sort_Q in HF. specialize (HF ltac:(lia)).
      apply (proj1 (Forall_forall _ _) HF). apply list_elem_of_In.
      rewrite <- (take_drop (S k) (sort_Q l)) at 1.
      rewrite app_nth1 by (rewrite length_take, length_sort_Q; lia).
      apply nth_In. rewrite length_take, length_sort_Q. lia. }
    exists (k - 1)%nat, k. repeat split; try lia.
    + apply Qle_shift_div_l; [reflexivity|]. Lqa.lra.
    + apply Qle_shift_div_r; [reflexivity|]. Lqa.lra.
  - assert (Hodd : Nat.odd (length l) = true) by (by rewrite <- Nat.negb_even, Hev).
    apply Nat.odd_spec in Hodd as [k Hk].
    assert (Hdiv : (length l / 2 = k)%nat).
    { rewrite Hk. symmetry. apply Nat.div_unique with 1%nat; lia. }
    rewrite Hdiv. intros H. injection H as <-.
    exists k, k. repeat split; try lia; apply Qle_refl.
Qed.

(** At most half of the values lie strictly above the median, and at most
    half strictly below. *)
Lemma median_Q_balance (l : list Q) (m : Q) :
  median_Q l = Some m →
  (length (List.filter (λ x, Qlt_bool m x) l) ≤ length l / 2)%nat
  ∧ (length (List.filter (λ x, Qlt_bool x m) l) ≤ length l / 2)%nat.
Proof.
  intros Hm. destruct (median_Q_bracket l m Hm) as (lo & hi & Hlo & Hhi & Hl & Hh & Nl & Nh).
  pose proof (sort_Q_sorted l) as Hs.
  pose proof (sort_Q_perm l) as HP.
  split.
  - rewrite <- (Permutation_length (filter_permutation _ _ _ HP)).
    rewrite (filter_length_take_drop _ _ (S lo)).
    rewrite filter_none.
    + simpl. etrans; [apply filter_length_le|].
      rewrite length_drop, length_sort_Q. exact Nl.
    + eapply Forall_impl; [apply sorted_take_le; [done|by rewrite length_sort_Q]|].
      intros x Hx. simpl in Hx. unfold Qlt_bool. apply negb_false_iff, Qle_bool_iff.
      by eapply Qle_trans.
  - rewrite <- (Permutation_length (filter_permutation _ _ _ HP)).
    rewrite (filter_length_take_drop _ _ hi).
    rewrite (filter_none _ (drop hi _)).
    + rewrite Nat.add_0_r. etrans; [apply filter_length_le|].
      rewrite length_take, length_sort_Q. lia.
    + eapply Forall_impl; [apply sorted_drop_ge; [done|by rewrite length_sort_Q]|].
      intros x Hx. simpl in Hx. unfold Qlt_bool. apply negb_false_iff, Qle_bool_iff.
      by eapply Qle_trans.
Qed.

(** ** The cohorts of the strict split *)

Lemma strict_cohorts (df df' : DataFrame) (gene_list : list string)
    (group_title : string) (out : list string) :
  group_title ≠ "sum_expression" →
  SurvivalManutIL5.create_survival_groups df gene_list group_title = Ok (Some df', out) →
  let cols := List.filter (has_column df) gene_list in
  let agg := agregado cols in
  let m := median_Q (agg <$> rows df) in
  List.filter (in_cohort group_title "Alta Expressão") (rows df')
  = (λ r, rotulada group_title "Alta Expressão" (agg r) r)
    <$> List.filter (λ r, float_gt (Some (agg r)) m) (rows df)
  ∧ List.filter (in_cohort group_title "Baixa Expressão") (rows df')
    = (λ r, rotulada group_title "Baixa Expressão" (agg r) r)
      <$> List.filter (λ r, float_lt (Some (agg r)) m) (rows df).
Proof.
  intros Hne H cols agg m.
  destruct (create_strict_rows _ _ _ _ _ Hne H) as [Hrows _].
  fold cols agg m in Hrows.
  destruct m as [mq|] eqn:Em.
  - assert (Hcases := λ r, rotulo_estrito_cases (agg r) mq).
    assert (Htri := λ r, tricotomia (agg r) mq). cbv zeta in Htri.
    split.
    + rewrite Hrows, filter_fmap.
      rewrite (filter_ext_bool _ (λ r, float_gt (Some (agg r)) (Some mq)))
        by (intros r; rewrite in_cohort_rotulada by done; apply Hcases).
      rewrite filter_filter_bool.
      rewrite (filter_ext_bool _ (λ r, float_gt (Some (agg r)) (Some mq))).
      * apply (fmap_filter_label _ _ _ (λ lbl r, rotulada group_title lbl (agg r) r)).
        intros r Hr. apply String.eqb_eq. by rewrite (proj1 (Hcases r)).
      * intros r. rewrite (proj2 (proj2 (Hcases r))).
        destruct (Htri r) as [(-> & _ & ->)|[(-> & _ & ->)|(-> & _ & ->)]]; done.
    + rewrite Hrows, filter_fmap.
      rewrite (filter_ext_bool _ (λ r, float_lt (Some (agg r)) (Some mq)))
        by (intros r; rewrite in_cohort_rotulada by done; apply Hcases).
      rewrite filter_filter_bool.
      rewrite (filter_ext_bool _ (λ r, float_lt (Some (agg r)) (Some mq))).
      * apply (fmap_filter_label _ _ _ (λ lbl r, rotulada group_title lbl (agg r) r)).
        intros r Hr. apply String.eqb_eq. by rewrite (proj1 (proj2 (Hcases r))).
      * intros r. rewrite (proj2 (proj2 (Hcases r))).
        destruct (Htri r) as [(_ & -> & ->)|[(_ & -> & ->)|(_ & -> & ->)]]; done.
  - apply median_Q_None, fmap_nil_inv in Em. rewrite Hrows, Em. done.
Qed.

Lemma count_above_median (agg : gmap string cell → Q) (l : list (gmap string cell)) :
  (length (List.filter (λ r, float_gt (Some (agg r)) (median_Q (agg <$> l))) l)
   ≤ length l / 2)%nat.
Proof.
  destruct (median_Q (agg <$> l)) as [mq|] eqn:Em.
  - destruct (median_Q_balance _ _ Em) as [Ha _].
    rewrite filter_fmap, !length_fmap in Ha. exact Ha.
  - simpl. rewrite filter_none; [simpl; lia|]. by apply Forall_forall.
Qed.

Lemma count_below_median (agg : gmap string cell → Q) (l : list (gmap string cell)) :
  (length (List.filter (λ r, float_lt (Some (agg r)) (median_Q (agg <$> l))) l)
   ≤ length l / 2)%nat.
Proof.
  destruct (median_Q (agg <$> l)) as [mq|] eqn:Em.
  - destruct (median_Q_balance _ _ Em) as [_ Hb].
    rewrite filter_fmap, !length_fmap in Hb. exact Hb.
  - simpl. rewrite filter_none; [simpl; lia|]. by apply Forall_forall.
Qed.



(** ** A majority of samples at the smallest aggregate *)

Lemma filter_length_mono {A : Type} (p q : A → bool) (l : list A) :
  (∀ x, p x = true → q x = true) →
  (length (List.filter p l) ≤ length (List.filter q l))%nat.
Proof.
  intros H. induction l as [|x l IH]; simpl; [done|].
  destruct (p x) eqn:Ep.
  - rewrite (H _ Ep). simpl. lia.
  - destruct (q x); simpl; lia.
Qed.

(** When more than half of the values are equal to the smallest one, the
    median is that value. *)
Lemma median_Q_majority_min (l : list Q) (c m : Q) :
  median_Q l = Some m →
  Forall (λ x, (c <= x)%Q) l →
  (length l / 2 < length (List.filter (λ x, Qeq_bool x c) l))%nat →
  (m == c)%Q.
Proof.
  intros Hm Hmin Hmaj. apply Qle_antisym.
  - destruct (Qlt_le_dec c m) as [Hlt|Hle]; [|done]. exfalso.
    destruct (median_Q_balance l m Hm) as [_ Hb].
    assert (length (List.filter (λ x, Qeq_bool x c) l)
            ≤ length (List.filter (λ x, Qlt_bool x m) l))%nat; [|lia].
    apply filter_length_mono. intros x Hx. apply Qeq_bool_iff in Hx.
    apply Qlt_bool_iff. by rewrite Hx.
  - destruct (median_Q_bracket l m Hm) as (lo & hi & Hlo & _ & Hl & _).
    eapply Qle_trans; [|exact Hl].
    assert (Hin : nth lo (sort_Q l) 0%Q ∈ l).
    { apply list_elem_of_In, (Permutation_in _ (sort_Q_perm l)), nth_In.
      by rewrite length_sort_Q. }
    by apply (proj1 (Forall_forall _ _) Hmin).
Qed.

Lemma no_sample_below_min (agg : gmap string cell → Q) (l : list (gmap string cell))
    (c : Q) :
  Forall (λ r, (c <= agg r)%Q) l →
  (length l / 2 < length (List.filter (λ r, Qeq_bool (agg r) c) l))%nat →
  List.filter (λ r, float_lt (Some (agg r)) (median_Q (agg <$> l))) l = [].
Proof.
  intros Hmin Hmaj. destruct (median_Q (agg <$> l)) as [m|] eqn:Em.
  - assert (Hmc : (m == c)%Q).
    { apply (median_Q_majority_min _ _ _ Em).
      - by apply Forall_fmap.
      - by rewrite filter_fmap, !length_fmap. }
    apply filter_none. eapply Forall_impl; [exact Hmin|]. intros r Hr. simpl in Hr.
    unfold float_lt, float_gt, Qlt_bool. apply negb_false_iff, Qle_bool_iff.
    by rewrite Hmc.
  - apply filter_none, Forall_forall. done.
Qed.


(** ** From the split to the log-rank test *)

Lemma cohort_series (l : list (gmap string cell)) (title label k : string) :
  compress (cell_is label <$> ((λ r : gmap string cell, r !!! title) <$> l))
           ((λ r : gmap string cell, r !!! k) <$> l)
  = (λ r : gmap string cell, r !!! k) <$> List.filter (in_cohort title label) l.
Proof. rewrite <- list_fmap_compose. apply compress_fmap_fmap. Qed.

Lemma mask_sum_cohort (l : list (gmap string cell)) (title label : string) :
  mask_sum (cell_is label <$> ((λ r : gmap string cell, r !!! title) <$> l))
  = length (List.filter (in_cohort title label) l).
Proof.
  unfold mask_sum. rewrite <- list_fmap_compose, filter_fmap, length_fmap. done.
Qed.

Lemma rotulada_lookup (title label k : string) (s : Q) (r : gmap string cell) :
  k ≠ title → k ≠ "sum_expression" → rotulada title label s r !!! k = r !!! k.
Proof.
  intros H1 H2. unfold rotulada.
  rewrite lookup_total_delete_ne by done.
  by rewrite !lookup_total_insert_ne by done.
Qed.

Lemma rotulada_com_soma_lookup (title label k : string) (s : Q) (r : gmap string cell) :
  k ≠ title → k ≠ "sum_expression" → rotulada_com_soma title label s r !!! k = r !!! k.
Proof.
  intros H1 H2. unfold rotulada_com_soma. by rewrite !lookup_total_insert_ne by done.
Qed.

(** The reading of [plot_survival] on a table whose two cohorts are the
    relabelled samples [High] and [Low] of another table. *)
Lemma plot_survival_cohorts (texto : string) (st : Stats) (df' : DataFrame)
    (title gl tc ec ft : string) (r : eixos)
    (fin : string → gmap string cell → gmap string cell)
    (High Low : list (gmap string cell)) :
  (∀ label k x, k ≠ title → k ≠ "sum_expression" → fin label x !!! k = x !!! k) →
  tc ≠ title → tc ≠ "sum_expression" → ec ≠ title → ec ≠ "sum_expression" →
  List.filter (in_cohort title "Alta Expressão") (rows df')
  = fin "Alta Expressão" <$> High →
  List.filter (in_cohort title "Baixa Expressão") (rows df')
  = fin "Baixa Expressão" <$> Low →
  plot_survival_com texto st df' title gl tc ec ft = Ok r →
  match r with
  | KaplanMeier _ fig =>
      (2 ≤ length High)%nat ∧ (2 ≤ length Low)%nat
      ∧ logrank_test st ((λ x : gmap string cell, x !!! tc) <$> High)
                        ((λ x : gmap string cell, x !!! tc) <$> Low)
                        ((λ x : gmap string cell, x !!! ec) <$> High)
                        ((λ x : gmap string cell, x !!! ec) <$> Low) = Ok (p_valor fig)
  | DadosInsuficientes _ txt =>
      ((length High < 2)%nat ∨ (length Low < 2)%nat) ∧ txt = texto
  end.
Proof.
  intros Hfin Ht1 Ht2 He1 He2 Ha Hb Hr. apply plot_survival_com_guard in Hr.
  cbv zeta in Hr. rewrite !mask_sum_cohort, !cohort_series, Ha, Hb in Hr.
  rewrite !length_fmap, <- !list_fmap_compose in Hr.
  rewrite (list_fmap_ext ((λ x : gmap string cell, x !!! tc) ∘ fin "Alta Expressão")
             (λ x : gmap string cell, x !!! tc) High) in Hr
    by (intros i x _; simpl; by apply Hfin).
  rewrite (list_fmap_ext ((λ x : gmap string cell, x !!! tc) ∘ fin "Baixa Expressão")
             (λ x : gmap string cell, x !!! tc) Low) in Hr
    by (intros i x _; simpl; by apply Hfin).
  rewrite (list_fmap_ext ((λ x : gmap string cell, x !!! ec) ∘ fin "Alta Expressão")
             (λ x : gmap string cell, x !!! ec) High) in Hr
    by (intros i x _; simpl; by apply Hfin).
  rewrite (list_fmap_ext ((λ x : gmap string cell, x !!! ec) ∘ fin "Baixa Expressão")
             (λ x : gmap string cell, x !!! ec) Low) in Hr
    by (intros i x _; simpl; by apply Hfin).
  exact Hr.
Qed.






(** ** Equality of cells and the distinct values of a Series *)

Lemma Qeq_bool_sym (x y : Q) : Qeq_bool x y = Qeq_bool y x.
Proof.
  destruct (Qeq_bool x y) eqn:E1, (Qeq_bool y x) eqn:E2; try done.
  - apply Qeq_bool_iff, Qeq_sym, Qeq_bool_iff in E1. congruence.
  - apply Qeq_bool_iff, Qeq_sym, Qeq_bool_iff in E2. congruence.
Qed.

Lemma float_eq_sym (x y : option Q) : float_eq x y = float_eq y x.
Proof. destruct x, y; simpl; try done. apply Qeq_bool_sym. Qed.

Lemma float_eq_trans (x y z : option Q) :
  float_eq x y = true → float_eq y z = true → float_eq x z = true.
Proof.
  destruct x, y, z; simpl; try done. intros H1 H2.
  apply Qeq_bool_iff in H1, H2. apply Qeq_bool_iff. by rewrite H1.
Qed.

Lemma cell_eqb_sym (a b : cell) : cell_eqb a b = cell_eqb b a.
Proof.
  destruct a as [qa| |sa|ba], b as [qb| |sb|bb]; simpl; try done;
    try apply String.eqb_sym; apply Qeq_bool_sym.
Qed.

Lemma cell_eqb_trans (a b c : cell) :
  cell_eqb a b = true → cell_eqb b c = true → cell_eqb a c = true.
Proof.
  destruct a as [qa| |sa|ba], b as [qb| |sb|bb], c as [qc| |sc|bc]; simpl; try done.
  all: try (intros H1 H2; apply String.eqb_eq in H1, H2; apply String.eqb_eq; congruence).
  all: apply (float_eq_trans (Some _) (Some _) (Some _)).
Qed.

Lemma cell_eqb_refl (a : cell) : isna a = false → cell_eqb a a = true.
Proof.
  destruct a as [q| |s|b]; simpl; try done; intros _.
  - apply Qeq_bool_iff. reflexivity.
  - apply String.eqb_refl.
  - by destruct b.
Qed.

Lemma cell_eqb_isna (a b : cell) : cell_eqb a b = true → isna a = false ∧ isna b = false.
Proof. destruct a, b; simpl; done. Qed.

Lemma ocorrencias_ext (u v : cell) (l : list cell) :
  cell_eqb u v = true → ocorrencias u l = ocorrencias v l.
Proof.
  intros H. unfold ocorrencias. f_equal. apply filter_ext_bool. intros x.
  destruct (cell_eqb u x) eqn:E1, (cell_eqb v x) eqn:E2; try done.
  - rewrite cell_eqb_sym in H. by rewrite (cell_eqb_trans _ _ _ H E1) in E2.
  - by rewrite (cell_eqb_trans _ _ _ H E2) in E1.
Qed.

(** The counts of the values of [us] in [l], added up *)
Lemma total_filter_not_same (c : cell) (us l : list cell) :
  foldr (λ u acc, (ocorrencias u l + acc)%nat) 0%nat
    (List.filter (λ d, negb (same_value c d)) us)
  = foldr (λ u acc, (ocorrencias u (List.filter (λ x, negb (cell_eqb c x)) l) + acc)%nat)
      0%nat us.
Proof.
  induction us as [|u us IH]; simpl; [done|].
  assert (Hin : ∀ x, cell_eqb u x = true →
                     negb (cell_eqb c x) = negb (same_value c u)).
  { intros x Hux. destruct (cell_eqb_isna _ _ Hux) as [Hu Hx].
    unfold same_value. rewrite Hu, andb_false_r. simpl. f_equal.
    destruct (cell_eqb c x) eqn:E1, (cell_eqb c u) eqn:E2; try done.
    - rewrite (cell_eqb_sym u x) in Hux. by rewrite (cell_eqb_trans _ _ _ E1 Hux) in E2.
    - by rewrite (cell_eqb_trans _ _ _ E2 Hux) in E1. }
  assert (Hoc : ocorrencias u (List.filter (λ x, negb (cell_eqb c x)) l)
                = if negb (same_value c u) then ocorrencias u l else 0%nat).
  { unfold ocorrencias. rewrite filter_filter_bool.
    destruct (negb (same_value c u)) eqn:E.
    - f_equal. apply filter_ext_bool. intros x.
      destruct (cell_eqb u x) eqn:Ex; [|by rewrite andb_false_r].
      by rewrite (Hin x Ex).
    - rewrite filter_none; [done|]. apply Forall_forall. intros x _.
      destruct (cell_eqb u x) eqn:Ex; [|by rewrite andb_false_r].
      by rewrite (Hin x Ex). }
  rewrite Hoc. destruct (negb (same_value c u)); simpl; by rewrite IH.
Qed.

Lemma total_unique (s l : list cell) :
  foldr (λ u acc, (ocorrencias u l + acc)%nat) 0%nat (unique s)
  = length (List.filter (λ x, existsb (λ y, cell_eqb y x) s) l).
Proof.
  revert l. induction s as [|c s IH]; intros l; simpl.
  - rewrite filter_none; [done|]. by apply Forall_forall.
  - rewrite total_filter_not_same, IH. unfold ocorrencias.
    rewrite filter_filter_bool.
    rewrite <- (List.filter_length (cell_eqb c)
                  (List.filter (λ x, cell_eqb c x || existsb (λ y, cell_eqb y x) s) l)).
    rewrite !filter_filter_bool.
    f_equal; f_equal; apply filter_ext_bool; intros x;
      by destruct (cell_eqb c x), (existsb (λ y, cell_eqb y x) s).
Qed.

Lemma total_perm (l : list cell) (us vs : list cell) :
  Permutation us vs →
  foldr (λ u acc, (ocorrencias u l + acc)%nat) 0%nat us
  = foldr (λ u acc, (ocorrencias u l + acc)%nat) 0%nat vs.
Proof.
  induction 1 as [|x us vs _ IH|x y us|us vs ws _ IH1 _ IH2]; simpl; lia.
Qed.

Lemma existsb_self (l : list cell) :
  Forall (λ c, isna c = false) l →
  List.filter (λ x, existsb (λ y, cell_eqb y x) l) l = l.
Proof.
  intros H. apply List.forallb_filter_id, forallb_forall. intros x Hx.
  apply existsb_exists. exists x. split; [done|].
  apply cell_eqb_refl. apply list_elem_of_In in Hx. by apply (proj1 (Forall_forall _ _) H).
Qed.

Lemma elem_of_unique (c : cell) (s : list cell) : c ∈ unique s → c ∈ s.
Proof.
  revert c. induction s as [|d s IH]; intros c H; simpl in H; [done|].
  apply elem_of_cons in H as [->|H]; [left|right].
  apply IH. apply list_elem_of_In in H. apply List.filter_In in H as [H _].
  by apply list_elem_of_In.
Qed.

Lemma total_curvas_fmap (g gu : list cell) :
  total_curvas ((λ grupo, (grupo, ocorrencias grupo g)) <$> gu)
  = foldr (λ u acc, (ocorrencias u g + acc)%nat) 0%nat gu.
Proof.
  unfold total_curvas. induction gu as [|u gu IH]; [done|]. csimpl. by rewrite IH.
Qed.

(** X18.  Every valid sample is drawn in exactly one survival curve of
    [plotar_sobrevida]: the group sizes in the legend add up to the number of
    samples with time, event and group (the group 'Ignorar' left out), no
    curve is empty, and there are at least two curves. *)
Theorem survival_curves_partition (st : Stats) (df : DataFrame) (col titulo : string)
    (f : figura) (out : list string) :
  S3Survival.plotar_sobrevida st df col titulo = Ok (Some f, out) →
  total_curvas (curvas f) = length (amostras_validas df col)
  ∧ Forall (λ gn : cell * nat, (1 ≤ gn.2)%nat) (curvas f)
  ∧ (2 ≤ length (curvas f))%nat.
Proof.
  intros H.
  destruct (plotar_sobrevida_figura _ _ _ _ _ _ H)
    as (meses & gu & _ & Hgu & Hlen & _ & Hc & _).
  set (g := (λ r : gmap string cell, r !!! col) <$> amostras_validas df col) in *.
  assert (Hna : Forall (λ c, isna c = false) g).
  { apply Forall_forall. intros c Hc'.
    assert (Hin : c ∈ List.filter (λ c, negb (isna c)) g)
      by (unfold g; by rewrite filter_notna_valid).
    apply list_elem_of_In, List.filter_In in Hin as [_ Hn]. by apply negb_true_iff. }
  pose proof (np_sort_perm _ _ Hgu) as HP.
  assert (Hpos : Forall (λ u, (1 ≤ ocorrencias u g)%nat) gu).
  { apply Forall_forall. intros u Hu. rewrite HP in Hu. apply elem_of_unique in Hu.
    unfold ocorrencias.
    assert (Hin : In u (List.filter (cell_eqb u) g)).
    { apply List.filter_In. split; [by apply list_elem_of_In|].
      apply cell_eqb_refl. by apply (proj1 (Forall_forall _ _) Hna). }
    destruct (List.filter (cell_eqb u) g); [destruct Hin|simpl; lia]. }
  assert (Hcurvas : curvas f = (λ grupo, (grupo, ocorrencias grupo g)) <$> gu).
  { rewrite Hc. unfold S3Survival.curvas_km, mask_sum.
    rewrite (list_fmap_ext _ (λ grupo, (grupo, ocorrencias grupo g)) gu).
    - apply List.forallb_filter_id, forallb_forall. intros gn Hgn.
      apply list_elem_of_In, list_elem_of_fmap in Hgn as (u & -> & Hu). simpl.
      apply Nat.ltb_lt. apply (proj1 (Forall_forall _ _) Hpos) in Hu. lia.
    - intros i u _. simpl. f_equal. unfold ocorrencias.
      by rewrite filter_fmap, length_fmap. }
  rewrite Hcurvas. split; [|split].
  - transitivity (foldr (λ u acc, (ocorrencias u g + acc)%nat) 0%nat gu).
    + apply total_curvas_fmap.
    + rewrite (total_perm g _ _ HP), total_unique, (existsb_self g Hna).
      unfold g. by rewrite length_fmap.
  - apply Forall_fmap. exact Hpos.
  - by rewrite length_fmap.
Qed.

Lemma survival_curves_partition_witness :
  ∃ f out,
    S3Survival.plotar_sobrevida stats_de_teste tabela_eos_grupos
      "grupo_CLC_vs_Nao" "CLC" = Ok (Some f, out)
    ∧ total_curvas (curvas f) = 4%nat.
Proof.
  assert (Hok : returned (S3Survival.plotar_sobrevida stats_de_teste tabela_eos_grupos
                            "grupo_CLC_vs_Nao" "CLC") = true)
    by (vm_compute; reflexivity).
  destruct (S3Survival.plotar_sobrevida stats_de_teste tabela_eos_grupos
              "grupo_CLC_vs_Nao" "CLC") as [[[f|] out]|e] eqn:E; [|discriminate Hok..].
  exists f, out. split; [reflexivity|].
  rewrite (proj1 (survival_curves_partition stats_de_teste tabela_eos_grupos
                    "grupo_CLC_vs_Nao" "CLC" f out E)).
  vm_compute. reflexivity.
Defined.

(** ** The Wilson error bar of a count that is not zero *)

Lemma wilson_sqrt_pos (z p n : R) :
  (0 < z)%R → (0 < n)%R → (0 <= p <= 1)%R →
  (0 < R_sqrt.sqrt (p * (1 - p) / n + z * z / (4 * n * n)))%R.
Proof.
  intros Hz Hn [Hp0 Hp1]. apply sqrt_lt_R0.
  assert (0 <= p * (1 - p) / n)%R.
  { apply Rmult_le_pos; [apply Rmult_le_pos; lra|]. by apply Rlt_le, Rinv_0_lt_compat. }
  assert (0 < z * z / (4 * n * n))%R; [|lra].
  apply Rmult_lt_0_compat; [by apply Rmult_lt_0_compat|].
  apply Rinv_0_lt_compat. assert (0 < n * n)%R by (by apply Rmult_lt_0_compat). lra.
Qed.

Lemma wilson_margin_pos (z p n : R) :
  (0 < z)%R → (0 < n)%R → (0 < p <= 1)%R →
  (0 < p - wilson_lower_bound z p n)%R.
Proof.
  intros Hz Hn [Hp0 Hp1]. unfold wilson_lower_bound.
  set (Y := (p * (1 - p) / n + z * z / (4 * n * n))%R).
  assert (HY : (0 < R_sqrt.sqrt Y)%R) by (apply wilson_sqrt_pos; lra).
  assert (Hzn : (0 < z * z / n)%R).
  { apply Rmult_lt_0_compat; [by apply Rmult_lt_0_compat|]. by apply Rinv_0_lt_compat. }
  assert (Hd : (0 < 1 + z * z / n)%R) by lra.
  assert (Hkey : (z * z / (2 * n) * (1 - 2 * p) < z * R_sqrt.sqrt Y)%R).
  { destruct (Rle_lt_dec (1 - 2 * p) 0) as [Hneg|Hpos].
    - assert (0 < z * R_sqrt.sqrt Y)%R by (by apply Rmult_lt_0_compat).
      assert (0 < z * z / (2 * n))%R.
      { replace (z * z / (2 * n))%R with (z * z / n / 2)%R by (field; lra). lra. }
      assert (z * z / (2 * n) * (1 - 2 * p) <= 0)%R; [|lra].
      replace 0%R with (z * z / (2 * n) * 0)%R by ring.
      apply Rmult_le_compat_l; lra.
    - replace (z * z / (2 * n) * (1 - 2 * p))%R
        with (z * (z * (1 - 2 * p) / (2 * n)))%R by (field; lra).
      apply Rmult_lt_compat_l; [done|].
      set (W := (z * (1 - 2 * p) / (2 * n))%R).
      assert (HW : (0 <= W)%R).
      { unfold W. apply Rmult_le_pos; [apply Rmult_le_pos; lra|].
        apply Rlt_le, Rinv_0_lt_compat. lra. }
      rewrite <- (sqrt_square W HW). apply sqrt_lt_1_alt. split.
      + by apply Rmult_le_pos.
      + unfold W, Y.
        assert (Hpp : (0 < p * (1 - p))%R) by (apply Rmult_lt_0_compat; lra).
        assert (Hq : (0 < p * (1 - p) / n + z * z * (p * (1 - p)) / (n * n))%R).
        { apply Rplus_lt_0_compat.
          - apply Rmult_lt_0_compat; [done|]. by apply Rinv_0_lt_compat.
          - apply Rmult_lt_0_compat.
            + apply Rmult_lt_0_compat; [by apply Rmult_lt_0_compat|done].
            + apply Rinv_0_lt_compat. by apply Rmult_lt_0_compat. }
        replace (p * (1 - p) / n + z * z / (4 * n * n))%R
          with (z * (1 - 2 * p) / (2 * n) * (z * (1 - 2 * p) / (2 * n))
                + (p * (1 - p) / n + z * z * (p * (1 - p)) / (n * n)))%R
          by (field; lra).
        lra. }
  assert (Hl : ((p + z * z / (2 * n) - z * R_sqrt.sqrt Y) / (1 + z * z / n) < p)%R); [|lra].
  apply (Rmult_lt_reg_r (1 + z * z / n)%R); [done|].
  unfold Rdiv at 1. rewrite Rmult_assoc, Rinv_l, Rmult_1_r by lra.
  replace (z * z / n)%R with (2 * (z * z / (2 * n)))%R by (field; lra).
  lra.
Qed.

(** At [p = 1] the margin is [z² / (n + z²)]. *)
Lemma wilson_margin_full (z n : R) :
  (0 <= z)%R → (0 < n)%R →
  (1 - wilson_lower_bound z 1 n = z * z / (n + z * z))%R.
Proof.
  intros Hz Hn. unfold wilson_lower_bound.
  replace (1 * (1 - 1) / n + z * z / (4 * n * n))%R with (z * z / (4 * n * n))%R
    by (field; lra).
  rewrite (sqrt_quarter z n Hz Hn).
  assert (0 <= z * z)%R by (by apply Rmult_le_pos).
  field. split; lra.
Qed.

Lemma wilson_count_pos (norm_ppf : R → R) (k n : Z) (nivel_confianca : R) :
  (1 ≤ k ≤ n)%Z →
  (0 < norm_ppf (1 - (1 - nivel_confianca) / 2))%R →
  (0 < SampleType.calcular_intervalo_confianca_wilson norm_ppf k n nivel_confianca)%R.
Proof.
  intros [Hk Hkn] Hz.
  assert (Hn : n ≠ 0%Z) by lia.
  assert (Hn' : (0 < IZR n)%R) by (apply IZR_lt; lia).
  rewrite (wilson_real_unfold _ _ _ _ Hn).
  apply wilson_margin_pos; [done..|]. split.
  - apply Rmult_lt_0_compat; [apply IZR_lt; lia|]. by apply Rinv_0_lt_compat.
  - apply (Rmult_le_reg_r (IZR n)); [done|].
    unfold Rdiv. rewrite Rmult_assoc, Rinv_l, Rmult_1_r, Rmult_1_l by lra.
    by apply IZR_le.
Qed.

(** X19.  In exact arithmetic the margin is strictly positive for every
    count [1 <= k <= n] when the normal quantile [z] is positive, and for
    [k = n] it is [z² / (n + z²)], not 0. *)
Theorem wilson_margin_positive (norm_ppf : R → R) (k n : Z) (nivel_confianca : R) :
  (1 ≤ k ≤ n)%Z →
  (0 < norm_ppf (1 - (1 - nivel_confianca) / 2))%R →
  let z := norm_ppf (1 - (1 - nivel_confianca) / 2)%R in
  (0 < SampleType.calcular_intervalo_confianca_wilson norm_ppf k n nivel_confianca)%R
  ∧ SampleType.calcular_intervalo_confianca_wilson norm_ppf n n nivel_confianca
    = (z * z / (IZR n + z * z))%R.
Proof.
  intros [Hk Hkn] Hz z. split; [by apply wilson_count_pos|].
  assert (Hn : n ≠ 0%Z) by lia.
  assert (Hn' : (0 < IZR n)%R) by (apply IZR_lt; lia).
  rewrite (wilson_real_unfold _ _ _ _ Hn). fold z.
  replace (IZR n / IZR n)%R with 1%R by (field; lra).
  apply wilson_margin_full; [|done]. by apply Rlt_le.
Qed.

Lemma wilson_margin_positive_witness :
  (0 < SampleType.calcular_intervalo_confianca_wilson (λ _ : R, 2%R) 3 10 (95 / 100))%R.
Proof.
  refine (proj1 (wilson_margin_positive (λ _ : R, 2%R) 3 10 (95 / 100)%R _ _)).
  - lia.
  - lra.
Defined.

(** X20.  [extract_sample_type_code] returns the first two characters of
    the fourth field of a barcode with at least four fields separated by
    [-], whatever follows; with fewer than four fields, or for a cell that is
    not a string, it returns 'UNKNOWN'. *)
Theorem sample_type_code_of_fields (parts : list string) :
  Forall (λ p, sem_char "-" p = true) parts →
  SampleTypeSummary.extract_sample_type_code (Str (String.concat "-" parts))
  = (if Nat.leb 4 (length parts) then prefixo 2 (nth 3 parts "") else "UNKNOWN")
  ∧ ∀ c, (∀ s, c ≠ Str s) → SampleTypeSummary.extract_sample_type_code c = "UNKNOWN".
Proof.
  intros H. split.
  - unfold SampleTypeSummary.extract_sample_type_code. destruct parts as [|x l]; [done|].
    change "-" with (String "-"%char "") at 1. by rewrite split_on_concat.
  - intros c Hc. destruct c; try done. by destruct (Hc s).
Qed.

Lemma sample_type_code_of_fields_witness :
  SampleTypeSummary.extract_sample_type_code (Str "TCGA-A1-A0SB-01A-11R-A144-07") = "01".
Proof.
  refine (eq_trans (proj1 (sample_type_code_of_fields
            ["TCGA"; "A1"; "A0SB"; "01A"; "11R"; "A144"; "07"] _)) _).
  - repeat constructor.
  - reflexivity.
Defined.

(** ** sample_type_plotandexcel.py: the summary table and its error bars *)

Lemma inserir_perm {A : Type} (leb : A → A → bool) (x : A) (l : list A) :
  Permutation (inserir leb x l) (x :: l).
Proof.
  induction l as [|y l IH]; simpl; [done|].
  destruct (leb x y); [done|]. rewrite IH. apply perm_swap.
Qed.

Lemma ordenar_perm {A : Type} (leb : A → A → bool) (l : list A) :
  Permutation (ordenar leb l) l.
Proof.
  induction l as [|x l IH]; simpl; [done|].
  rewrite inserir_perm. by constructor.
Qed.

Lemma zip_fmap_self {A B : Type} (f : A → B) (l : list A) :
  zip l (f <$> l) = (λ x, (x, f x)) <$> l.
Proof. induction l as [|x l IH]; csimpl; [done|]. by rewrite IH. Qed.

Lemma sum_list_zero {A : Type} (K : list A) :
  sum_list ((λ _, 0) <$> K) = 0.
Proof. induction K as [|k K IH]; csimpl; [done|]. by rewrite IH. Qed.

Lemma sum_list_one `{EqDecision A} (x : A) (K : list A) :
  NoDup K → x ∈ K →
  sum_list ((λ k, if bool_decide (x = k) then 1 else 0) <$> K) = 1.
Proof.
  induction 1 as [|k K Hk HK IH]; intros Hx; [by apply elem_of_nil in Hx|].
  csimpl. case_bool_decide as E.
  - subst k. f_equal. etrans; [|apply (sum_list_zero K)].
    f_equal. apply list_fmap_ext.
    intros i y Hy. case_bool_decide; [|done].
    subst y. destruct Hk. by eapply list_elem_of_lookup_2.
  - apply elem_of_cons in Hx as [->|Hx]; [done|]. by rewrite IH.
Qed.

Lemma group_sizes_cons `{EqDecision A} (K : list A) (x : A) (l : list A) :
  sum_list ((λ k, length (List.filter (λ p, bool_decide (p = k)) (x :: l))) <$> K)
  = sum_list ((λ k, if bool_decide (x = k) then 1 else 0) <$> K)
    + sum_list ((λ k, length (List.filter (λ p, bool_decide (p = k)) l)) <$> K).
Proof.
  induction K as [|k K IH]; [done|].
  rewrite !fmap_cons. cbn [sum_list_with]. rewrite IH. unfold id.
  cbn [List.filter]. case_bool_decide; simpl; lia.
Qed.

(** The sizes of the groups of a [groupby] add up to the number of rows. *)
Lemma group_sizes_sum `{EqDecision A} (K l : list A) :
  NoDup K → (∀ x, x ∈ l → x ∈ K) →
  sum_list ((λ k, length (List.filter (λ p, bool_decide (p = k)) l)) <$> K) = length l.
Proof.
  intros HK. induction l as [|x l IH]; intros Hl.
  - simpl. apply sum_list_zero.
  - rewrite group_sizes_cons, (sum_list_one x K HK) by (apply Hl; left).
    rewrite IH by (intros y Hy; apply Hl; by right). done.
Qed.

Lemma count_pair_code (f : string → string) (code : string) (l : list string) :
  length (List.filter (λ p, bool_decide (p = (code, f code))) ((λ x, (x, f x)) <$> l))
  = length (List.filter (String.eqb code) l).
Proof.
  induction l as [|x l IH]; csimpl; [done|].
  destruct (String.eqb_spec code x) as [->|Hne].
  - rewrite bool_decide_eq_true_2 by done. simpl. by rewrite IH.
  - rewrite bool_decide_eq_false_2 by congruence. done.
Qed.

Lemma count_elem_pos (code : string) (l : list string) :
  code ∈ l → (1 ≤ length (List.filter (String.eqb code) l))%nat.
Proof.
  induction 1 as [x l|x y l _ IH]; simpl.
  - rewrite String.eqb_refl. simpl. lia.
  - destruct (String.eqb x y); simpl; lia.
Qed.

(** The rows of the summary, up to their order, read on the codes alone
    when the description of a sample is a function of its code. *)
Lemma summary_df_perm {F : Type} {ar : Arith F} (round_2 : F → F)
    (desc : string → string) (codes : list string) :
  ∃ K : list string,
    NoDup K ∧ (∀ code, code ∈ K ↔ code ∈ codes)
    ∧ Permutation
        (SampleTypeSummary.summary_df round_2 codes (desc <$> codes))
        ((λ code,
            let contagem := length (List.filter (String.eqb code) codes) in
            SampleTypeSummary.mkLinhaResumo code (desc code) contagem
              (round_2 (fmul (fdiv (of_int (Z.of_nat contagem))
                                   (of_int (Z.of_nat (length codes))))
                             (of_int 100)))) <$> K).
Proof.
  unfold SampleTypeSummary.summary_df. rewrite zip_fmap_self.
  set (pares := (λ x, (x, desc x)) <$> codes).
  assert (HP : Permutation (ordenar par_leb (remove_dups pares)) (remove_dups pares))
    by apply ordenar_perm.
  assert (Hin : ∀ p, p ∈ ordenar par_leb (remove_dups pares) ↔ p ∈ pares).
  { intros p. rewrite HP. apply elem_of_remove_dups. }
  assert (Hform : ∀ p, p ∈ pares ↔ ∃ code, code ∈ codes ∧ p = (code, desc code)).
  { intros p. unfold pares. rewrite list_elem_of_fmap. split.
    - intros (c & -> & Hc). eauto.
    - intros (c & Hc & ->). eauto. }
  exists (fst <$> ordenar par_leb (remove_dups pares)). split; [|split].
  - apply NoDup_fmap_2_strong.
    + intros p q Hp%Hin%Hform Hq%Hin%Hform E.
      destruct Hp as (c & _ & ->), Hq as (d & _ & ->). cbn [fst] in E. by subst d.
    + rewrite HP. apply NoDup_remove_dups.
  - intros code. rewrite list_elem_of_fmap. split.
    + intros (p & -> & Hp%Hin%Hform). by destruct Hp as (c & Hc & ->).
    + intros Hc. exists (code, desc code). split; [done|].
      apply Hin, Hform. eauto.
  - rewrite ordenar_perm, <- list_fmap_compose.
    match goal with |- Permutation ?a ?b => assert (a = b) as ->; [|done] end.
    apply list_fmap_ext.
    intros i p Hp%list_elem_of_lookup_2%Hin%Hform. destruct Hp as (c & _ & ->).
    unfold compose. cbn [fst snd]. unfold pares. by rewrite (count_pair_code desc).
Qed.

Lemma filter_eqb_decide (k : string) (l : list string) :
  List.filter (String.eqb k) l = List.filter (λ p, bool_decide (p = k)) l.
Proof.
  apply List.filter_ext. intros p.
  destruct (String.eqb_spec k p) as [->|Hne].
  - by rewrite bool_decide_eq_true_2.
  - by rewrite bool_decide_eq_false_2 by congruence.
Qed.

Lemma summary_df_rows {F : Type} {ar : Arith F} (round_2 : F → F)
    (desc : string → string) (codes : list string) :
  let s := SampleTypeSummary.summary_df round_2 codes (desc <$> codes) in
  sum_list (SampleTypeSummary.contagem_absoluta <$> s) = length codes
  ∧ NoDup (SampleTypeSummary.codigo_do_tipo <$> s)
  ∧ (∀ code, code ∈ codes ↔ code ∈ SampleTypeSummary.codigo_do_tipo <$> s)
  ∧ Forall (λ l,
        SampleTypeSummary.descricao_da_amostra l = desc (SampleTypeSummary.codigo_do_tipo l)
        ∧ SampleTypeSummary.contagem_absoluta l
          = length (List.filter (String.eqb (SampleTypeSummary.codigo_do_tipo l)) codes)
        ∧ (1 ≤ SampleTypeSummary.contagem_absoluta l ≤ length codes)%nat) s.
Proof.
  intros s. destruct (summary_df_perm round_2 desc codes) as (K & HK & HKin & HP).
  fold s in HP.
  assert (Hcod : SampleTypeSummary.codigo_do_tipo <$> s ≡ₚ K).
  { rewrite HP, <- list_fmap_compose. rewrite <- (list_fmap_id K) at 2.
    match goal with |- Permutation ?a ?b => assert (a = b) as ->; [|done] end.
    by apply list_fmap_ext. }
  split; [|split; [|split]].
  - rewrite HP, <- list_fmap_compose.
    rewrite <- (group_sizes_sum K codes HK) by (intros x; apply HKin).
    f_equal. apply list_fmap_ext. intros i k _. unfold compose. simpl.
    by rewrite filter_eqb_decide.
  - by rewrite Hcod.
  - intros code. by rewrite Hcod, HKin.
  - rewrite HP. apply Forall_fmap, Forall_forall. intros code Hc%HKin. simpl.
    split; [done|]. split; [done|]. split.
    + by apply count_elem_pos.
    + apply filter_length_le.
Qed.

(** X21.  The summary table of sample_type_plotandexcel.py has exactly one
    row for each sample-type code that occurs among the barcodes; the row
    carries the description of that code and the number of samples with
    that code, which is at least 1; and the counts add up to the number of
    samples. *)
Theorem summary_counts_partition {F : Type} {ar : Arith F} (round_2 : F → F)
    (barcodes : list cell) :
  let codes := SampleTypeSummary.Sample_Code barcodes in
  let s := SampleTypeSummary.summary_df round_2 codes
             (SampleTypeSummary.Sample_Type_Desc codes) in
  sum_list (SampleTypeSummary.contagem_absoluta <$> s) = length barcodes
  ∧ NoDup (SampleTypeSummary.codigo_do_tipo <$> s)
  ∧ (∀ code, code ∈ codes ↔ code ∈ SampleTypeSummary.codigo_do_tipo <$> s)
  ∧ Forall (λ l,
        SampleTypeSummary.descricao_da_amostra l
        = default "Outros/Desconhecido"
            (SampleTypeSummary.SAMPLE_TYPE_CODES !! SampleTypeSummary.codigo_do_tipo l)
        ∧ SampleTypeSummary.contagem_absoluta l
          = length (List.filter (String.eqb (SampleTypeSummary.codigo_do_tipo l)) codes)
        ∧ (1 ≤ SampleTypeSummary.contagem_absoluta l ≤ length barcodes)%nat) s.
Proof.
  intros codes s.
  pose proof (summary_df_rows round_2
    (λ code, default "Outros/Desconhecido" (SampleTypeSummary.SAMPLE_TYPE_CODES !! code))
    codes) as H.
  assert (Hlen : length codes = length barcodes).
  { unfold codes, SampleTypeSummary.Sample_Code. apply length_fmap. }
  rewrite Hlen in H. exact H.
Qed.

(** The default level, evaluated on floats, is the literal 0.95. *)
Lemma nivel_confianca_padrao_float :
  SampleTypeSummary.nivel_confianca_padrao (F := float) = nivel_95.
Proof. vm_compute. reflexivity. Qed.

(** X22.  In the bar chart of sample_type_plotandexcel.py the Wilson margin
    is only ever computed for a count between 1 and the number of samples:
    there is one error bar per row of the summary and, in exact arithmetic
    with a positive normal quantile, every error bar is strictly positive. *)
Theorem error_bars_positive (norm_ppf round_2 : R → R) (barcodes : list cell) :
  (0 < norm_ppf (1 - (1 - SampleTypeSummary.nivel_confianca_padrao) / 2))%R →
  let codes := SampleTypeSummary.Sample_Code barcodes in
  let s := SampleTypeSummary.summary_df round_2 codes
             (SampleTypeSummary.Sample_Type_Desc codes) in
  let barras := SampleTypeSummary.error_bars_count norm_ppf s (length barcodes) in
  length barras = length s
  ∧ Forall2 (λ l e,
       e = (SampleType.calcular_intervalo_confianca_wilson norm_ppf
              (Z.of_nat (SampleTypeSummary.contagem_absoluta l))
              (Z.of_nat (length barcodes)) SampleTypeSummary.nivel_confianca_padrao
            * INR (length barcodes))%R
       ∧ (1 ≤ SampleTypeSummary.contagem_absoluta l ≤ length barcodes)%nat
       ∧ (0 < e)%R) s barras.
Proof.
  intros Hz codes s barras.
  pose proof (summary_df_rows round_2
    (λ code, default "Outros/Desconhecido" (SampleTypeSummary.SAMPLE_TYPE_CODES !! code))
    codes) as (_ & _ & _ & H).
  assert (Hlen : length codes = length barcodes).
  { unfold codes, SampleTypeSummary.Sample_Code. apply length_fmap. }
  rewrite Hlen in H. fold s in H.
  unfold barras, SampleTypeSummary.error_bars_count. split.
  - by rewrite !length_fmap.
  - rewrite <- list_fmap_compose. apply Forall2_fmap_r, Forall_Forall2_diag.
    eapply Forall_impl; [exact H|]. intros l (_ & _ & Hl). unfold compose. simpl.
    rewrite <- INR_IZR_INZ. split; [done|]. split; [done|].
    apply Rmult_lt_0_compat.
    + apply wilson_count_pos; [lia|exact Hz].
    + apply lt_0_INR. lia.
Qed.

Lemma error_bars_positive_witness :
  Forall (λ e, (0 < e)%R)
    (SampleTypeSummary.error_bars_count (λ _ : R, 2%R)
       (SampleTypeSummary.summary_df (λ x : R, x)
          (SampleTypeSummary.Sample_Code
             [Str "TCGA-A1-A0SB-01A-11R-A144-07"; Str "TCGA-A1-A0SD-11A"; NaN])
          (SampleTypeSummary.Sample_Type_Desc
             (SampleTypeSummary.Sample_Code
                [Str "TCGA-A1-A0SB-01A-11R-A144-07"; Str "TCGA-A1-A0SD-11A"; NaN])))
       3).
Proof.
  assert (Hz : (0 < (λ _ : R, 2%R)
                      (1 - (1 - SampleTypeSummary.nivel_confianca_padrao) / 2))%R) by lra.
  destruct (error_bars_positive (λ _ : R, 2%R) (λ x : R, x)
              [Str "TCGA-A1-A0SB-01A-11R-A144-07"; Str "TCGA-A1-A0SD-11A"; NaN] Hz)
    as [_ H].
  eapply Forall2_Forall_r; [exact H|].
  apply Forall_forall. intros l _ e (_ & _ & He). exact He.
Defined.
